(** * Peer-evaluation backend: weighted scoring and anonymisation

    A shallow embedding of
      - [app/utils/weighted_scoring.py] (class [WeightedScoringCalculator]),
      - [app/utils/anonymity.py],
    together with the part of Python's [decimal] arithmetic the calculator
    runs on (default context: 28 significant digits, ROUND_HALF_EVEN,
    Emin = -999999, Emax = 999999, traps on InvalidOperation,
    DivisionByZero and Overflow). *)

From Stdlib Require Import ZArith Bool List Lia String Ascii DecimalString.
From Stdlib Require Import Reals Lra.
From stdpp Require Import base option list gmap strings.

Local Open Scope Z_scope.

(** ** Exceptions and the error monad

    Python code either returns a value or raises; [result] keeps the two
    apart, and [let*] sequences calls the way statements follow each other. *)

Inductive exn : Type :=
  | InvalidOperation
  | DivisionByZero
  | Overflow
  | IndexError
  | KeyError
  | TypeError
  | AttributeError.

Inductive result (A : Type) : Type :=
  | Ok (a : A)
  | Raise (e : exn).

Arguments Ok {A} a.
Arguments Raise {A} e.

Definition rbind {A B : Type} (m : result A) (k : A -> result B) : result B :=
  match m with
  | Ok a => k a
  | Raise e => Raise e
  end.

Notation "'let*' x ':=' m 'in' k" := (rbind m (fun x => k))
  (at level 10, x pattern, m at level 100, k at level 200).

Definition is_ok {A : Type} (m : result A) : bool :=
  match m with Ok _ => true | Raise _ => false end.

(** ** Python's Decimal, finite values *)

Module Decimal.

(** A finite Decimal is the triple [(_sign, _int, _exp)]: the value is
    [(-1)^_sign * _int * 10^_exp].  The coefficient [_int] is a digit
    string without leading zeros in Python; here it is the number. *)
Record t : Type := Dec { dsign : bool; dint : N; dexp : Z }.

Definition coef (d : t) : Z := Z.of_N (dint d).
Definition mk (s : bool) (c : Z) (e : Z) : t := Dec s (Z.to_N c) e.

(** The default context. *)
Definition prec : Z := 28.
Definition Emax : Z := 999999.
Definition Emin : Z := -999999.
Definition Etiny : Z := Emin - prec + 1.
Definition Etop : Z := Emax - prec + 1.

(** [len(str(c))] for a coefficient [c >= 0]. *)
Fixpoint ndigits_aux (fuel : nat) (c : Z) : Z :=
  match fuel with
  | O => 1
  | S f => if c <? 10 then 1 else 1 + ndigits_aux f (c / 10)
  end.

Definition ndigits (c : Z) : Z := ndigits_aux (Z.to_nat (Z.log2 c)) c.

Definition adjusted (d : t) : Z := dexp d + ndigits (coef d) - 1.

(** Signed coefficient: the value is [signed d * 10 ^ dexp d]. *)
Definition signed (d : t) : Z := if dsign d then - coef d else coef d.

Definition is_zero (d : t) : bool := coef d =? 0.

(** [Decimal(str(n))] for a Python int [n]. *)
Definition of_Z (n : Z) : t := mk (n <? 0) (Z.abs n) 0.

Definition copy_negate (d : t) : t := Dec (negb (dsign d)) (dint d) (dexp d).
Definition copy_abs (d : t) : t := Dec false (dint d) (dexp d).

(** Comparison by value ([_cmp]): both operands are brought to the smaller
    exponent; the two zeros compare equal. *)
Definition cmp (a b : t) : comparison :=
  let m := Z.min (dexp a) (dexp b) in
  (signed a * 10 ^ (dexp a - m)) ?= (signed b * 10 ^ (dexp b - m)).

Definition ltb (a b : t) : bool := match cmp a b with Lt => true | _ => false end.
Definition gtb (a b : t) : bool := match cmp a b with Gt => true | _ => false end.
Definition leb (a b : t) : bool := negb (gtb a b).
Definition eqb (a b : t) : bool := match cmp a b with Eq => true | _ => false end.

(** Rounding decisions.  The coefficient [c] loses its last [k >= 1]
    digits; the answer is [1] (round away), [0] (exact) or [-1] (round
    towards zero), as [_round_half_up] and [_round_half_even] return. *)
Definition round_half_up (c k : Z) : Z :=
  let r := c mod 10 ^ k in
  if 5 * 10 ^ (k - 1) <=? r then 1
  else if r =? 0 then 0 else -1.

Definition round_half_even (c k : Z) : Z :=
  let r := c mod 10 ^ k in
  if (r =? 5 * 10 ^ (k - 1)) && Z.even (c / 10 ^ k) then -1
  else round_half_up c k.

(** [_fix]: round to the context precision and keep the exponent in range. *)
Definition fix_ (d : t) : result t :=
  let c := coef d in
  if c =? 0 then
    Ok (mk (dsign d) 0 (Z.min (Z.max (dexp d) Etiny) Emax))
  else
    let exp_min0 := ndigits c + dexp d - prec in
    if Etop <? exp_min0 then Raise Overflow
    else
      let exp_min := Z.max exp_min0 Etiny in
      if dexp d <? exp_min then
        let digits := ndigits c + dexp d - exp_min in
        let '(c1, k) := if digits <? 0 then (1, 1) else (c, exp_min - dexp d) in
        let changed := round_half_even c1 k in
        let coeff := c1 / 10 ^ k in
        let coeff := if 0 <? changed then coeff + 1 else coeff in
        let '(coeff, exp_min) :=
          if prec <? ndigits coeff then (coeff / 10, exp_min + 1)
          else (coeff, exp_min) in
        if Etop <? exp_min then Raise Overflow
        else Ok (mk (dsign d) coeff exp_min)
      else Ok d.

(** [_rescale]: bring to exponent [e], rounding with [rounding]. *)
Definition rescale (rounding : Z -> Z -> Z) (d : t) (e : Z) : t :=
  let c := coef d in
  if c =? 0 then mk (dsign d) 0 e
  else if e <=? dexp d then mk (dsign d) (c * 10 ^ (dexp d - e)) e
  else
    let digits := ndigits c + dexp d - e in
    let '(c1, k) := if digits <? 0 then (1, 1) else (c, e - dexp d) in
    let changed := rounding c1 k in
    let coeff := c1 / 10 ^ k in
    let coeff := if changed =? 1 then coeff + 1 else coeff in
    mk (dsign d) coeff e.

(** [quantize(exp, rounding=...)]. *)
Definition quantize (rounding : Z -> Z -> Z) (d : t) (exp : t) : result t :=
  let e := dexp exp in
  if negb ((Etiny <=? e) && (e <=? Emax)) then Raise InvalidOperation
  else if is_zero d then fix_ (mk (dsign d) 0 e)
  else if Emax <? adjusted d then Raise InvalidOperation
  else if prec <? adjusted d - e + 1 then Raise InvalidOperation
  else
    let ans := rescale rounding d e in
    if Emax <? adjusted ans then Raise InvalidOperation
    else if prec <? ndigits (coef ans) then Raise InvalidOperation
    else fix_ ans.

(** [__add__]: the exact sum at the smaller exponent, then [_fix].  The sum
    of two zeros keeps a minus sign only when both are negative; an exact
    cancellation gives a positive zero. *)
Definition add (a b : t) : result t :=
  let e := Z.min (dexp a) (dexp b) in
  if is_zero a && is_zero b then
    fix_ (mk (dsign a && dsign b) 0 e)
  else
    let s := signed a * 10 ^ (dexp a - e) + signed b * 10 ^ (dexp b - e) in
    fix_ (mk (s <? 0) (Z.abs s) e).

(** [__sub__] is addition of the negated operand. *)
Definition sub (a b : t) : result t := add a (copy_negate b).

(** [__abs__] (rounding with the context). *)
Definition abs (a : t) : result t := fix_ (copy_abs a).

(** [__mul__]. *)
Definition mul (a b : t) : result t :=
  fix_ (mk (xorb (dsign a) (dsign b)) (coef a * coef b) (dexp a + dexp b)).

(** The loop of [__truediv__] that strips trailing zeros of an exact
    quotient towards the ideal exponent. *)
Fixpoint strip_zeros (fuel : nat) (coeff exp ideal : Z) : Z * Z :=
  match fuel with
  | O => (coeff, exp)
  | S f =>
      if (exp <? ideal) && (coeff mod 10 =? 0)
      then strip_zeros f (coeff / 10) (exp + 1) ideal
      else (coeff, exp)
  end.

(** [__truediv__]. *)
Definition truediv (a b : t) : result t :=
  let sign := xorb (dsign a) (dsign b) in
  if is_zero b then
    if is_zero a then Raise InvalidOperation else Raise DivisionByZero
  else if is_zero a then
    fix_ (mk sign 0 (dexp a - dexp b))
  else
    let shift := ndigits (coef b) - ndigits (coef a) + prec + 1 in
    let exp := dexp a - dexp b - shift in
    let '(coeff, remainder) :=
      if 0 <=? shift
      then ((coef a * 10 ^ shift) / coef b, (coef a * 10 ^ shift) mod coef b)
      else (coef a / (coef b * 10 ^ (- shift)), coef a mod (coef b * 10 ^ (- shift))) in
    if negb (remainder =? 0) then
      let coeff := if coeff mod 5 =? 0 then coeff + 1 else coeff in
      fix_ (mk sign coeff exp)
    else
      let ideal_exp := dexp a - dexp b in
      let '(coeff, exp) := strip_zeros (Z.to_nat (ideal_exp - exp)) coeff exp ideal_exp in
      fix_ (mk sign coeff exp).

(** [sum(xs)]: the builtin starts from the int [0] and adds from the left. *)
Definition sum (xs : list t) : result t :=
  fold_left (fun acc x => let* s := acc in add s x) xs (Ok (of_Z 0)).

(** [str(d)] (scientific notation of the specification, capitals = 1). *)
Definition digits_of (c : Z) : string := NilZero.string_of_uint (N.to_uint (Z.to_N c)).

Definition zeros (n : Z) : string :=
  string_of_list_ascii (repeat "0"%char (Z.to_nat n)).

Definition exp_suffix (x : Z) : string :=
  let sg : string := if (x <? 0)%Z then "-"%string else "+"%string in
  ("E" ++ sg ++ digits_of (Z.abs x))%string.

Definition to_string (d : t) : string :=
  let sign := if dsign d then "-"%string else ""%string in
  let ds := digits_of (coef d) in
  let len := Z.of_nat (String.length ds) in
  let leftdigits := dexp d + len in
  let dotplace := if (dexp d <=? 0) && (-6 <? leftdigits) then leftdigits else 1 in
  let '(intpart, fracpart) :=
    if dotplace <=? 0 then ("0", "." ++ zeros (- dotplace) ++ ds)%string
    else if len <=? dotplace then ((ds ++ zeros (dotplace - len))%string, ""%string)
    else (substring 0 (Z.to_nat dotplace) ds,
          ("." ++ substring (Z.to_nat dotplace) (Z.to_nat (len - dotplace)) ds)%string) in
  let exp := if leftdigits =? dotplace then ""%string else exp_suffix (leftdigits - dotplace) in
  (sign ++ intpart ++ fracpart ++ exp)%string.

End Decimal.

(** ** The weighted scoring calculator ([weighted_scoring.py])

    A numeric field of a criterion or score dictionary is represented by the
    Decimal that [Decimal(str(v))] builds from it; a field read with
    [.get(key, 0)] is an [option], [None] standing for a missing key.
    A result field holds the Decimal that the code hands to [float]; the
    [float(...)] conversion itself is [PyFloat.of_decimal] below. *)

Module WeightedScoringCalculator.

Record criterion : Type := Criterion {
  c_id : Z;
  c_weight : option Decimal.t;
  c_max_points : option Decimal.t;
  c_text : option string
}.

Record score_entry : Type := Score {
  s_criterion_id : Z;
  s_score : Decimal.t
}.

Record detail : Type := Detail {
  criterion_id : Z;
  criterion_text : string;
  raw_score : Decimal.t;
  max_points : Decimal.t;
  weight : Decimal.t;
  weighted_score : Decimal.t
}.

Record weighted_result : Type := WeightedResult {
  weighted_total : Decimal.t;
  breakdown : list detail;
  max_score_of : Z
}.

Definition d0 : Decimal.t := Decimal.of_Z 0.
Definition d100 : Decimal.t := Decimal.of_Z 100.
(** [Decimal('0.01')] *)
Definition cent : Decimal.t := Decimal.Dec false 1 (-2).

(** [Decimal(str(c.get('weight', 0)))] *)
Definition weight_of (c : criterion) : Decimal.t := default d0 (c_weight c).
Definition max_points_of (c : criterion) : Decimal.t := default d0 (c_max_points c).

Definition quantize2 (d : Decimal.t) : result Decimal.t :=
  Decimal.quantize Decimal.round_half_up d cent.

(** *** validate_weights *)

Definition sum_message (total : Decimal.t) : string :=
  ("Weights must sum to 100%. Current sum: " ++ Decimal.to_string total ++ "%")%string.

Definition negative_message (i : nat) (w : Decimal.t) : string :=
  ("Criterion " ++ Decimal.digits_of (Z.of_nat i + 1) ++ " has negative weight: "
     ++ Decimal.to_string w ++ "%")%string.

Definition exceeding_message (i : nat) (w : Decimal.t) : string :=
  ("Criterion " ++ Decimal.digits_of (Z.of_nat i + 1) ++ " has weight exceeding 100%: "
     ++ Decimal.to_string w ++ "%")%string.

(** The [for i, criterion in enumerate(criteria)] loop, from index [i]. *)
Fixpoint check_each (i : nat) (criteria : list criterion) : bool * string :=
  match criteria with
  | [] => (true, ""%string)
  | c :: rest =>
      let w := weight_of c in
      if Decimal.ltb w d0 then (false, negative_message i w)
      else if Decimal.gtb w d100 then (false, exceeding_message i w)
      else check_each (S i) rest
  end.

Definition validate_weights (criteria : list criterion) : result (bool * string) :=
  match criteria with
  | [] => Ok (false, "No criteria provided"%string)
  | _ =>
      let* total_weight := Decimal.sum (map weight_of criteria) in
      let* diff := Decimal.sub total_weight d100 in
      let* dev := Decimal.abs diff in
      if Decimal.gtb dev cent then Ok (false, sum_message total_weight)
      else Ok (check_each 0 criteria)
  end.

(** *** calculate_weighted_score *)

(** [{s['criterion_id']: s['score'] for s in scores}]: later entries
    overwrite earlier ones. *)
Definition build_score_map (scores : list score_entry) : gmap Z Decimal.t :=
  foldl (fun m s => <[s_criterion_id s := s_score s]> m) ∅ scores.

(** [{c['id']: c for c in criteria}] (built by the code, never read). *)
Definition build_criteria_map (criteria : list criterion) : gmap Z criterion :=
  foldl (fun m c => <[c_id c := c]> m) ∅ criteria.

(** [normalized_score * (weight / Decimal('100')) * Decimal(str(max_score))] *)
Definition weighted_value_of (score max_pts w : Decimal.t) (max_score : Z)
  : result Decimal.t :=
  let* normalized_score :=
    if Decimal.gtb max_pts d0 then Decimal.truediv score max_pts else Ok d0 in
  let* wfrac := Decimal.truediv w d100 in
  let* p := Decimal.mul normalized_score wfrac in
  Decimal.mul p (Decimal.of_Z max_score).

(** One turn of the loop over [criteria]. *)
Definition step (score_map : gmap Z Decimal.t) (max_score : Z)
    (st : list detail * Decimal.t) (c : criterion)
  : result (list detail * Decimal.t) :=
  let '(weighted_breakdown, weighted_sum) := st in
  let w := weight_of c in
  let max_pts := max_points_of c in
  let score := default d0 (score_map !! c_id c) in
  let* weighted_value := weighted_value_of score max_pts w max_score in
  let* q := quantize2 weighted_value in
  let entry := Detail (c_id c) (default ""%string (c_text c)) score max_pts w q in
  let* weighted_sum := Decimal.add weighted_sum weighted_value in
  Ok (weighted_breakdown ++ [entry], weighted_sum).

Fixpoint loop (score_map : gmap Z Decimal.t) (max_score : Z)
    (criteria : list criterion) (st : list detail * Decimal.t)
  : result (list detail * Decimal.t) :=
  match criteria with
  | [] => Ok st
  | c :: rest =>
      let* st' := step score_map max_score st c in
      loop score_map max_score rest st'
  end.

Definition calculate_weighted_score (scores : list score_entry)
    (criteria : list criterion) (max_score : Z) : result weighted_result :=
  let criteria_map := build_criteria_map criteria in
  let score_map := build_score_map scores in
  let* (weighted_breakdown, weighted_sum) :=
    loop score_map max_score criteria ([], d0) in
  let* final_score := quantize2 weighted_sum in
  Ok (WeightedResult final_score weighted_breakdown max_score).

(** *** distribute_weights_evenly *)

(** [weights[0] += diff]; an empty list has no element 0. *)
Definition add_to_first (weights : list Decimal.t) (diff : Decimal.t)
  : result (list Decimal.t) :=
  match weights with
  | [] => Raise IndexError
  | w0 :: rest => let* w0' := Decimal.add w0 diff in Ok (w0' :: rest)
  end.

(** A list comprehension whose element expression may raise. *)
Fixpoint mapM {A B : Type} (f : A -> result B) (l : list A) : result (list B) :=
  match l with
  | [] => Ok []
  | x :: rest => let* y := f x in let* ys := mapM f rest in Ok (y :: ys)
  end.

Definition distribute_weights_evenly (num_criteria : Z) : result (list Decimal.t) :=
  if num_criteria <=? 0 then Ok []
  else
    let* base_weight := Decimal.truediv d100 (Decimal.of_Z num_criteria) in
    let weights := repeat base_weight (Z.to_nat num_criteria) in
    let* total := Decimal.sum weights in
    let* weights :=
      if negb (Decimal.eqb total d100) then
        let* diff := Decimal.sub d100 total in
        add_to_first weights diff
      else Ok weights in
    mapM quantize2 weights.

(** *** get_weight_suggestions *)

(** [importance_multipliers.get(importance, Decimal('1'))] *)
Definition multiplier_of (importance : string) : Decimal.t :=
  if String.eqb importance "high" then Decimal.of_Z 2
  else if String.eqb importance "medium" then Decimal.of_Z 1
  else if String.eqb importance "low" then Decimal.Dec false 5 (-1)
  else Decimal.of_Z 1.

(** [importance_levels.get(criterion['id'], 'medium')] *)
Definition importance_of (importance_levels : gmap Z string) (c : criterion) : string :=
  default "medium"%string (importance_levels !! c_id c).

Definition total_units_of (importance_levels : gmap Z string)
    (criteria : list criterion) : result Decimal.t :=
  fold_left
    (fun acc c =>
       let* total_units := acc in
       Decimal.add total_units (multiplier_of (importance_of importance_levels c)))
    criteria (Ok d0).

Definition suggested_weight (importance_levels : gmap Z string)
    (total_units : Decimal.t) (c : criterion) : result Decimal.t :=
  let multiplier := multiplier_of (importance_of importance_levels c) in
  let* share := Decimal.truediv multiplier total_units in
  let* w := Decimal.mul share d100 in
  quantize2 w.

(** [not importance_levels]: [None] or an empty dict. *)
Definition falsy (importance_levels : option (gmap Z string)) : bool :=
  match importance_levels with
  | None => true
  | Some m => bool_decide (m = ∅)
  end.

Definition get_weight_suggestions (criteria : list criterion)
    (importance_levels : option (gmap Z string)) : result (list Decimal.t) :=
  if falsy importance_levels then
    distribute_weights_evenly (Z.of_nat (length criteria))
  else
    let levels := default ∅ importance_levels in
    let* total_units := total_units_of levels criteria in
    let* weights := mapM (suggested_weight levels total_units) criteria in
    let* total := Decimal.sum weights in
    if negb (Decimal.eqb total d100) then
      let* diff := Decimal.sub d100 total in
      add_to_first weights diff
    else Ok weights.

End WeightedScoringCalculator.

(** ** The float conversion of the outputs

    [float(d)] of a Decimal [d], as the calculator applies it to the
    quantized total and to each quantized contribution before returning
    them.  The 'percentage' field, computed from the float total by float
    division and [round(percentage, 2)], is not modelled. *)

Module PyFloat.
Import WeightedScoringCalculator.

(** A Python float that is not a NaN: a signed zero, a signed infinity, or
    the number [(-1) ^ s * m * 2 ^ e] with [0 < m < 2 ^ 53] and
    [-1074 <= e <= 971] ([2 ^ 52 <= m] unless [e = -1074]). *)
Inductive t : Type :=
  | Zero (s : bool)
  | Finite (s : bool) (m e : Z)
  | Inf (s : bool).

(** [floor (log2 (N / D))] for positive [N] and [D]. *)
Definition binade (N D : Z) : Z :=
  if D <=? N then Z.log2 (N / D) else - Z.log2_up ((D + N - 1) / N).

(** The double nearest to [(-1) ^ s * N / D] for positive [N] and [D], ties
    going to the even significand; beyond the largest double it is an
    infinity, below half the smallest one a zero. *)
Definition round_ratio (s : bool) (N D : Z) : t :=
  let E := Z.max (binade N D - 52) (-1074) in
  let num := if 0 <=? E then N else N * 2 ^ (- E) in
  let den := if 0 <=? E then D * 2 ^ E else D in
  let q0 := num / den in
  let r := num mod den in
  let q := if 2 * r <? den then q0
           else if den <? 2 * r then q0 + 1
           else if Z.even q0 then q0 else q0 + 1 in
  let m := if q =? 2 ^ 53 then 2 ^ 52 else q in
  let e := if q =? 2 ^ 53 then E + 1 else E in
  if m =? 0 then Zero s
  else if 971 <? e then Inf s
  else Finite s m e.

(** [float(d)] for a Decimal [d]: the string of [d] read back as a
    double, correctly rounded. *)
Definition of_decimal (d : Decimal.t) : t :=
  if Decimal.coef d =? 0 then Zero (Decimal.dsign d)
  else if 0 <=? Decimal.dexp d
       then round_ratio (Decimal.dsign d) (Decimal.coef d * 10 ^ Decimal.dexp d) 1
       else round_ratio (Decimal.dsign d) (Decimal.coef d) (10 ^ (- Decimal.dexp d)).


(** [final_score = float(weighted_sum.quantize(...))]: the float the
    caller receives under the key 'weighted_total'. *)
Definition final_score (r : weighted_result) : t := of_decimal (weighted_total r).

(** ['weighted_score': float(weighted_value.quantize(...))] *)
Definition weighted_score_float (d : detail) : t := of_decimal (weighted_score d).

End PyFloat.

(** ** The anonymisation filter ([anonymity.py])

    Evaluation records and reports are JSON-like Python objects.  Dicts and
    lists are mutable and shared by reference, so they live in a store and a
    value holds their address; [dict.copy()] and [list.copy()] allocate a new
    object with the same (shared) members.  Dict keys are strings. *)

Module Anonymity.

Local Open Scope nat_scope.
Local Open Scope string_scope.

Inductive value : Type :=
  | VNone
  | VBool (b : bool)
  | VInt (z : Z)
  | VStr (s : string)
  | VRef (l : nat).

Inductive obj : Type :=
  | ODict (d : gmap string value)
  | OList (xs : list value).

(** The store: the object at address [l] is [h !! l]; a new object takes
    the next free address. *)
Abbreviation heap := (list obj).

Definition alloc (h : heap) (o : obj) : value * heap := (VRef (length h), (h ++ [o])%list).

#[export] Instance value_eq_dec : EqDecision value.
Proof. solve_decision. Defined.

(** *** Who may see evaluator identities *)

(** [str.lower()] on the characters that can matter: the ASCII capitals.
    No character outside ASCII lowers to a plain ASCII letter of
    "instructor" or "admin", so leaving the other bytes alone does not
    change membership in [privileged_roles]. *)
Definition lower_ascii (c : ascii) : ascii :=
  let n := nat_of_ascii c in
  if (65 <=? n)%nat && (n <=? 90)%nat then ascii_of_nat (n + 32) else c.

Fixpoint lower (s : string) : string :=
  match s with
  | EmptyString => EmptyString
  | String c rest => String (lower_ascii c) (lower rest)
  end.

Definition privileged_roles : list string := ["instructor"; "admin"].

(** [requester_role and requester_role.lower() in privileged_roles],
    as a truth value. *)
Definition _can_view_evaluator_identity (requester_role : option string) : bool :=
  match requester_role with
  | None => false
  | Some r =>
      if String.eqb r "" then false
      else bool_decide (lower r ∈ privileged_roles)
  end.

Definition should_anonymize_for_user (requester_role : option string) : bool :=
  negb (_can_view_evaluator_identity requester_role).

(** *** Python operations on stored objects *)

(** [v.copy()] *)
Definition py_copy (h : heap) (v : value) : result (value * heap) :=
  match v with
  | VRef l =>
      match h !! l with
      | Some o => Ok (alloc h o)
      | None => Raise AttributeError
      end
  | _ => Raise AttributeError
  end.

(** [sub in s] for strings. *)
Fixpoint is_substring (sub s : string) : bool :=
  if String.prefix sub s then true
  else match s with
       | EmptyString => false
       | String _ rest => is_substring sub rest
       end.

(** [key in v] *)
Definition py_contains (h : heap) (v : value) (key : string) : result bool :=
  match v with
  | VRef l =>
      match h !! l with
      | Some (ODict d) => Ok (bool_decide (is_Some (d !! key)))
      | Some (OList xs) => Ok (bool_decide (VStr key ∈ xs))
      | None => Raise TypeError
      end
  | VStr s => Ok (is_substring key s)
  | _ => Raise TypeError
  end.

(** [v[key]] *)
Definition py_getitem (h : heap) (v : value) (key : string) : result value :=
  match v with
  | VRef l =>
      match h !! l with
      | Some (ODict d) =>
          match d !! key with
          | Some x => Ok x
          | None => Raise KeyError
          end
      | _ => Raise TypeError
      end
  | _ => Raise TypeError
  end.

(** [v[key] = x] *)
Definition py_setitem (h : heap) (v : value) (key : string) (x : value) : result heap :=
  match v with
  | VRef l =>
      match h !! l with
      | Some (ODict d) => Ok (<[l := ODict (<[key := x]> d)]> h)
      | _ => Raise TypeError
      end
  | _ => Raise TypeError
  end.

Fixpoint chars (s : string) : list value :=
  match s with
  | EmptyString => []
  | String c rest => VStr (String c EmptyString) :: chars rest
  end.

(** The elements [for x in v] visits. *)
Definition py_iter (h : heap) (v : value) : result (list value) :=
  match v with
  | VRef l =>
      match h !! l with
      | Some (OList xs) => Ok xs
      | Some (ODict d) => Ok (VStr <$> (map_to_list d).*1)
      | None => Raise TypeError
      end
  | VStr s => Ok (chars s)
  | _ => Raise TypeError
  end.

(** *** anonymize_evaluator *)

Definition sentinel : gmap string value :=
  <["id" := VStr "anonymous"]>
    (<["name" := VStr "Anonymous"]>
       (<["email" := VStr "anonymous@hidden.com"]> ∅)).

Definition anonymize_evaluator (evaluation : value) (requester_role : option string)
    (h : heap) : result (value * heap) :=
  let* (result, h) := py_copy h evaluation in
  let can_view_evaluator := _can_view_evaluator_identity requester_role in
  if negb can_view_evaluator then
    let* has_evaluator := py_contains h result "evaluator" in
    let* h :=
      if has_evaluator then
        let '(s, h) := alloc h (ODict sentinel) in
        py_setitem h result "evaluator" s
      else Ok h in
    let* has_id := py_contains h result "evaluator_id" in
    let* h :=
      if has_id then py_setitem h result "evaluator_id_hidden" (VBool true)
      else Ok h in
    Ok (result, h)
  else Ok (result, h).

(** *** anonymize_evaluation_list *)

Fixpoint anonymize_each (evaluations : list value) (requester_role : option string)
    (h : heap) : result (list value * heap) :=
  match evaluations with
  | [] => Ok ([], h)
  | evaluation :: rest =>
      let* (r, h) := anonymize_evaluator evaluation requester_role h in
      let* (rs, h) := anonymize_each rest requester_role h in
      Ok (r :: rs, h)
  end.

Definition anonymize_evaluation_list (evaluations : value)
    (requester_role : option string) (h : heap) : result (value * heap) :=
  let* xs := py_iter h evaluations in
  let* (rs, h) := anonymize_each xs requester_role h in
  Ok (alloc h (OList rs)).

(** *** anonymize_report_data *)

(** [if key in d: d[key] = anonymize_evaluation_list(d[key], ...)] *)
Definition anonymize_key (d : value) (key : string) (requester_role : option string)
    (h : heap) : result heap :=
  let* present := py_contains h d key in
  if present then
    let* evs := py_getitem h d key in
    let* (r, h) := anonymize_evaluation_list evs requester_role h in
    py_setitem h d key r
  else Ok h.

(** [for member_data in members: if "evaluations" in member_data: ...]
    over the elements the iteration yields. *)
Fixpoint anonymize_members (members : list value) (requester_role : option string)
    (h : heap) : result heap :=
  match members with
  | [] => Ok h
  | member_data :: rest =>
      let* h := anonymize_key member_data "evaluations" requester_role h in
      anonymize_members rest requester_role h
  end.

(** [if "members" in d: for member_data in d["members"]: ...] *)
Definition anonymize_members_of (d : value) (requester_role : option string)
    (h : heap) : result heap :=
  let* present := py_contains h d "members" in
  if present then
    let* ms := py_getitem h d "members" in
    let* xs := py_iter h ms in
    anonymize_members xs requester_role h
  else Ok h.

Fixpoint anonymize_teams (teams : list value) (requester_role : option string)
    (h : heap) : result heap :=
  match teams with
  | [] => Ok h
  | team_data :: rest =>
      let* h := anonymize_members_of team_data requester_role h in
      anonymize_teams rest requester_role h
  end.

Definition anonymize_report_data (report_data : value) (requester_role : option string)
    (h : heap) : result (value * heap) :=
  let* (result, h) := py_copy h report_data in
  let can_view_evaluator := _can_view_evaluator_identity requester_role in
  let* h := anonymize_key result "evaluations" requester_role h in
  let* h := anonymize_key result "detailed_evaluations" requester_role h in
  let* h := anonymize_members_of result requester_role h in
  let* present := py_contains h result "teams" in
  let* h :=
    if present then
      let* ts := py_getitem h result "teams" in
      let* xs := py_iter h ts in
      anonymize_teams xs requester_role h
    else Ok h in
  Ok (result, h).

End Anonymity.

(** ** Reading stored objects

    [py_path h v path] follows subscripts from [v], as the expression
    [v["members"][0]["evaluations"]] does; it is how the properties below
    look at records and reports. *)

Module Observe.
Import Anonymity.

Inductive key : Type :=
  | KStr (s : string)
  | KIdx (i : nat).

Definition py_index (h : heap) (v : value) (k : key) : option value :=
  match v with
  | VRef l =>
      match h !! l, k with
      | Some (ODict d), KStr s => d !! s
      | Some (OList xs), KIdx i => xs !! i
      | _, _ => None
      end
  | _ => None
  end.

Fixpoint py_path (h : heap) (v : value) (path : list key) : option value :=
  match path with
  | [] => Some v
  | k :: rest =>
      match py_index h v k with
      | Some v' => py_path h v' rest
      | None => None
      end
  end.

(** The role is not, ignoring case, "instructor" or "admin". *)
Definition unprivileged (requester_role : option string) : Prop :=
  forall r, requester_role = Some r ->
    lower r <> "instructor"%string /\ lower r <> "admin"%string.

(** [lst] is a list stored in [h] between the addresses [lo] and [hi]
    whose records, stored there too, have nothing but the sentinel under
    "evaluator". *)
Definition anonymous_records (h : heap) (lo hi : nat) (lst : value) : Prop :=
  exists (al : nat) (rs : list value),
    lst = VRef al /\ (lo <= al < hi)%nat /\ h !! al = Some (OList rs)
    /\ forall i x, rs !! i = Some x ->
         exists b, x = VRef b /\ (lo <= b < hi)%nat
           /\ forall d', h !! b = Some (ODict d') ->
              forall y, d' !! "evaluator"%string = Some y ->
              exists s, y = VRef s /\ (lo <= s < hi)%nat
                        /\ h !! s = Some (ODict sentinel).

(** The dictionary at [b], if it has "evaluations", has anonymous records
    there, allocated at or after [lo]. *)
Definition clean (h : heap) (lo b : nat) : Prop :=
  forall dm lst, h !! b = Some (ODict dm) -> dm !! "evaluations"%string = Some lst ->
    anonymous_records h lo (length h) lst.

(** What a loop of the report walker may do to the objects stored below
    [lo]: lists stay as they are, dictionaries change at "evaluations"
    only, and clean dictionaries stay clean; what was allocated since [lo]
    is kept. *)
Definition stable (lo : nat) (hs he : heap) : Prop :=
  (length hs <= length he)%nat
  /\ (forall i, (lo <= i < length hs)%nat -> he !! i = hs !! i)
  /\ (forall i xs, (i < lo)%nat -> hs !! i = Some (OList xs) -> he !! i = Some (OList xs))
  /\ (forall i dm, (i < lo)%nat -> hs !! i = Some (ODict dm) ->
        exists dm', he !! i = Some (ODict dm')
                    /\ forall k, k <> "evaluations"%string -> dm' !! k = dm !! k)
  /\ (forall b, (b < lo)%nat -> clean hs lo b -> clean he lo b).

End Observe.

(** ** The callers' own role check

    The two expressions the endpoints compute for the "anonymized" field
    of a response.  The first one ends in [else True]: list_evaluations
    and get_evaluation of [evaluations.py] (lines 108 and 371) and the
    four report endpoints of [reports.py] (lines 98, 138, 242 and 325).
    The second one ends in [else False]: the two analytics endpoints of
    [reports.py] (lines 716 and 822), which still pass a missing role to
    anonymize_report_data. *)

Module Callers.
Import Anonymity.

(** [requester_role not in ["instructor", "admin"] if requester_role else True] *)
Definition anonymized_flag (requester_role : option string) : bool :=
  match requester_role with
  | None => true
  | Some r =>
      if String.eqb r "" then true
      else negb (bool_decide (r ∈ ["instructor"%string; "admin"%string]))
  end.

(** [requester_role not in ["instructor", "admin"] if requester_role else False] *)
Definition analytics_anonymized_flag (requester_role : option string) : bool :=
  match requester_role with
  | None => false
  | Some r =>
      if String.eqb r "" then false
      else negb (bool_decide (r ∈ ["instructor"%string; "admin"%string]))
  end.

(** [anonymize_report_data(analytics, requester_role=requester_role)
     if requester_role not in ["instructor", "admin"] else analytics]:
    whether the analytics endpoints send their data through the filter. *)
Definition analytics_filters (requester_role : option string) : bool :=
  match requester_role with
  | None => true
  | Some r => negb (bool_decide (r ∈ ["instructor"%string; "admin"%string]))
  end.

End Callers.

(** ** A stored team report, used to observe aliasing *)

Module Fixtures.
Import Anonymity Observe.
Local Open Scope string_scope.

(** The team report
    [{"members": [{"evaluations": [{"evaluator_id": 123,
                                    "evaluator": {"name": "John Doe"}}]}]}]
    with the report dict at address 5, its list of members at 4, the
    member dict at 3, its list of evaluations at 2, the evaluation at 1 and
    the evaluator at 0. *)
Definition team_report_heap : heap :=
  [ ODict (<["name" := VStr "John Doe"]> ∅);
    ODict (<["evaluator" := VRef 0]> (<["evaluator_id" := VInt 123]> ∅));
    OList [VRef 1];
    ODict (<["evaluations" := VRef 2]> ∅);
    OList [VRef 3];
    ODict (<["members" := VRef 4]> ∅) ].

(** [report["members"][0]["evaluations"][0]["evaluator"]["name"]] *)
Definition evaluator_name_path : list key :=
  [KStr "members"; KIdx 0; KStr "evaluations"; KIdx 0; KStr "evaluator"; KStr "name"].

(** The project report [{"teams": [team]}] around the same team: the
    list of teams at address 6 and the report at 7. *)
Definition project_report_heap : heap :=
  (team_report_heap ++ [OList [VRef 5]; ODict (<["teams" := VRef 6]> ∅)])%list.

End Fixtures.

(** ** Sample criteria for the weight helpers *)

Module Samples.
Import WeightedScoringCalculator.

(** [{'id': i}] *)
Definition bare (i : Z) : criterion := Criterion i None None None.

Definition three_criteria : list criterion := [bare 1; bare 2; bare 3].

(** [{1: 'medium', 2: 'medium', 3: 'medium'}] *)
Definition all_medium : gmap Z string :=
  <[1 := "medium"%string]> (<[2 := "medium"%string]> (<[3 := "medium"%string]> ∅)).

(** [Decimal('33.33')], [Decimal('33.34')], [Decimal('99.99')] *)
Definition d33_33 : Decimal.t := Decimal.Dec false 3333 (-2).
Definition d33_34 : Decimal.t := Decimal.Dec false 3334 (-2).
Definition d99_99 : Decimal.t := Decimal.Dec false 9999 (-2).

(** [{'id': i, 'weight': w}] *)
Definition weighted (i : Z) (w : Decimal.t) : criterion :=
  Criterion i (Some w) None None.

(** Weights 50.01, 50 and 1E-300: their exact sum is 100.01 + 1E-300. *)
Definition off_by_a_hair : list criterion :=
  [weighted 1 (Decimal.Dec false 5001 (-2));
   weighted 2 (Decimal.of_Z 50);
   weighted 3 (Decimal.Dec false 1 (-300))].


(** Weights 33.34, 33.33 and 33.33 with 10, 5 and 20 points. *)
Definition thirds : list criterion :=
  [Criterion 1 (Some d33_34) (Some (Decimal.of_Z 10)) None;
   Criterion 2 (Some d33_33) (Some (Decimal.of_Z 5)) None;
   Criterion 3 (Some d33_33) (Some (Decimal.of_Z 20)) None].



(** [[{'id': 1, 'weight': -50, 'max_points': 10}]] *)
Definition negative_weight : list criterion :=
  [Criterion 1 (Some (Decimal.of_Z (-50))) (Some (Decimal.of_Z 10)) None].

(** [[{'id': 1, 'weight': 100, 'max_points': 10}]] *)
Definition out_of_ten : list criterion :=
  [Criterion 1 (Some d100) (Some (Decimal.of_Z 10)) None].

End Samples.

(** ** Reference definitions the properties are stated against *)

Module Reference.
Import WeightedScoringCalculator.

(** The score of the last entry listed for criterion [cid], if any. *)
Fixpoint last_score (cid : Z) (scores : list score_entry) : option Decimal.t :=
  match scores with
  | [] => None
  | s :: rest =>
      match last_score cid rest with
      | Some x => Some x
      | None => if s_criterion_id s =? cid then Some (s_score s) else None
      end
  end.

(** The raw score a criterion is graded with: its last listed score, or
    0 when none is listed. *)
Definition raw_score_for (scores : list score_entry) (c : criterion) : Decimal.t :=
  default d0 (last_score (c_id c) scores).

(** Round-half-up to two decimal places, as the arithmetic rule
    [floor (|v| * 100 + 1/2)] on the exact value [c * 10 ^ e]. *)
Definition half_up_cents (c e : Z) : Z :=
  if -2 <=? e then c * 10 ^ (e + 2)
  else (2 * c + 10 ^ (- 2 - e)) / (2 * 10 ^ (- 2 - e)).

(** Round-half-even (banker's rounding) to two decimal places: the
    candidate [floor (|v| * 100 + 1/2)], lowered by one on a tie with an
    odd candidate. *)
Definition half_even_cents (c e : Z) : Z :=
  if -2 <=? e then c * 10 ^ (e + 2)
  else
    let p := 10 ^ (- 2 - e) in
    let q := (2 * c + p) / (2 * p) in
    if ((2 * c + p) mod (2 * p) =? 0) && Z.odd q then q - 1 else q.

Definition round2 (d : Decimal.t) : Decimal.t :=
  Decimal.mk (Decimal.dsign d)
    (half_up_cents (Decimal.coef d) (Decimal.dexp d)) (-2).

(** The weighted value of one criterion, and the running total, from
    the raw scores of [raw_score_for]. *)
Definition weighted_value_for (scores : list score_entry) (max_score : Z)
    (c : criterion) : result Decimal.t :=
  weighted_value_of (raw_score_for scores c) (max_points_of c) (weight_of c) max_score.

Fixpoint add_all (acc : Decimal.t) (values : list Decimal.t) : result Decimal.t :=
  match values with
  | [] => Ok acc
  | v :: rest => let* acc' := Decimal.add acc v in add_all acc' rest
  end.

(** [0 <= weight <= 100], compared exactly. *)
Definition weight_in_range (c : criterion) : bool :=
  Decimal.leb d0 (weight_of c) && Decimal.leb (weight_of c) d100.

(** [|total - 100| <= 0.01], compared exactly: [99.99 <= total <= 100.01]. *)
Definition within_tolerance (total : Decimal.t) : bool :=
  Decimal.leb (Decimal.Dec false 9999 (-2)) total
  && Decimal.leb total (Decimal.Dec false 10001 (-2)).

(** Sums without rounding: a pair (signed coefficient, exponent) of
    unbounded size. *)
Definition exact_add (x y : Z * Z) : Z * Z :=
  let e := Z.min (snd x) (snd y) in
  (fst x * 10 ^ (snd x - e) + fst y * 10 ^ (snd y - e), e).

Definition exact_sum (ws : list Decimal.t) : Z * Z :=
  fold_left (fun acc w => exact_add acc (Decimal.signed w, Decimal.dexp w)) ws (0, 0).

(** [|x - 100| <= 0.01] for an exact sum [x]. *)
Definition exact_within_tolerance (x : Z * Z) : bool :=
  let e := Z.min (snd x) (-2) in
  Z.abs (fst x * 10 ^ (snd x - e) - 100 * 10 ^ (- e)) <=? 10 ^ (- 2 - e).

(** A weight in units of [10 ^ (- k)]: the integer [weight * 10 ^ k] of a
    weight with at most [k] decimal places. *)
Definition weight_units (k : Z) (c : criterion) : Z :=
  Decimal.signed (weight_of c) * 10 ^ (Decimal.dexp (weight_of c) + k).

Definition total_units (k : Z) (criteria : list criterion) : Z :=
  foldr (fun c acc => weight_units k c + acc) 0 criteria.

(** An importance multiplier in tenths: 20, 10 or 5. *)
Definition multiplier_tenths (importance : string) : Z :=
  Decimal.signed (multiplier_of importance)
  * 10 ^ (Decimal.dexp (multiplier_of importance) + 1).

Definition total_tenths (importance_levels : gmap Z string)
    (criteria : list criterion) : Z :=
  foldr (fun c acc => multiplier_tenths (importance_of importance_levels c) + acc)
    0 criteria.

(** The sum of the signed coefficients of a list of Decimals: their sum
    in hundredths when each has exponent -2. *)
Definition cents_total (ws : list Decimal.t) : Z :=
  foldr (fun w acc => Decimal.signed w + acc) 0 ws.

End Reference.

(** ** The value of a Decimal and correct rounding

    [to_R d] is the real number a Decimal stands for.  The context rounds
    an exact result [x] to the nearest multiple of [10 ^ grid_exp A], where
    [A] is the decade of [x] (28 significant digits, or the subnormal grid
    [10 ^ Etiny]), ties going to the even coefficient. *)

Module DecimalValue.
Import Decimal.
Local Open Scope R_scope.

Definition p10 (e : Z) : R := powerRZ 10 e.

Definition to_R (d : t) : R := IZR (signed d) * p10 (dexp d).

Definition decade (x : R) (A : Z) : Prop := p10 A <= Rabs x < p10 (A + 1).

Definition grid_exp (A : Z) : Z := Z.max (A + 1 - prec) Etiny.

Definition correctly_rounded (x r : R) : Prop :=
  (x = 0 /\ r = 0)
  \/ exists (A j : Z),
       decade x A
       /\ r = IZR j * p10 (grid_exp A)
       /\ Rabs (x - r) <= p10 (grid_exp A) / 2
       /\ (Rabs (x - r) = p10 (grid_exp A) / 2 -> Z.even j = true).

(** A real that a Decimal of the context represents without rounding. *)
Definition representable (x : R) : Prop :=
  exists (j e : Z), x = IZR j * p10 e /\ (Z.abs j < 10 ^ prec)%Z /\ (Etiny <= e)%Z.

(** What [_fix] returns: at most 28 digits, exponent within the context's
    range. *)
Definition fixed (d : t) : Prop :=
  (coef d < 10 ^ prec)%Z
  /\ (Etiny <= dexp d)%Z
  /\ (ndigits (coef d) + dexp d - prec <= Etop)%Z.

(** Rounding to a multiple of [10 ^ g], ties away from zero. *)
Definition rounded_half_up (g : Z) (x r : R) : Prop :=
  exists j : Z,
    r = IZR j * p10 g
    /\ Rabs (x - r) <= p10 g / 2
    /\ (Rabs (x - r) = p10 g / 2 -> Rabs x < Rabs r).

End DecimalValue.

(** ** Rounded coefficients

    The coefficient that is left when [c] loses its last [k] digits under
    each of the two rounding modes the calculator uses. *)

Module Rounded.
Import Decimal.

Definition half_even (c k : Z) : Z :=
  c / 10 ^ k + (if 0 <? round_half_even c k then 1 else 0).

Definition half_up (c k : Z) : Z :=
  c / 10 ^ k + (if round_half_up c k =? 1 then 1 else 0).

End Rounded.

(** ** The integer quotient of [__truediv__]

    [div_num a b / div_den a b] is the quotient of the coefficients scaled
    by [10 ^ div_shift a b], so that its integer part has 29 or 30 digits. *)

Module Quotient.
Import Decimal.

Definition div_shift (a b : t) : Z := ndigits (coef b) - ndigits (coef a) + prec + 1.

Definition div_num (a b : t) : Z :=
  if 0 <=? div_shift a b then coef a * 10 ^ div_shift a b else coef a.

Definition div_den (a b : t) : Z :=
  if 0 <=? div_shift a b then coef b else coef b * 10 ^ (- div_shift a b).

Definition div_exp (a b : t) : Z := dexp a - dexp b - div_shift a b.

Definition sticky (coeff : Z) : Z := if coeff mod 5 =? 0 then coeff + 1 else coeff.

End Quotient.

(** ** The calculator's arithmetic, operation by operation

    The contribution of a criterion and the running total in terms of real
    numbers.  The context rounds every quotient, product and sum to 28
    significant digits, ties to even, before the next operation reads it;
    [exact_weighted_value] is the same formula without any rounding. *)

Module ContextArithmetic.
Import DecimalValue.
Local Open Scope R_scope.

Definition context_weighted_value (score max_pts w : R) (max_score : Z) (v : R) : Prop :=
  exists n wf p : R,
    (0 < max_pts -> correctly_rounded (score / max_pts) n)
    /\ (max_pts <= 0 -> n = 0)
    /\ correctly_rounded (w / 100) wf
    /\ correctly_rounded (n * wf) p
    /\ correctly_rounded (p * IZR max_score) v.

Fixpoint context_sum (acc : R) (values : list R) (total : R) : Prop :=
  match values with
  | [] => total = acc
  | v :: rest =>
      exists acc' : R, correctly_rounded (acc + v) acc' /\ context_sum acc' rest total
  end.

Definition exact_weighted_value (score max_pts w : R) (max_score : Z) : R :=
  score / max_pts * (w / 100) * IZR max_score.

End ContextArithmetic.

(** * Properties *)

Section AnonymizeEvaluator.
Import Anonymity Observe.
Local Open Scope string_scope.

Lemma unprivileged_cannot_view role :
  unprivileged role -> _can_view_evaluator_identity role = false.
Proof.
  intros Hu. destruct role as [r|]; [|reflexivity].
  destruct (Hu r eq_refl) as [Hi Ha]. unfold _can_view_evaluator_identity.
  destruct (String.eqb r ""); [reflexivity|].
  apply bool_decide_eq_false. unfold privileged_roles.
  rewrite !elem_of_cons, elem_of_nil. tauto.
Qed.

Lemma cannot_view_unprivileged role :
  _can_view_evaluator_identity role = false -> unprivileged role.
Proof.
  intros Hc r Hr. subst role. unfold _can_view_evaluator_identity in Hc.
  destruct (String.eqb_spec r "") as [Hr|Hne].
  - rewrite Hr. split; discriminate.
  - apply bool_decide_eq_false in Hc. unfold privileged_roles in Hc.
    rewrite !elem_of_cons, elem_of_nil in Hc. tauto.
Qed.

Lemma lookup_alloc_old (h : heap) (o : obj) (i : nat) :
  (i < length h)%nat -> ((h ++ [o])%list) !! i = h !! i.
Proof. intros Hi. by apply lookup_app_l. Qed.

Lemma lookup_alloc_new (h : heap) (o : obj) :
  ((h ++ [o])%list) !! length h = Some o.
Proof. rewrite lookup_app_r by lia. by rewrite Nat.sub_diag. Qed.

End AnonymizeEvaluator.

Section AnonymizeEvaluator2.
Import Anonymity Observe.
Local Open Scope string_scope.

(** C1 (amended): for a role that may not see identities, the copy carries
    the sentinel under "evaluator" exactly when the record has such a key,
    and the marker "evaluator_id_hidden" = True exactly when the record has
    an "evaluator_id" key; "evaluator_id" and all other fields are the
    record's own, and no stored object is modified. *)
Theorem anonymize_evaluator_unprivileged
    (h : heap) (l : nat) (d : gmap string value) (role : option string) :
  h !! l = Some (ODict d) ->
  unprivileged role ->
  exists (r : nat) (h' : heap) (d' : gmap string value),
    anonymize_evaluator (VRef l) role h = Ok (VRef r, h')
    /\ h' !! r = Some (ODict d')
    /\ (is_Some (d !! "evaluator") ->
        exists s, d' !! "evaluator" = Some (VRef s)
                  /\ h' !! s = Some (ODict sentinel))
    /\ (d !! "evaluator" = None -> d' !! "evaluator" = None)
    /\ (is_Some (d !! "evaluator_id") ->
        d' !! "evaluator_id_hidden" = Some (VBool true))
    /\ (d !! "evaluator_id" = None ->
        d' !! "evaluator_id_hidden" = d !! "evaluator_id_hidden")
    /\ d' !! "evaluator_id" = d !! "evaluator_id"
    /\ (forall k, k <> "evaluator" -> k <> "evaluator_id_hidden" -> d' !! k = d !! k)
    /\ (forall i, (i < length h)%nat -> h' !! i = h !! i).
Proof.
  intros Hl Hu. apply unprivileged_cannot_view in Hu.
  set (h1 := (h ++ [ODict d])%list).
  assert (Hr1 : h1 !! length h = Some (ODict d)) by apply lookup_alloc_new.
  assert (Hlen1 : length h1 = S (length h)).
  { unfold h1. rewrite length_app. simpl. lia. }
  assert (Hold1 : forall i, (i < length h)%nat -> h1 !! i = h !! i).
  { intros i Hi. by apply lookup_alloc_old. }
  set (h2 := (h1 ++ [ODict sentinel])%list).
  set (d2 := <["evaluator" := VRef (length h1)]> d).
  set (h3 := <[length h := ODict d2]> h2).
  assert (Hr2 : h2 !! length h = Some (ODict d)).
  { unfold h2. rewrite lookup_app_l; [done|]. lia. }
  assert (Hlen2 : length h2 = S (S (length h))).
  { unfold h2. rewrite length_app. simpl. lia. }
  assert (Hr3 : h3 !! length h = Some (ODict d2)).
  { unfold h3. apply list_lookup_insert_eq. lia. }
  assert (Hs3 : h3 !! length h1 = Some (ODict sentinel)).
  { unfold h3. rewrite list_lookup_insert_ne by lia. unfold h2. apply lookup_alloc_new. }
  assert (Hold3 : forall i, (i < length h)%nat -> h3 !! i = h !! i).
  { intros i Hi. unfold h3. rewrite list_lookup_insert_ne by lia.
    unfold h2. rewrite lookup_app_l by lia. by apply Hold1. }
  assert (Hid2 : d2 !! "evaluator_id" = d !! "evaluator_id").
  { unfold d2. by rewrite lookup_insert_ne. }
  assert (Hstart : anonymize_evaluator (VRef l) role h =
    let* has_evaluator := py_contains h1 (VRef (length h)) "evaluator" in
    let* h0 := (if has_evaluator
                then py_setitem h2 (VRef (length h)) "evaluator" (VRef (length h1))
                else Ok h1) in
    let* has_id := py_contains h0 (VRef (length h)) "evaluator_id" in
    let* h4 := (if has_id
                then py_setitem h0 (VRef (length h)) "evaluator_id_hidden" (VBool true)
                else Ok h0) in
    Ok (VRef (length h), h4)).
  { unfold anonymize_evaluator, py_copy. rewrite Hl. cbn [rbind alloc].
    rewrite Hu. reflexivity. }
  rewrite Hstart. clear Hstart.
  unfold py_contains at 1. rewrite Hr1. cbn [rbind].
  destruct (d !! "evaluator") as [ev|] eqn:Hev.
  - rewrite bool_decide_eq_true_2 by eauto.
    unfold py_setitem at 1. rewrite Hr2. cbn [rbind]. fold d2. fold h3.
    unfold py_contains. rewrite Hr3. cbn [rbind]. rewrite Hid2.
    destruct (d !! "evaluator_id") as [x|] eqn:Hid.
    + rewrite bool_decide_eq_true_2 by eauto.
      unfold py_setitem. rewrite Hr3. cbn [rbind].
      eexists _, _, _. split; [reflexivity|].
      split; [apply list_lookup_insert_eq; unfold h3; rewrite length_insert; lia|].
      split; [intros _; exists (length h1); split;
              [rewrite lookup_insert_ne by done; unfold d2; apply lookup_insert_eq
              |rewrite list_lookup_insert_ne by lia; exact Hs3]|].
      split; [intros; discriminate|].
      split; [intros _; apply lookup_insert_eq|].
      split; [intros; discriminate|].
      split; [rewrite lookup_insert_ne by done; rewrite Hid2; done|].
      split; [intros k Hk1 Hk2; rewrite lookup_insert_ne by done; unfold d2;
              by rewrite lookup_insert_ne|].
      intros i Hi. rewrite list_lookup_insert_ne by lia. by apply Hold3.
    + rewrite bool_decide_eq_false_2 by (intros [? ?]; discriminate).
      cbn [rbind].
      eexists _, _, _. split; [reflexivity|].
      split; [exact Hr3|].
      split; [intros _; exists (length h1); split; [apply lookup_insert_eq|exact Hs3]|].
      split; [intros; discriminate|].
      split; [intros [? ?]; discriminate|].
      split; [intros _; unfold d2; by rewrite lookup_insert_ne|].
      split; [rewrite Hid2; done|].
      split; [intros k Hk1 Hk2; unfold d2; by rewrite lookup_insert_ne|].
      exact Hold3.
  - rewrite bool_decide_eq_false_2 by (intros [? ?]; discriminate). cbn [rbind].
    unfold py_contains. rewrite Hr1. cbn [rbind].
    destruct (d !! "evaluator_id") as [x|] eqn:Hid.
    + rewrite bool_decide_eq_true_2 by eauto.
      unfold py_setitem. rewrite Hr1. cbn [rbind].
      eexists _, _, _. split; [reflexivity|].
      split; [apply list_lookup_insert_eq; lia|].
      split; [intros [? ?]; discriminate|].
      split; [intros _; by rewrite lookup_insert_ne|].
      split; [intros _; apply lookup_insert_eq|].
      split; [intros; discriminate|].
      split; [by rewrite lookup_insert_ne|].
      split; [intros k Hk1 Hk2; by rewrite lookup_insert_ne|].
      intros i Hi. rewrite list_lookup_insert_ne by lia. by apply Hold1.
    + rewrite bool_decide_eq_false_2 by (intros [? ?]; discriminate). cbn [rbind].
      eexists _, _, _. split; [reflexivity|].
      split; [exact Hr1|].
      split; [intros [? ?]; discriminate|].
      split; [done|]. split; [intros [? ?]; discriminate|].
      split; [done|]. split; [done|]. split; [done|]. exact Hold1.
Qed.

End AnonymizeEvaluator2.

Section AnonymizeEvaluatorExamples.
Import Anonymity Observe.
Local Open Scope string_scope.

Lemma student_unprivileged : unprivileged (Some "student").
Proof. intros r [= <-]. split; discriminate. Defined.

(** C1, witness: a record with "evaluator_id" and no "evaluator". *)
Lemma anonymize_evaluator_unprivileged_witness :
  exists (r : nat) (h' : heap) (d' : gmap string value),
    anonymize_evaluator (VRef 0) (Some "student")
      [ODict (<["evaluator_id" := VInt 123]> ∅)] = Ok (VRef r, h')
    /\ h' !! r = Some (ODict d')
    /\ d' !! "evaluator_id_hidden" = Some (VBool true).
Proof.
  destruct (anonymize_evaluator_unprivileged
              [ODict (<["evaluator_id" := VInt 123]> ∅)] 0
              (<["evaluator_id" := VInt 123]> ∅) (Some "student"))
    as (r & h' & d' & H1 & H2 & _ & _ & H5 & _).
  - reflexivity.
  - exact student_unprivileged.
  - exists r, h', d'. split; [exact H1|]. split; [exact H2|].
    apply H5. exists (VInt 123). reflexivity.
Defined.

(** C1, as stated, fails on the record [{"evaluator": {"name": "Alice"}}]
    read by a student: the copy has the sentinel but no
    "evaluator_id_hidden" marker, since the record has no "evaluator_id". *)
Lemma anonymize_evaluator_marker_absent :
  unprivileged (Some "student") /\
  ~ exists (r : nat) (h' : heap) (d' : gmap string value),
      anonymize_evaluator (VRef 1) (Some "student")
        [ODict (<["name" := VStr "Alice"]> ∅);
         ODict (<["evaluator" := VRef 0]> ∅)] = Ok (VRef r, h')
      /\ h' !! r = Some (ODict d')
      /\ d' !! "evaluator_id_hidden" = Some (VBool true).
Proof.
  split; [exact student_unprivileged|].
  intros (r & h' & d' & H1 & H2 & H3).
  vm_compute in H1. injection H1 as <- <-.
  vm_compute in H2. injection H2 as <-.
  vm_compute in H3. discriminate.
Qed.

End AnonymizeEvaluatorExamples.

(** ** The report walker writes into the caller's nested dictionaries *)

Section ReportAliasing.
Import Anonymity Observe Fixtures.
Local Open Scope string_scope.

(** C7 fails on [anonymize_report_data]: read through the caller's own
    report object (address 5), the evaluator's name is "John Doe" before
    the call and "Anonymous" after it; the member dictionary at address 3
    was overwritten in place. *)
Lemma anonymize_report_data_mutates_input :
  exists (r : value) (h' : heap),
    anonymize_report_data (VRef 5) (Some "student") team_report_heap = Ok (r, h')
    /\ py_path team_report_heap (VRef 5) evaluator_name_path = Some (VStr "John Doe")
    /\ py_path h' (VRef 5) evaluator_name_path = Some (VStr "Anonymous")
    /\ h' !! 3%nat <> team_report_heap !! 3%nat.
Proof.
  eexists _, _. split; [vm_compute; reflexivity|].
  split; [vm_compute; reflexivity|].
  split; [vm_compute; reflexivity|].
  vm_compute. discriminate.
Qed.

End ReportAliasing.

(** ** Even distribution, suggestions and their residual correction *)

Section WeightHelpers.
Import WeightedScoringCalculator Samples.

(** C2 fails for n = 3: the residual 1E-26 is added to the first share
    before the shares are quantized, and is then rounded away; the three
    weights are 33.33 each and sum to 99.99, not 100.00. *)
Lemma distribute_weights_evenly_3_sums_to_99_99 :
  distribute_weights_evenly 3 = Ok [d33_33; d33_33; d33_33]
  /\ Decimal.sum [d33_33; d33_33; d33_33] = Ok d99_99
  /\ Decimal.eqb d99_99 d100 = false.
Proof. repeat split; vm_compute; reflexivity. Qed.

(** C6 fails: with an empty criteria list and a non-empty importance
    mapping, [weights[0] += diff] indexes an empty list. *)
Lemma get_weight_suggestions_empty_raises :
  get_weight_suggestions [] (Some (<[1 := "high"%string]> ∅)) = Raise IndexError.
Proof. vm_compute. reflexivity. Qed.

(** C10: without importance levels ([None] or an empty dict) the
    suggestions are the even distribution; mapping every criterion to
    "medium" can give a different list, since that path corrects the
    residual after quantizing (33.34, 33.33, 33.33) and the even
    distribution before (33.33 three times). *)
Theorem get_weight_suggestions_fallback :
  (forall criteria : list criterion,
      get_weight_suggestions criteria None
        = distribute_weights_evenly (Z.of_nat (length criteria))
      /\ get_weight_suggestions criteria (Some ∅)
        = distribute_weights_evenly (Z.of_nat (length criteria)))
  /\ (forall c, c ∈ three_criteria -> all_medium !! c_id c = Some "medium"%string)
  /\ get_weight_suggestions three_criteria None = Ok [d33_33; d33_33; d33_33]
  /\ get_weight_suggestions three_criteria (Some all_medium)
       = Ok [d33_34; d33_33; d33_33]
  /\ get_weight_suggestions three_criteria (Some all_medium)
       <> get_weight_suggestions three_criteria None.
Proof.
  split.
  { intros criteria. split; reflexivity. }
  split.
  { intros c Hc. unfold three_criteria in Hc.
    rewrite !elem_of_cons, elem_of_nil in Hc.
    destruct Hc as [->|[->|[->|[]]]]; vm_compute; reflexivity. }
  split; [vm_compute; reflexivity|].
  split; [vm_compute; reflexivity|].
  vm_compute. discriminate.
Qed.

End WeightHelpers.

(** ** Digits and rounding of coefficients *)

Section Digits.
Import Decimal.

Lemma pow10_pos (k : Z) : 0 <= k -> 0 < 10 ^ k.
Proof. intros. apply Z.pow_pos_nonneg; lia. Qed.

Lemma pow10_succ (k : Z) : 0 <= k -> 10 ^ (k + 1) = 10 * 10 ^ k.
Proof. intros. rewrite Z.pow_add_r by lia. lia. Qed.

Lemma pow10_le (a b : Z) : 0 <= a <= b -> 10 ^ a <= 10 ^ b.
Proof. intros. apply Z.pow_le_mono_r; lia. Qed.

Lemma pow10_lt (a b : Z) : 0 <= a < b -> 10 ^ a < 10 ^ b.
Proof. intros. apply Z.pow_lt_mono_r; lia. Qed.

Lemma pow10_lt_inv (a b : Z) : 0 <= a -> 0 <= b -> 10 ^ a < 10 ^ b -> a < b.
Proof. intros Ha Hb H. apply (Z.pow_lt_mono_r_iff 10); lia. Qed.

Lemma ndigits_aux_spec (fuel : nat) (c : Z) :
  0 < c < 2 ^ (Z.of_nat fuel + 1) ->
  1 <= ndigits_aux fuel c
  /\ 10 ^ (ndigits_aux fuel c - 1) <= c < 10 ^ ndigits_aux fuel c.
Proof.
  revert c. induction fuel as [|f IH]; intros c Hc.
  - simpl in *. assert (c = 1) by lia. subst. simpl. lia.
  - cbn [ndigits_aux]. destruct (Z.ltb_spec c 10) as [Hlt|Hge].
    + simpl. lia.
    + assert (Hq : 0 < c / 10 < 2 ^ (Z.of_nat f + 1)).
      { split; [apply Z.div_str_pos; lia|].
        apply Z.div_lt_upper_bound; [lia|].
        replace (Z.of_nat (S f) + 1) with (Z.of_nat f + 1 + 1) in Hc by lia.
        rewrite (Z.pow_add_r 2 (Z.of_nat f + 1) 1) in Hc by lia.
        change (2 ^ 1) with 2 in Hc. lia. }
      destruct (IH _ Hq) as (H1 & H2 & H3).
      set (n := ndigits_aux f (c / 10)) in *.
      split; [lia|].
      replace (1 + n - 1) with (n - 1 + 1) by lia.
      replace (1 + n) with (n + 1) by lia.
      rewrite !pow10_succ by lia.
      pose proof (Z.div_mod c 10 ltac:(lia)).
      pose proof (Z.mod_pos_bound c 10 ltac:(lia)). lia.
Qed.

Lemma ndigits_spec (c : Z) :
  0 < c -> 1 <= ndigits c /\ 10 ^ (ndigits c - 1) <= c < 10 ^ ndigits c.
Proof.
  intros Hc. unfold ndigits. apply ndigits_aux_spec.
  rewrite Z2Nat.id by apply Z.log2_nonneg.
  split; [lia|]. replace (Z.log2 c + 1) with (Z.succ (Z.log2 c)) by lia.
  apply Z.log2_spec. lia.
Qed.

Lemma ndigits_0 : ndigits 0 = 1.
Proof. reflexivity. Qed.

Lemma ndigits_unique (c n : Z) :
  1 <= n -> 10 ^ (n - 1) <= c < 10 ^ n -> ndigits c = n.
Proof.
  intros Hn Hc.
  assert (0 < c). { pose proof (pow10_pos (n - 1)). lia. }
  destruct (ndigits_spec c) as (H1 & H2 & H3); [lia|].
  destruct (Z.lt_trichotomy (ndigits c) n) as [Hlt|[Heq|Hgt]]; [|exact Heq|].
  - pose proof (pow10_le (ndigits c) (n - 1)). lia.
  - pose proof (pow10_le n (ndigits c - 1)). lia.
Qed.

Lemma ndigits_pos (c : Z) : 0 <= c -> 1 <= ndigits c.
Proof.
  intros Hc. destruct (Z.eq_dec c 0) as [->|Hne]; [rewrite ndigits_0; lia|].
  apply ndigits_spec. lia.
Qed.

End Digits.

(** ** The score lookup of calculate_weighted_score *)

Section ScoreLookup.
Import WeightedScoringCalculator Reference.

Lemma foldl_score_map_lookup (scores : list score_entry) (m : gmap Z Decimal.t) (cid : Z) :
  foldl (fun m s => <[s_criterion_id s := s_score s]> m) m scores !! cid
  = match last_score cid scores with
    | Some x => Some x
    | None => m !! cid
    end.
Proof.
  revert m. induction scores as [|s rest IH]; intros m; [reflexivity|].
  cbn [foldl last_score]. rewrite IH.
  destruct (last_score cid rest) as [x|]; [reflexivity|].
  destruct (Z.eqb_spec (s_criterion_id s) cid) as [->|Hne].
  - apply lookup_insert_eq.
  - by apply lookup_insert_ne.
Qed.

Lemma build_score_map_lookup (scores : list score_entry) (cid : Z) :
  build_score_map scores !! cid = last_score cid scores.
Proof.
  unfold build_score_map. rewrite foldl_score_map_lookup.
  destruct (last_score cid scores); [reflexivity|apply lookup_empty].
Qed.

Lemma step_ext (m1 m2 : gmap Z Decimal.t) (max_score : Z)
    (st : list detail * Decimal.t) (c : criterion) :
  m1 !! c_id c = m2 !! c_id c -> step m1 max_score st c = step m2 max_score st c.
Proof. intros H. unfold step. destruct st. rewrite H. reflexivity. Qed.

Lemma loop_ext (m1 m2 : gmap Z Decimal.t) (max_score : Z) (criteria : list criterion) :
  (forall c, c ∈ criteria -> m1 !! c_id c = m2 !! c_id c) ->
  forall st, loop m1 max_score criteria st = loop m2 max_score criteria st.
Proof.
  induction criteria as [|c rest IH]; intros H st; [reflexivity|].
  cbn [loop]. rewrite (step_ext m1 m2) by (apply H; left).
  destruct (step m2 max_score st c) as [st'|e]; [|reflexivity].
  cbn [rbind]. apply IH. intros c' Hc'. apply H. by right.
Qed.

Lemma step_entry (m : gmap Z Decimal.t) (max_score : Z) (bd bd' : list detail)
    (s s' : Decimal.t) (c : criterion) :
  step m max_score (bd, s) c = Ok (bd', s') ->
  exists e, bd' = bd ++ [e]
            /\ criterion_id e = c_id c
            /\ raw_score e = default d0 (m !! c_id c).
Proof.
  unfold step.
  destruct (weighted_value_of _ _ _ _) as [v|]; [|discriminate]. cbn [rbind].
  destruct (quantize2 v) as [q|]; [|discriminate]. cbn [rbind].
  destruct (Decimal.add s v) as [s1|]; [|discriminate]. cbn [rbind].
  intros [= <- <-]. eexists. split; [reflexivity|]. split; reflexivity.
Qed.

Lemma loop_entries (m : gmap Z Decimal.t) (max_score : Z) (criteria : list criterion) :
  forall bd s bd' s',
    loop m max_score criteria (bd, s) = Ok (bd', s') ->
    exists new, bd' = bd ++ new
      /\ Forall2 (fun c e => criterion_id e = c_id c
                             /\ raw_score e = default d0 (m !! c_id c)) criteria new.
Proof.
  induction criteria as [|c rest IH]; intros bd s bd' s' H.
  - cbn in H. injection H as <- <-. exists []. split; [by rewrite app_nil_r|constructor].
  - cbn [loop] in H.
    destruct (step m max_score (bd, s) c) as [[bd1 s1]|] eqn:Hs; [|discriminate].
    cbn [rbind] in H. apply IH in H. apply step_entry in Hs.
    destruct H as (new & -> & HF). destruct Hs as (e & -> & He1 & He2).
    exists (e :: new). split; [by rewrite <- app_assoc|]. by constructor.
Qed.

Lemma entries_ids (criteria : list criterion) (new : list detail) (P : criterion -> detail -> Prop) :
  Forall2 (fun c e => criterion_id e = c_id c /\ P c e) criteria new ->
  map criterion_id new = map c_id criteria.
Proof.
  induction 1 as [|c e cs es [He _] _ IH]; [reflexivity|].
  cbn [map]. by rewrite He, IH.
Qed.

(** C9: the result depends on the score list only through the last entry
    listed for each criterion of the criteria list, and the breakdown has
    one entry per criterion, in the order of the criteria list. *)
Theorem calculate_weighted_score_last_entry
    (scores1 scores2 : list score_entry) (criteria : list criterion) (max_score : Z) :
  (forall c, c ∈ criteria -> last_score (c_id c) scores1 = last_score (c_id c) scores2) ->
  calculate_weighted_score scores1 criteria max_score
    = calculate_weighted_score scores2 criteria max_score
  /\ (forall r, calculate_weighted_score scores1 criteria max_score = Ok r ->
        map criterion_id (breakdown r) = map c_id criteria
        /\ Forall2 (fun c e => raw_score e = raw_score_for scores1 c)
             criteria (breakdown r)).
Proof.
  intros Hagree.
  assert (Hmaps : forall c, c ∈ criteria ->
            build_score_map scores1 !! c_id c = build_score_map scores2 !! c_id c).
  { intros c Hc. rewrite !build_score_map_lookup. by apply Hagree. }
  split.
  - unfold calculate_weighted_score.
    by rewrite (loop_ext _ _ max_score criteria Hmaps).
  - intros r Hr. unfold calculate_weighted_score in Hr.
    destruct (loop (build_score_map scores1) max_score criteria ([], d0))
      as [[bd ws]|] eqn:Hloop; [|discriminate].
    cbn [rbind] in Hr.
    destruct (quantize2 ws) as [q|]; [|discriminate]. cbn [rbind] in Hr.
    injection Hr as <-. cbn [breakdown].
    apply loop_entries in Hloop. destruct Hloop as (new & -> & HF).
    rewrite app_nil_l. split.
    + exact (entries_ids _ _ _ HF).
    + eapply Forall2_impl; [exact HF|]. intros c e [_ He]. cbn beta.
      unfold raw_score_for. by rewrite <- build_score_map_lookup.
Qed.

End ScoreLookup.

Section ScoreLookupWitness.
Import WeightedScoringCalculator Reference.

(** C9, witness: an entry for an unknown criterion and an overwritten
    entry do not matter. *)
Lemma calculate_weighted_score_last_entry_witness :
  calculate_weighted_score
    [Score 1 (Decimal.of_Z 3); Score 7 (Decimal.of_Z 9); Score 1 (Decimal.of_Z 8)]
    [Criterion 1 (Some (Decimal.of_Z 100)) (Some (Decimal.of_Z 10)) None] 100
  = calculate_weighted_score
      [Score 1 (Decimal.of_Z 8)]
      [Criterion 1 (Some (Decimal.of_Z 100)) (Some (Decimal.of_Z 10)) None] 100.
Proof.
  apply (calculate_weighted_score_last_entry
           [Score 1 (Decimal.of_Z 3); Score 7 (Decimal.of_Z 9); Score 1 (Decimal.of_Z 8)]
           [Score 1 (Decimal.of_Z 8)]
           [Criterion 1 (Some (Decimal.of_Z 100)) (Some (Decimal.of_Z 10)) None] 100).
  intros c Hc. apply list_elem_of_singleton in Hc. subst c. reflexivity.
Defined.

End ScoreLookupWitness.

(** ** Values of Decimals *)

Section Values.
Import Decimal DecimalValue.
Local Open Scope R_scope.

Lemma p10_pos (e : Z) : 0 < p10 e.
Proof. unfold p10. apply powerRZ_lt. lra. Qed.

Lemma p10_add (a b : Z) : p10 (a + b) = p10 a * p10 b.
Proof. unfold p10. apply powerRZ_add. lra. Qed.

Lemma p10_0 : p10 0 = 1.
Proof. reflexivity. Qed.

Lemma p10_1 : p10 1 = 10.
Proof. unfold p10. simpl. lra. Qed.

Lemma p10_succ (a : Z) : p10 (a + 1) = 10 * p10 a.
Proof. rewrite p10_add, p10_1. lra. Qed.

Lemma p10_IZR (k : Z) : (0 <= k)%Z -> p10 k = IZR (10 ^ k).
Proof.
  intros Hk. unfold p10.
  rewrite <- (Z2Nat.id k Hk) at 1.
  rewrite <- pow_powerRZ. rewrite pow_IZR. by rewrite Z2Nat.id.
Qed.

Lemma p10_sub (a b : Z) : p10 (a - b) = p10 a / p10 b.
Proof.
  pose proof (p10_pos b).
  replace a with ((a - b) + b)%Z at 2 by lia. rewrite p10_add. field. lra.
Qed.

Lemma p10_split (a b : Z) : (b <= a)%Z -> p10 a = IZR (10 ^ (a - b)) * p10 b.
Proof.
  intros H. rewrite <- p10_IZR by lia. rewrite <- p10_add. f_equal. lia.
Qed.

Lemma p10_le (a b : Z) : (a <= b)%Z -> p10 a <= p10 b.
Proof.
  intros H. rewrite (p10_split b a H).
  pose proof (p10_pos a).
  assert (1 <= IZR (10 ^ (b - a))).
  { apply IZR_le. pose proof (pow10_pos (b - a)). lia. }
  nra.
Qed.

Lemma p10_lt (a b : Z) : (a < b)%Z -> p10 a < p10 b.
Proof.
  intros H. pose proof (p10_le (a + 1) b ltac:(lia)).
  rewrite p10_succ in H0. pose proof (p10_pos a). lra.
Qed.

Lemma p10_lt_inv (a b : Z) : p10 a < p10 b -> (a < b)%Z.
Proof.
  intros H. destruct (Z_lt_le_dec a b) as [|Hle]; [done|].
  apply p10_le in Hle. lra.
Qed.

Lemma p10_le_inv (a b : Z) : p10 a <= p10 b -> (a <= b)%Z.
Proof.
  intros H. destruct (Z_le_gt_dec a b) as [|Hgt]; [done|].
  apply Z.gt_lt, p10_lt in Hgt. lra.
Qed.

Lemma coef_nonneg (d : t) : (0 <= coef d)%Z.
Proof. unfold coef. lia. Qed.

Lemma coef_mk (s : bool) (c e : Z) : (0 <= c)%Z -> coef (mk s c e) = c.
Proof. intros. unfold coef, mk. simpl. lia. Qed.

Lemma signed_mk (s : bool) (c e : Z) :
  (0 <= c)%Z -> signed (mk s c e) = if s then (- c)%Z else c.
Proof. intros. unfold signed. rewrite coef_mk by done. reflexivity. Qed.

Lemma to_R_mk (s : bool) (c e : Z) :
  (0 <= c)%Z -> to_R (mk s c e) = IZR (if s then (- c)%Z else c) * p10 e.
Proof. intros. unfold to_R. rewrite signed_mk by done. reflexivity. Qed.

Lemma to_R_scaled (d : t) (m : Z) :
  (m <= dexp d)%Z -> to_R d = IZR (signed d * 10 ^ (dexp d - m)) * p10 m.
Proof.
  intros H. unfold to_R. rewrite (p10_split (dexp d) m H), mult_IZR. ring.
Qed.

Lemma cmp_to_R (a b : t) :
  match cmp a b with
  | Lt => to_R a < to_R b
  | Eq => to_R a = to_R b
  | Gt => to_R a > to_R b
  end.
Proof.
  unfold cmp. set (m := Z.min (dexp a) (dexp b)).
  rewrite (to_R_scaled a m), (to_R_scaled b m) by lia.
  pose proof (p10_pos m).
  destruct (Z.compare_spec (signed a * 10 ^ (dexp a - m)) (signed b * 10 ^ (dexp b - m)))
    as [Heq|Hlt|Hgt].
  - by rewrite Heq.
  - apply IZR_lt in Hlt. nra.
  - apply IZR_lt in Hgt. nra.
Qed.

Lemma ltb_to_R (a b : t) : ltb a b = true <-> to_R a < to_R b.
Proof.
  unfold ltb. pose proof (cmp_to_R a b).
  destruct (cmp a b); split; intros; try discriminate; try lra; done.
Qed.

Lemma gtb_to_R (a b : t) : gtb a b = true <-> to_R a > to_R b.
Proof.
  unfold gtb. pose proof (cmp_to_R a b).
  destruct (cmp a b); split; intros; try discriminate; try lra; done.
Qed.

Lemma leb_to_R (a b : t) : leb a b = true <-> to_R a <= to_R b.
Proof.
  unfold leb, gtb. pose proof (cmp_to_R a b).
  destruct (cmp a b); cbn [negb]; split; intros; try discriminate; try lra; done.
Qed.

Lemma eqb_to_R (a b : t) : eqb a b = true <-> to_R a = to_R b.
Proof.
  unfold eqb. pose proof (cmp_to_R a b).
  destruct (cmp a b); split; intros; try discriminate; try lra; done.
Qed.

Lemma to_R_of_Z (n : Z) : to_R (of_Z n) = IZR n.
Proof.
  unfold of_Z. rewrite to_R_mk by lia. rewrite p10_0.
  destruct (Z.ltb_spec n 0); rewrite Rmult_1_r; f_equal; lia.
Qed.

End Values.

(** ** Rounding a coefficient *)

Section RoundCoefficient.
Import Decimal.

Lemma pow10_half (k : Z) : 1 <= k -> 10 ^ k = 2 * (5 * 10 ^ (k - 1)).
Proof.
  intros Hk. replace k with (k - 1 + 1) at 1 by lia.
  rewrite pow10_succ by lia. lia.
Qed.

Lemma half_even_spec (c k : Z) :
  0 <= c -> 1 <= k ->
  let q := Rounded.half_even c k in
  0 <= q
  /\ 2 * Z.abs (c - q * 10 ^ k) <= 10 ^ k
  /\ (2 * Z.abs (c - q * 10 ^ k) = 10 ^ k -> Z.even q = true).
Proof.
  intros Hc Hk. unfold Rounded.half_even, round_half_even, round_half_up.
  pose proof (pow10_pos k ltac:(lia)) as Hp.
  pose proof (pow10_half k Hk) as Hh.
  pose proof (pow10_pos (k - 1) ltac:(lia)) as Hp1.
  pose proof (Z.div_mod c (10 ^ k) ltac:(lia)) as Hdm.
  pose proof (Z.mod_pos_bound c (10 ^ k) Hp) as Hr.
  pose proof (Z.div_pos c (10 ^ k) Hc Hp) as Hq.
  set (q := c / 10 ^ k) in *. set (r := c mod 10 ^ k) in *.
  set (h := 5 * 10 ^ (k - 1)) in *.
  destruct (Z.eqb_spec r h) as [Heq|Hne]; cbn [andb].
  - destruct (Z.even q) eqn:Hev; cbn [andb Z.ltb].
    + change (0 <? -1) with false. cbv iota.
      rewrite Z.add_0_r. repeat split; [lia|nia|]. intros _. exact Hev.
    + destruct (Z.leb_spec h r); [|lia].
      change (0 <? 1) with true. cbv iota.
      repeat split; [lia|nia|]. intros _.
      rewrite Z.even_add. rewrite Hev. reflexivity.
  - destruct (Z.leb_spec h r).
    + change (0 <? 1) with true. cbv iota.
      repeat split; [lia|nia|]. intros Htie. exfalso. nia.
    + destruct (Z.eqb_spec r 0).
      * change (0 <? 0) with false. cbv iota. rewrite Z.add_0_r.
        repeat split; [lia|nia|]. intros Htie. exfalso. nia.
      * change (0 <? -1) with false. cbv iota. rewrite Z.add_0_r.
        repeat split; [lia|nia|]. intros Htie. exfalso. nia.
Qed.

Lemma half_up_spec (c k : Z) :
  0 <= c -> 1 <= k ->
  let q := Rounded.half_up c k in
  0 <= q
  /\ 2 * Z.abs (c - q * 10 ^ k) <= 10 ^ k
  /\ (2 * Z.abs (c - q * 10 ^ k) = 10 ^ k -> c < q * 10 ^ k).
Proof.
  intros Hc Hk. unfold Rounded.half_up, round_half_up.
  pose proof (pow10_pos k ltac:(lia)) as Hp.
  pose proof (pow10_half k Hk) as Hh.
  pose proof (pow10_pos (k - 1) ltac:(lia)) as Hp1.
  pose proof (Z.div_mod c (10 ^ k) ltac:(lia)) as Hdm.
  pose proof (Z.mod_pos_bound c (10 ^ k) Hp) as Hr.
  pose proof (Z.div_pos c (10 ^ k) Hc Hp) as Hq.
  set (q := c / 10 ^ k) in *. set (r := c mod 10 ^ k) in *.
  set (h := 5 * 10 ^ (k - 1)) in *.
  destruct (Z.leb_spec h r).
  - change (1 =? 1) with true. cbv iota. repeat split; [lia|nia|]. intros _. nia.
  - destruct (Z.eqb_spec r 0).
    + change (0 =? 1) with false. cbv iota. rewrite Z.add_0_r.
      repeat split; [lia|nia|]. intros Htie. exfalso. nia.
    + change (-1 =? 1) with false. cbv iota. rewrite Z.add_0_r.
      repeat split; [lia|nia|]. intros Htie. exfalso. nia.
Qed.

End RoundCoefficient.

(** ** What [_fix] returns *)

Section FixShape.
Import Decimal DecimalValue.

Lemma half_even_small (c k : Z) :
  0 <= c -> 1 <= k -> c < 10 ^ (k - 1) -> Rounded.half_even c k = 0.
Proof.
  intros Hc Hk Hlt.
  destruct (half_even_spec c k Hc Hk) as (Hq & Hb & _).
  pose proof (pow10_half k Hk). pose proof (pow10_pos (k - 1) ltac:(lia)).
  set (q := Rounded.half_even c k) in *. nia.
Qed.

Lemma half_even_bound (c k n : Z) :
  0 <= c -> 1 <= k -> k <= n -> c < 10 ^ n -> Rounded.half_even c k <= 10 ^ (n - k).
Proof.
  intros Hc Hk Hn Hlt.
  destruct (half_even_spec c k Hc Hk) as (Hq & Hb & _).
  pose proof (pow10_pos k ltac:(lia)) as Hp.
  assert (Hsplit : 10 ^ n = 10 ^ (n - k) * 10 ^ k).
  { rewrite <- Z.pow_add_r by lia. f_equal. lia. }
  pose proof (pow10_pos (n - k) ltac:(lia)).
  set (q := Rounded.half_even c k) in *.
  destruct (Z_le_gt_dec q (10 ^ (n - k))) as [|Hgt]; [done|]. exfalso. nia.
Qed.

Lemma fix_shape (d d' : t) :
  fix_ d = Ok d' ->
  (coef d = 0 /\ d' = mk (dsign d) 0 (Z.min (Z.max (dexp d) Etiny) Emax))
  \/ (0 < coef d
      /\ exists g, g = Z.max (ndigits (coef d) + dexp d - prec) Etiny
         /\ g <= Etop
         /\ ((g <= dexp d /\ d' = d)
             \/ (dexp d < g
                 /\ exists q' e',
                      d' = mk (dsign d) q' e'
                      /\ 0 <= q' < 10 ^ prec
                      /\ g <= e' <= Etop
                      /\ (IZR q' * p10 e'
                          = IZR (Rounded.half_even (coef d) (g - dexp d)) * p10 g)%R))).
Proof.
  unfold fix_. pose proof (coef_nonneg d) as Hc0.
  destruct (Z.eqb_spec (coef d) 0) as [Hz|Hnz].
  { intros [= <-]. left. done. }
  intros Hfix. right. split; [lia|]. revert Hfix.
  set (c := coef d) in *. set (e := dexp d) in *. set (n := ndigits c) in *.
  destruct (ndigits_spec c ltac:(lia)) as (Hn1 & Hlo & Hhi). fold n in Hn1, Hlo, Hhi.
  destruct (Z.ltb_spec Etop (n + e - prec)) as [|Hov]; [discriminate|].
  set (g := Z.max (n + e - prec) Etiny) in *.
  assert (HEt : Etiny <= Etop) by (vm_compute; discriminate).
  intros Hfix. exists g. split; [reflexivity|]. split; [lia|]. revert Hfix.
  destruct (Z.ltb_spec e g) as [Hlt|Hge]; [|intros [= <-]; left; done].
  intros Hfix. right. split; [done|]. revert Hfix.
  set (k := g - e) in *.
  assert (Hk : 1 <= k) by lia.
  assert (Hprec : prec = 28) by reflexivity.
  (* the coefficient the code computes is the rounded one *)
  assert (Hcoeff :
    (let '(c1, k1) := if n + e - g <? 0 then (1, 1) else (c, k) in
     let coeff := c1 / 10 ^ k1 in
     if 0 <? round_half_even c1 k1 then coeff + 1 else coeff)
    = Rounded.half_even c k).
  { destruct (Z.ltb_spec (n + e - g) 0) as [Hneg|Hpos].
    - rewrite half_even_small; [reflexivity|lia|lia|].
      eapply Z.lt_le_trans; [exact Hhi|]. apply pow10_le. lia.
    - unfold Rounded.half_even.
      destruct (0 <? round_half_even c k); lia. }
  set (q := Rounded.half_even c k) in *.
  destruct (half_even_spec c k ltac:(lia) Hk) as (Hq0 & _ & _). fold q in Hq0.
  assert (Hqb : q <= 10 ^ prec).
  { destruct (Z_le_gt_dec k n) as [Hkn|Hkn].
    - pose proof (half_even_bound c k n ltac:(lia) Hk Hkn Hhi) as Hb. fold q in Hb.
      pose proof (pow10_le (n - k) prec ltac:(lia)). lia.
    - unfold q. rewrite half_even_small; [|lia|lia|].
      + pose proof (pow10_pos prec ltac:(lia)). lia.
      + eapply Z.lt_le_trans; [exact Hhi|]. apply pow10_le. lia. }
  revert Hcoeff. cbv zeta.
  destruct (if n + e - g <? 0 then (1, 1) else (c, k)) as [c1 k1].
  intros Hcoeff. rewrite Hcoeff. clear Hcoeff c1 k1.
  destruct (Z.ltb_spec prec (ndigits q)) as [Hcarry|Hnocarry].
  - (* the rounded coefficient is 10^prec *)
    assert (Hq : q = 10 ^ prec).
    { destruct (ndigits_spec q) as (_ & Hl & _).
      - destruct (Z.eq_dec q 0) as [Hq|]; [|lia]. rewrite Hq, ndigits_0 in Hcarry. lia.
      - pose proof (pow10_le prec (ndigits q - 1) ltac:(lia)). lia. }
    destruct (Z.ltb_spec Etop (g + 1)) as [|Hfit]; [discriminate|].
    intros [= <-]. exists (q / 10), (g + 1).
    assert (Hq10 : q / 10 = 10 ^ (prec - 1)).
    { rewrite Hq. replace prec with (prec - 1 + 1) at 1 by lia.
      rewrite pow10_succ by lia. rewrite Z.mul_comm, Z.div_mul by lia. reflexivity. }
    split; [reflexivity|]. rewrite Hq10.
    split; [split; [pose proof (pow10_pos (prec - 1)); lia|apply pow10_lt; lia]|].
    split; [lia|].
    rewrite Hq, p10_succ. replace prec with (prec - 1 + 1) at 2 by lia.
    rewrite pow10_succ by lia. rewrite mult_IZR. simpl (IZR 10). ring.
  - destruct (Z.ltb_spec Etop g) as [|Hfit]; [discriminate|].
    intros [= <-]. exists q, g.
    split; [reflexivity|]. split; [|split; [lia|reflexivity]].
    split; [lia|].
    destruct (Z.eq_dec q 0) as [->|Hqnz]; [apply pow10_pos; lia|].
    destruct (ndigits_spec q ltac:(lia)) as (Hn' & _ & Hu).
    eapply Z.lt_le_trans; [exact Hu|]. apply pow10_le. lia.
Qed.

End FixShape.

(** ** [_fix] rounds correctly *)

Section FixRounds.
Import Decimal DecimalValue.
Local Open Scope R_scope.

Lemma Rabs_to_R (d : t) : Rabs (to_R d) = IZR (coef d) * p10 (dexp d).
Proof.
  unfold to_R, signed. pose proof (p10_pos (dexp d)).
  pose proof (IZR_le 0 (coef d) (coef_nonneg d)).
  rewrite Rabs_mult, (Rabs_pos_eq (p10 _)) by lra.
  destruct (dsign d); [rewrite opp_IZR, Rabs_Ropp|]; rewrite Rabs_pos_eq; lra.
Qed.

Lemma to_R_sign (d : t) :
  to_R d = (if dsign d then -1 else 1) * (IZR (coef d) * p10 (dexp d)).
Proof. unfold to_R, signed. destruct (dsign d); [rewrite opp_IZR|]; ring. Qed.

Lemma to_R_zero (d : t) : coef d = 0%Z -> to_R d = 0.
Proof. intros H. rewrite to_R_sign, H. ring. Qed.

Lemma to_R_zero_inv (d : t) : to_R d = 0 -> coef d = 0%Z.
Proof.
  intros H. apply (f_equal Rabs) in H. rewrite Rabs_to_R, Rabs_R0 in H.
  pose proof (p10_pos (dexp d)).
  apply eq_IZR_R0. nra.
Qed.

Lemma decade_coef (c e : Z) :
  (0 < c)%Z -> p10 (ndigits c + e - 1) <= IZR c * p10 e < p10 (ndigits c + e - 1 + 1).
Proof.
  intros Hc. destruct (ndigits_spec c Hc) as (Hn & Hlo & Hhi).
  pose proof (p10_pos e).
  replace (ndigits c + e - 1 + 1)%Z with (ndigits c + e)%Z by lia.
  replace (ndigits c + e - 1)%Z with ((ndigits c - 1) + e)%Z by lia.
  rewrite !p10_add.
  rewrite (p10_IZR (ndigits c - 1)), (p10_IZR (ndigits c)) by lia.
  apply IZR_le in Hlo. apply IZR_lt in Hhi. nra.
Qed.

Lemma decade_to_R (d : t) :
  (0 < coef d)%Z -> decade (to_R d) (adjusted d).
Proof.
  intros Hc. unfold decade. rewrite Rabs_to_R.
  unfold adjusted. replace (dexp d + ndigits (coef d) - 1)%Z
    with (ndigits (coef d) + dexp d - 1)%Z by lia.
  by apply decade_coef.
Qed.

Lemma decade_unique (x : R) (A B : Z) : decade x A -> decade x B -> A = B.
Proof.
  unfold decade. intros [HA1 HA2] [HB1 HB2].
  assert (A < B + 1)%Z by (apply p10_lt_inv; lra).
  assert (B < A + 1)%Z by (apply p10_lt_inv; lra). lia.
Qed.

Lemma decade_nonzero (x : R) (A : Z) : decade x A -> x <> 0.
Proof.
  intros [H _] ->. rewrite Rabs_R0 in H. pose proof (p10_pos A). lra.
Qed.

Lemma fix_correctly_rounded (d d' : t) :
  fix_ d = Ok d' -> correctly_rounded (to_R d) (to_R d').
Proof.
  intros Hfix. destruct (fix_shape d d' Hfix) as [[Hz ->]|(Hc & g & Hg & Hgtop & Hcases)].
  { left. split; [by apply to_R_zero|]. apply to_R_zero. by rewrite coef_mk. }
  right. exists (adjusted d).
  assert (Hgrid : grid_exp (adjusted d) = g).
  { unfold grid_exp, adjusted. rewrite Hg. f_equal. lia. }
  rewrite Hgrid. pose proof (p10_pos g) as Hpg.
  destruct Hcases as [[Hge ->]|(Hlt & q' & e' & -> & Hq' & He' & Hval)].
  - exists (signed d * 10 ^ (dexp d - g))%Z.
    split; [by apply decade_to_R|].
    split; [by apply to_R_scaled|].
    rewrite Rminus_diag, Rabs_R0. split; [lra|]. intros; lra.
  - set (q := Rounded.half_even (coef d) (g - dexp d)) in *.
    destruct (half_even_spec (coef d) (g - dexp d) ltac:(lia) ltac:(lia))
      as (Hq0 & Hb & Htie). fold q in Hq0, Hb, Htie.
    exists (if dsign d then (- q)%Z else q).
    split; [by apply decade_to_R|].
    assert (Hr : to_R (mk (dsign d) q' e')
                 = IZR (if dsign d then (- q)%Z else q) * p10 g).
    { rewrite to_R_mk by lia. destruct (dsign d);
        [rewrite !opp_IZR|]; nra. }
    split; [exact Hr|]. rewrite Hr.
    assert (Hdiff : Rabs (to_R d - IZR (if dsign d then (- q)%Z else q) * p10 g)
                    = IZR (Z.abs (coef d - q * 10 ^ (g - dexp d))) * p10 (dexp d)).
    { rewrite to_R_sign. rewrite (p10_split g (dexp d)) by lia.
      pose proof (p10_pos (dexp d)).
      rewrite abs_IZR, minus_IZR, mult_IZR.
      destruct (dsign d); [rewrite opp_IZR|].
      - replace (-1 * (IZR (coef d) * p10 (dexp d))
                 - - IZR q * (IZR (10 ^ (g - dexp d)) * p10 (dexp d)))
          with (- ((IZR (coef d) - IZR q * IZR (10 ^ (g - dexp d))) * p10 (dexp d)))
          by ring.
        rewrite Rabs_Ropp, Rabs_mult, (Rabs_pos_eq (p10 _)) by lra. reflexivity.
      - replace (1 * (IZR (coef d) * p10 (dexp d))
                 - IZR q * (IZR (10 ^ (g - dexp d)) * p10 (dexp d)))
          with ((IZR (coef d) - IZR q * IZR (10 ^ (g - dexp d))) * p10 (dexp d))
          by ring.
        rewrite Rabs_mult, (Rabs_pos_eq (p10 _)) by lra. reflexivity. }
    rewrite Hdiff. rewrite (p10_split g (dexp d)) by lia.
    pose proof (p10_pos (dexp d)) as Hpe.
    set (a := Z.abs (coef d - q * 10 ^ (g - dexp d))) in *.
    set (P := (10 ^ (g - dexp d))%Z) in *.
    split.
    + apply IZR_le in Hb. rewrite mult_IZR in Hb. simpl (IZR 2) in Hb. nra.
    + intros Heq. assert (Hz : (2 * a = P)%Z).
      { apply eq_IZR. rewrite mult_IZR. simpl (IZR 2). nra. }
      specialize (Htie Hz). destruct (dsign d); [|exact Htie].
      by rewrite Z.even_opp.
Qed.

End FixRounds.

(** ** Correct rounding is a monotone function of the exact value *)

Section CorrectRounding.
Import Decimal DecimalValue.
Local Open Scope R_scope.

Lemma Rabs_le_inv (a b : R) : Rabs a <= b -> - b <= a <= b.
Proof. unfold Rabs. destruct (Rcase_abs a); lra. Qed.

Lemma Rabs_eq_cases (a b : R) : Rabs a = b -> a = b \/ a = - b.
Proof. unfold Rabs. destruct (Rcase_abs a); lra. Qed.

Lemma grid_le (j1 j2 : Z) (G : R) : 0 < G -> IZR j1 * G < IZR j2 * G -> (j1 < j2)%Z.
Proof. intros HG H. apply lt_IZR. nra. Qed.

Lemma grid_step (j1 j2 : Z) (G : R) :
  0 < G -> (j1 < j2)%Z -> IZR j1 * G + G <= IZR j2 * G.
Proof.
  intros HG H. assert (IZR (j1 + 1) <= IZR j2) by (apply IZR_le; lia).
  rewrite plus_IZR in H0. nra.
Qed.

Lemma correctly_rounded_zero (r : R) : correctly_rounded 0 r -> r = 0.
Proof.
  intros [[_ H]|(A & j & Hd & _)]; [exact H|].
  by apply decade_nonzero in Hd.
Qed.

Lemma correctly_rounded_opp (x r : R) :
  correctly_rounded x r -> correctly_rounded (- x) (- r).
Proof.
  intros [[-> ->]|(A & j & Hd & Hr & Hb & Ht)].
  - left. split; ring.
  - right. exists A, (- j)%Z.
    split; [unfold decade in *; by rewrite Rabs_Ropp|].
    split; [rewrite opp_IZR, Hr; ring|].
    replace (- x - - r) with (- (x - r)) by ring. rewrite Rabs_Ropp.
    split; [exact Hb|]. intros H. rewrite Z.even_opp. by apply Ht.
Qed.

Lemma correctly_rounded_nonneg (x r : R) :
  correctly_rounded x r -> 0 <= x -> 0 <= r.
Proof.
  intros [[_ ->]|(A & j & Hd & Hr & Hb & _)] Hx; [lra|].
  pose proof (p10_pos (grid_exp A)) as HG.
  destruct (Rle_or_lt 0 r) as [|Hneg]; [done|]. exfalso.
  assert (j < 0)%Z.
  { apply (grid_le j 0 _ HG). rewrite <- Hr. simpl. lra. }
  pose proof (grid_step j 0 _ HG H) as Hs. rewrite <- Hr in Hs. simpl in Hs.
  rewrite Rabs_pos_eq in Hb by lra. lra.
Qed.

Lemma correctly_rounded_nonpos (x r : R) :
  correctly_rounded x r -> x <= 0 -> r <= 0.
Proof.
  intros H Hx. apply correctly_rounded_opp in H.
  apply correctly_rounded_nonneg in H; lra.
Qed.

Lemma correctly_rounded_unique (x r1 r2 : R) :
  correctly_rounded x r1 -> correctly_rounded x r2 -> r1 = r2.
Proof.
  intros [[-> ->]|(A & j1 & Hd1 & Hr1 & Hb1 & Ht1)] H2.
  { symmetry. by apply correctly_rounded_zero. }
  destruct H2 as [[-> _]|(B & j2 & Hd2 & Hr2 & Hb2 & Ht2)].
  { by apply decade_nonzero in Hd1. }
  rewrite <- (decade_unique _ _ _ Hd1 Hd2) in *. clear Hd2 B.
  set (G := p10 (grid_exp A)) in *.
  assert (HG : 0 < G) by apply p10_pos.
  destruct (Z.lt_trichotomy j1 j2) as [Hlt|[->|Hgt]]; [|congruence|].
  - exfalso. pose proof (grid_step _ _ _ HG Hlt) as Hs. rewrite <- Hr1, <- Hr2 in Hs.
    apply Rabs_le_inv in Hb1. apply Rabs_le_inv in Hb2.
    assert (He1 : x - r1 = G / 2) by lra. assert (He2 : x - r2 = - (G / 2)) by lra.
    assert (Hj : IZR j2 = IZR j1 + 1) by nra.
    rewrite <- plus_IZR in Hj. apply eq_IZR in Hj.
    assert (Z.even j1 = true) by (apply Ht1; rewrite He1, Rabs_pos_eq; lra).
    assert (Z.even j2 = true).
    { apply Ht2. rewrite He2, Rabs_Ropp, Rabs_pos_eq; lra. }
    rewrite Hj, Z.even_add, H in H0. discriminate.
  - exfalso.
    pose proof (grid_step _ _ _ HG Hgt) as Hs. rewrite <- Hr1, <- Hr2 in Hs.
    apply Rabs_le_inv in Hb1. apply Rabs_le_inv in Hb2.
    assert (He2 : x - r2 = G / 2) by lra. assert (He1 : x - r1 = - (G / 2)) by lra.
    assert (Hj : IZR j1 = IZR j2 + 1) by nra.
    rewrite <- plus_IZR in Hj. apply eq_IZR in Hj.
    assert (Z.even j2 = true) by (apply Ht2; rewrite He2, Rabs_pos_eq; lra).
    assert (Z.even j1 = true).
    { apply Ht1. rewrite He1, Rabs_Ropp, Rabs_pos_eq; lra. }
    rewrite Hj, Z.even_add, H in H0. discriminate.
Qed.

End CorrectRounding.

Section CorrectRoundingMonotone.
Import Decimal DecimalValue.
Local Open Scope R_scope.

Lemma grid_exp_mono (A B : Z) : (A <= B)%Z -> (grid_exp A <= grid_exp B)%Z.
Proof. unfold grid_exp. lia. Qed.

Lemma correctly_rounded_mono_pos (x y rx ry : R) :
  0 < x -> x < y ->
  correctly_rounded x rx -> correctly_rounded y ry -> rx <= ry.
Proof.
  intros Hx Hxy [[-> _]|(A & jx & Hdx & Hrx & Hbx & _)]; [lra|].
  intros [[-> _]|(B & jy & Hdy & Hry & Hby & _)]; [lra|].
  unfold decade in Hdx, Hdy. rewrite Rabs_pos_eq in Hdx, Hdy by lra.
  assert (HAB : (A <= B)%Z).
  { assert (A < B + 1)%Z by (apply p10_lt_inv; lra). lia. }
  pose proof (grid_exp_mono A B HAB) as Hg.
  pose proof (p10_pos (grid_exp A)) as HGx. pose proof (p10_pos (grid_exp B)) as HGy.
  apply Rabs_le_inv in Hbx. apply Rabs_le_inv in Hby.
  destruct (Z.eq_dec (grid_exp A) (grid_exp B)) as [Heq|Hne].
  - rewrite <- Heq in *. destruct (Rle_or_lt rx ry) as [|Hlt]; [done|]. exfalso.
    assert (jy < jx)%Z by (apply (grid_le _ _ _ HGx); lra).
    pose proof (grid_step _ _ _ HGx H). lra.
  - assert (HgB : grid_exp B = (B + 1 - prec)%Z).
    { unfold grid_exp in *. lia. }
    assert (HA1 : (A + 1 <= B)%Z).
    { destruct (Z.eq_dec A B) as [->|]; [lia|lia]. }
    assert (Hprec : prec = 28%Z) by reflexivity.
    pose proof (p10_le (A + 1) B HA1) as HP.
    assert (HPy : p10 B = IZR (10 ^ (B - grid_exp B)) * p10 (grid_exp B)).
    { apply p10_split. lia. }
    assert (HPx : p10 B = IZR (10 ^ (B - grid_exp A)) * p10 (grid_exp A)).
    { apply p10_split. lia. }
    assert (Hry_ge : p10 B <= ry).
    { destruct (Rle_or_lt (p10 B) ry) as [|Hlt]; [done|]. exfalso.
      assert (jy < 10 ^ (B - grid_exp B))%Z by (apply (grid_le _ _ _ HGy); lra).
      pose proof (grid_step _ _ _ HGy H). lra. }
    assert (Hrx_le : rx <= p10 B).
    { destruct (Rle_or_lt rx (p10 B)) as [|Hlt]; [done|]. exfalso.
      assert (10 ^ (B - grid_exp A) < jx)%Z by (apply (grid_le _ _ _ HGx); lra).
      pose proof (grid_step _ _ _ HGx H). lra. }
    lra.
Qed.

Lemma correctly_rounded_mono (x y rx ry : R) :
  x <= y -> correctly_rounded x rx -> correctly_rounded y ry -> rx <= ry.
Proof.
  intros Hxy Hx Hy.
  destruct (Req_dec x y) as [->|Hne].
  { right. by apply (correctly_rounded_unique y). }
  destruct (Rlt_or_le 0 x) as [Hpos|Hnp].
  - apply (correctly_rounded_mono_pos x y); [lra|lra|done|done].
  - destruct (Rle_or_lt 0 y) as [Hy0|Hneg].
    + pose proof (correctly_rounded_nonpos _ _ Hx Hnp).
      pose proof (correctly_rounded_nonneg _ _ Hy Hy0). lra.
    + apply correctly_rounded_opp in Hx, Hy.
      pose proof (correctly_rounded_mono_pos (- y) (- x) (- ry) (- rx)
                    ltac:(lra) ltac:(lra) Hy Hx). lra.
Qed.

Lemma representable_correctly_rounded (x : R) :
  representable x -> correctly_rounded x x.
Proof.
  intros (j & e & -> & Hj & He).
  destruct (Z.eq_dec j 0%Z) as [->|Hnz].
  { left. split; simpl; ring. }
  right. set (c := Z.abs j). assert (Hc : (0 < c)%Z) by lia.
  destruct (ndigits_spec c Hc) as (Hn1 & Hlo & Hhi).
  set (A := (ndigits c + e - 1)%Z).
  assert (Hn : (ndigits c <= prec)%Z).
  { assert (ndigits c - 1 < prec)%Z; [|lia].
    apply pow10_lt_inv; [lia|done|lia]. }
  assert (Hg : (grid_exp A <= e)%Z) by (unfold grid_exp, A; lia).
  exists A, (j * 10 ^ (e - grid_exp A))%Z.
  pose proof (p10_pos e).
  split.
  { unfold decade. rewrite Rabs_mult, (Rabs_pos_eq (p10 e)), <- abs_IZR by lra.
    by apply decade_coef. }
  split.
  { rewrite (p10_split e (grid_exp A) Hg), mult_IZR. ring. }
  rewrite Rminus_diag, Rabs_R0. pose proof (p10_pos (grid_exp A)).
  split; [lra|]. intros; lra.
Qed.

Lemma correctly_rounded_exact (x r : R) :
  representable x -> correctly_rounded x r -> r = x.
Proof.
  intros Hx Hr. apply (correctly_rounded_unique x); [done|].
  by apply representable_correctly_rounded.
Qed.

End CorrectRoundingMonotone.

(** ** Addition, subtraction, multiplication and absolute value *)

Section Operations.
Import Decimal DecimalValue.
Local Open Scope R_scope.

Lemma to_R_mk_signed (s : Z) (e : Z) :
  to_R (mk (s <? 0)%Z (Z.abs s) e) = IZR s * p10 e.
Proof.
  rewrite to_R_mk by lia. destruct (Z.ltb_spec s 0); do 2 f_equal; lia.
Qed.

Lemma add_correctly_rounded (a b c : t) :
  add a b = Ok c -> correctly_rounded (to_R a + to_R b) (to_R c).
Proof.
  unfold add. set (e := Z.min (dexp a) (dexp b)).
  destruct (is_zero a && is_zero b) eqn:Hz; intros H.
  - apply andb_true_iff in Hz. destruct Hz as [Ha Hb].
    apply Z.eqb_eq in Ha, Hb. apply fix_correctly_rounded in H.
    rewrite (to_R_zero a Ha), (to_R_zero b Hb), Rplus_0_r.
    rewrite to_R_zero in H; [done|]. by rewrite coef_mk.
  - apply fix_correctly_rounded in H. rewrite to_R_mk_signed in H.
    rewrite (to_R_scaled a e), (to_R_scaled b e) by lia.
    rewrite plus_IZR, Rmult_plus_distr_r in H. exact H.
Qed.

Lemma to_R_copy_negate (a : t) : to_R (copy_negate a) = - to_R a.
Proof.
  rewrite !to_R_sign. unfold copy_negate, coef. cbn [dsign dint dexp].
  destruct (dsign a); cbn [negb]; ring.
Qed.

Lemma to_R_copy_abs (a : t) : to_R (copy_abs a) = Rabs (to_R a).
Proof.
  rewrite Rabs_to_R, to_R_sign. unfold copy_abs, coef. cbn [dsign dint dexp]. ring.
Qed.

Lemma sub_correctly_rounded (a b c : t) :
  sub a b = Ok c -> correctly_rounded (to_R a - to_R b) (to_R c).
Proof.
  unfold sub. intros H. apply add_correctly_rounded in H.
  by rewrite to_R_copy_negate in H.
Qed.

Lemma abs_correctly_rounded (a c : t) :
  abs a = Ok c -> correctly_rounded (Rabs (to_R a)) (to_R c).
Proof.
  unfold abs. intros H. apply fix_correctly_rounded in H.
  by rewrite to_R_copy_abs in H.
Qed.

Lemma mul_correctly_rounded (a b c : t) :
  mul a b = Ok c -> correctly_rounded (to_R a * to_R b) (to_R c).
Proof.
  unfold mul. intros H. apply fix_correctly_rounded in H.
  pose proof (coef_nonneg a). pose proof (coef_nonneg b).
  rewrite to_R_mk in H by nia.
  replace (to_R a * to_R b)
    with (IZR (if xorb (dsign a) (dsign b) then (- (coef a * coef b))%Z
               else (coef a * coef b)%Z) * p10 (dexp a + dexp b)); [done|].
  rewrite !to_R_sign, p10_add.
  destruct (dsign a), (dsign b); cbn [xorb]; rewrite ?opp_IZR, mult_IZR; ring.
Qed.

End Operations.

(** ** Division: the sticky digit *)

Section Sticky.
Import Decimal.

Lemma mod5_mul (z : Z) : (5 * z) mod 5 = 0.
Proof. rewrite Z.mul_comm. apply Z.mod_mul. lia. Qed.

Lemma mod5_mul_plus1 (z : Z) : (5 * z + 1) mod 5 = 1.
Proof. rewrite Z.add_comm, Z.mul_comm, Z.mod_add by lia. reflexivity. Qed.

(** An inexact quotient [N / D] with its sticky digit rounds, under
    half-even, strictly within half a unit of the true quotient. *)
Lemma sticky_round (N D k : Z) :
  0 <= N -> 0 < D -> 1 <= k -> N mod D <> 0 ->
  let coeff := N / D in
  let q' := if coeff mod 5 =? 0 then coeff + 1 else coeff in
  let Q := Rounded.half_even q' k in
  2 * Z.abs (N - Q * 10 ^ k * D) < 10 ^ k * D.
Proof.
  intros HN HD Hk Hrem coeff q' Q.
  pose proof (Z.div_mod N D ltac:(lia)) as Hdm.
  pose proof (Z.mod_pos_bound N D HD) as Hr.
  pose proof (Z.div_pos N D HN HD) as Hc. fold coeff in Hdm, Hc.
  set (rem := N mod D) in *.
  pose proof (pow10_pos (k - 1) ltac:(lia)) as Hm.
  pose proof (pow10_half k Hk) as HP.
  set (m := 10 ^ (k - 1)) in *. set (P := 10 ^ k) in *.
  assert (Hq' : 0 <= q') by (unfold q'; destruct (coeff mod 5 =? 0); lia).
  destruct (half_even_spec q' k Hq' Hk) as (HQ0 & Hb & _).
  fold Q P in HQ0, Hb.
  set (delta := q' - Q * P) in *.
  assert (Hdelta : - (5 * m) < delta < 5 * m).
  { assert (Hne1 : delta <> 5 * m).
    { intros He. unfold delta, q' in He.
      destruct (Z.eqb_spec (coeff mod 5) 0) as [H5|H5].
      - assert (H1 : (coeff + 1) mod 5 = 0).
        { replace (coeff + 1) with (5 * (2 * Q * m + m)) by lia. apply mod5_mul. }
        rewrite <- Z.add_mod_idemp_l, H5 in H1 by lia. discriminate.
      - apply H5. replace coeff with (5 * (2 * Q * m + m)) by lia. apply mod5_mul. }
    assert (Hne2 : delta <> - (5 * m)).
    { intros He. unfold delta, q' in He.
      destruct (Z.eqb_spec (coeff mod 5) 0) as [H5|H5].
      - assert (H1 : (coeff + 1) mod 5 = 0).
        { replace (coeff + 1) with (5 * (2 * Q * m - m)) by lia. apply mod5_mul. }
        rewrite <- Z.add_mod_idemp_l, H5 in H1 by lia. discriminate.
      - apply H5. replace coeff with (5 * (2 * Q * m - m)) by lia. apply mod5_mul. }
    lia. }
  assert (Hexp : N - Q * P * D = (coeff - Q * P) * D + rem) by lia.
  rewrite Hexp. unfold delta, q' in Hdelta.
  destruct (coeff mod 5 =? 0); nia.
Qed.

End Sticky.

(** ** Division rounds correctly *)

Section Division.
Import Decimal DecimalValue Quotient.

Lemma truediv_unfold (a b : t) :
  is_zero a = false -> is_zero b = false ->
  truediv a b =
    let sign := xorb (dsign a) (dsign b) in
    let N := div_num a b in
    let D := div_den a b in
    if negb (N mod D =? 0) then fix_ (mk sign (sticky (N / D)) (div_exp a b))
    else
      let '(coeff, exp) :=
        strip_zeros (Z.to_nat (dexp a - dexp b - div_exp a b)) (N / D)
          (div_exp a b) (dexp a - dexp b) in
      fix_ (mk sign coeff exp).
Proof.
  intros Ha Hb. unfold truediv. rewrite Ha, Hb.
  unfold div_num, div_den, div_exp, div_shift, sticky.
  destruct (0 <=? ndigits (coef b) - ndigits (coef a) + prec + 1); reflexivity.
Qed.

Lemma strip_zeros_spec (fuel : nat) :
  forall c e ideal c' e',
    0 < c -> strip_zeros fuel c e ideal = (c', e') ->
    0 < c' /\ e <= e' /\ c = c' * 10 ^ (e' - e).
Proof.
  induction fuel as [|f IH]; intros c e ideal c' e' Hc H.
  - cbn in H. injection H as <- <-. rewrite Z.sub_diag. cbn. lia.
  - cbn [strip_zeros] in H.
    destruct ((e <? ideal) && (c mod 10 =? 0)) eqn:Hcond.
    + apply andb_true_iff in Hcond. destruct Hcond as [_ Hmod].
      apply Z.eqb_eq in Hmod.
      pose proof (Z.div_mod c 10 ltac:(lia)) as Hdm. rewrite Hmod in Hdm.
      destruct (IH (c / 10) (e + 1) ideal c' e' ltac:(lia) H) as (Hc' & He & Hval).
      split; [done|]. split; [lia|].
      replace (e' - e) with (e' - (e + 1) + 1) by lia.
      rewrite pow10_succ by lia. lia.
    + injection H as <- <-. rewrite Z.sub_diag. cbn. lia.
Qed.

Lemma div_den_pos (a b : t) : 0 < coef b -> 0 < div_den a b.
Proof.
  intros Hb. unfold div_den. destruct (Z.leb_spec 0 (div_shift a b)); [done|].
  pose proof (pow10_pos (- div_shift a b) ltac:(lia)). nia.
Qed.

Lemma div_num_pos (a b : t) : 0 < coef a -> 0 < div_num a b.
Proof.
  intros Ha. unfold div_num. destruct (Z.leb_spec 0 (div_shift a b)); [|done].
  pose proof (pow10_pos (div_shift a b) ltac:(lia)). nia.
Qed.

Lemma pow10_add (x y : Z) : 0 <= x -> 0 <= y -> 10 ^ (x + y) = 10 ^ x * 10 ^ y.
Proof. intros. by apply Z.pow_add_r. Qed.

(** The integer quotient has [prec + 1] or [prec + 2] digits. *)
Lemma div_quotient_digits (a b : t) :
  0 < coef a -> 0 < coef b ->
  10 ^ prec * div_den a b <= div_num a b < 10 ^ (prec + 2) * div_den a b.
Proof.
  intros Ha Hb.
  destruct (ndigits_spec (coef a) Ha) as (Hna & Hla & Hua).
  destruct (ndigits_spec (coef b) Hb) as (Hnb & Hlb & Hub).
  unfold div_num, div_den. set (s := div_shift a b).
  assert (Hs : s = ndigits (coef b) - ndigits (coef a) + prec + 1) by reflexivity.
  set (na := ndigits (coef a)) in *. set (nb := ndigits (coef b)) in *.
  set (ca := coef a) in *. set (cb := coef b) in *.
  assert (Hprec : prec = 28) by reflexivity.
  destruct (Z.leb_spec 0 s) as [Hs0|Hs0].
  - pose proof (pow10_pos s Hs0) as Hps.
    assert (H1 : 10 ^ (na - 1) * 10 ^ s = 10 ^ prec * 10 ^ nb).
    { rewrite <- !pow10_add by lia. f_equal. lia. }
    assert (H2 : 10 ^ na * 10 ^ s = 10 ^ (prec + 2) * 10 ^ (nb - 1)).
    { rewrite <- !pow10_add by lia. f_equal. lia. }
    pose proof (pow10_pos prec ltac:(lia)). pose proof (pow10_pos (prec + 2) ltac:(lia)).
    split; nia.
  - pose proof (pow10_pos (- s) ltac:(lia)) as Hps.
    assert (H1 : 10 ^ prec * (10 ^ nb * 10 ^ (- s)) = 10 ^ (na - 1)).
    { rewrite <- !pow10_add by lia. f_equal. lia. }
    assert (H2 : 10 ^ (prec + 2) * (10 ^ (nb - 1) * 10 ^ (- s)) = 10 ^ na).
    { rewrite <- !pow10_add by lia. f_equal. lia. }
    pose proof (pow10_pos prec ltac:(lia)). pose proof (pow10_pos (prec + 2) ltac:(lia)).
    split; nia.
Qed.

Local Open Scope R_scope.

(** The exact quotient, from the scaled coefficients. *)
Lemma div_exact_value (a b : t) :
  (0 < coef a)%Z -> (0 < coef b)%Z ->
  IZR (coef a) * p10 (dexp a) / (IZR (coef b) * p10 (dexp b))
  = IZR (div_num a b) / IZR (div_den a b) * p10 (div_exp a b).
Proof.
  intros Ha Hb. unfold div_num, div_den, div_exp. set (s := div_shift a b).
  pose proof (p10_pos (dexp a)). pose proof (p10_pos (dexp b)).
  pose proof (p10_pos s) as Hps. pose proof (p10_pos (- s)) as Hpns.
  apply IZR_lt in Ha, Hb.
  replace (dexp a - dexp b - s)%Z with (dexp a + (- dexp b) + (- s))%Z by lia.
  rewrite !p10_add.
  assert (Hinv : p10 (- dexp b) = / p10 (dexp b)).
  { unfold p10. apply powerRZ_neg'. }
  assert (Hinvs : p10 (- s) = / p10 s).
  { unfold p10. apply powerRZ_neg'. }
  destruct (Z.leb_spec 0 s) as [Hs0|Hs0].
  - rewrite mult_IZR, <- p10_IZR by lia. rewrite Hinv, Hinvs. field. lra.
  - rewrite mult_IZR, <- p10_IZR by lia. rewrite Hinv. field. lra.
Qed.

End Division.

Section DivisionRounds.
Import Decimal DecimalValue Quotient.

Lemma sticky_digits (coeff : Z) :
  10 <= coeff ->
  ndigits (sticky coeff) = ndigits coeff /\ coeff <= sticky coeff <= coeff + 1.
Proof.
  intros Hc. unfold sticky.
  destruct (Z.eqb_spec (coeff mod 5) 0) as [H5|H5]; [|lia].
  split; [|lia].
  destruct (ndigits_spec coeff ltac:(lia)) as (Hn & Hlo & Hhi).
  apply ndigits_unique; [done|]. split; [lia|].
  destruct (Z.eq_dec (coeff + 1) (10 ^ ndigits coeff)) as [Heq|]; [exfalso|lia].
  assert (Hn2 : 2 <= ndigits coeff).
  { destruct (Z_le_gt_dec 2 (ndigits coeff)); [done|].
    assert (ndigits coeff = 1) by lia. rewrite H in Hhi. simpl in Hhi. lia. }
  assert (H1 : (coeff + 1) mod 5 = 0).
  { rewrite Heq. replace (ndigits coeff) with (ndigits coeff - 1 + 1) by lia.
    rewrite pow10_succ by lia.
    replace (10 * 10 ^ (ndigits coeff - 1)) with (5 * (2 * 10 ^ (ndigits coeff - 1))) by lia.
    apply mod5_mul. }
  rewrite <- Z.add_mod_idemp_l, H5 in H1 by lia. discriminate.
Qed.

Local Open Scope R_scope.

Lemma Rdiv_bounds (n d lo hi : R) :
  0 < d -> lo * d <= n -> n < hi * d -> lo <= n / d < hi.
Proof.
  intros Hd Hlo Hhi. assert (Hn : n / d * d = n) by (field; lra).
  split; [apply (Rmult_le_reg_r d)|apply (Rmult_lt_reg_r d)]; lra.
Qed.

Lemma to_R_div_sign (a b : t) :
  (0 < coef b)%Z ->
  to_R a / to_R b
  = (if xorb (dsign a) (dsign b) then -1 else 1)
    * (IZR (coef a) * p10 (dexp a) / (IZR (coef b) * p10 (dexp b))).
Proof.
  intros Hb. rewrite !to_R_sign. apply IZR_lt in Hb. pose proof (p10_pos (dexp b)).
  destruct (dsign a), (dsign b); cbn [xorb]; field; lra.
Qed.

Lemma to_R_mk_sign (s : bool) (c e : Z) :
  (0 <= c)%Z -> to_R (mk s c e) = (if s then -1 else 1) * (IZR c * p10 e).
Proof.
  intros Hc. rewrite to_R_mk by done. destruct s; [rewrite opp_IZR|]; ring.
Qed.

Lemma correctly_rounded_signed (s : bool) (x r : R) :
  correctly_rounded x r ->
  correctly_rounded ((if s then -1 else 1) * x) ((if s then -1 else 1) * r).
Proof.
  intros H. destruct s.
  - replace (-1 * x) with (- x) by ring. replace (-1 * r) with (- r) by ring.
    by apply correctly_rounded_opp.
  - by rewrite !Rmult_1_l.
Qed.

(** The inexact case: rounding the quotient with its sticky digit is
    rounding the true quotient. *)
Lemma div_inexact_rounded (N D e : Z) (s : bool) (c : t) :
  (0 < D)%Z -> (10 ^ prec * D <= N)%Z -> (N mod D <> 0)%Z ->
  fix_ (mk s (sticky (N / D)) e) = Ok c ->
  correctly_rounded ((if s then -1 else 1) * (IZR N / IZR D * p10 e)) (to_R c).
Proof.
  intros HD HN Hrem Hfix.
  assert (Hprec : prec = 28%Z) by reflexivity.
  pose proof (pow10_pos prec ltac:(lia)) as Hpp.
  assert (HN0 : (0 <= N)%Z) by nia.
  set (coeff := (N / D)%Z) in *.
  assert (Hcoeff : (10 ^ prec <= coeff)%Z).
  { apply Z.div_le_lower_bound; lia. }
  assert (H10 : (10 <= coeff)%Z).
  { pose proof (pow10_le 1 prec ltac:(lia)). change (10 ^ 1)%Z with 10%Z in H. lia. }
  destruct (sticky_digits coeff H10) as (Hnd & Hst).
  set (q' := sticky coeff) in *.
  assert (Hq'pos : (0 < q')%Z) by lia.
  destruct (ndigits_spec coeff ltac:(lia)) as (Hn & Hlo & Hhi).
  rewrite <- Hnd in Hn, Hlo, Hhi. set (n := ndigits q') in *.
  assert (Hnprec : (prec < n)%Z).
  { apply pow10_lt_inv; [lia|lia|lia]. }
  destruct (fix_shape _ _ Hfix) as [[Hz _]|(_ & g & Hg & Hgtop & Hcases)].
  { rewrite coef_mk in Hz by lia. lia. }
  rewrite coef_mk in Hg, Hcases by lia. cbn [dexp mk] in Hg, Hcases. fold n in Hg.
  destruct Hcases as [[Hge _]|(Hlt & q'' & e'' & -> & Hq'' & He'' & Hval)]; [lia|].
  cbn [dsign mk] in *.
  rewrite to_R_mk_sign by lia. apply correctly_rounded_signed.
  rewrite Hval. set (k := (g - e)%Z) in *.
  set (Q := Rounded.half_even q' k) in *.
  assert (Hst2 : (2 * Z.abs (N - Q * 10 ^ k * D) < 10 ^ k * D)%Z)
    by exact (sticky_round N D k HN0 HD ltac:(lia) Hrem).
  pose proof (Z.div_mod N D ltac:(lia)) as Hdm. fold coeff in Hdm.
  pose proof (Z.mod_pos_bound N D HD) as Hr.
  right. exists (n + e - 1)%Z, Q.
  assert (Hgrid : grid_exp (n + e - 1) = g).
  { unfold grid_exp. rewrite Hg. f_equal. lia. }
  rewrite Hgrid.
  pose proof (p10_pos e) as Hpe. pose proof (p10_pos g) as Hpg.
  assert (HDr : 0 < IZR D) by (by apply IZR_lt).
  assert (Hquot : IZR (10 ^ (n - 1)) <= IZR N / IZR D < IZR (10 ^ n)).
  { apply Rdiv_bounds; [done| |]; rewrite <- mult_IZR; [apply IZR_le|apply IZR_lt]; nia. }
  split.
  { unfold decade.
    assert (0 <= IZR N / IZR D * p10 e).
    { apply Rmult_le_pos; [|lra].
      pose proof (IZR_le 0 (10 ^ (n - 1)) ltac:(pose proof (pow10_pos (n - 1)); lia)). lra. }
    rewrite Rabs_pos_eq by done.
    replace (n + e - 1 + 1)%Z with (n + e)%Z by lia.
    replace (n + e - 1)%Z with ((n - 1) + e)%Z by lia.
    rewrite !p10_add, (p10_IZR (n - 1)), (p10_IZR n) by lia. nra. }
  split; [reflexivity|].
  assert (Hpg' : p10 g = IZR (10 ^ k) * p10 e) by (apply p10_split; lia).
  assert (Hlt' : Rabs (IZR N / IZR D * p10 e - IZR Q * p10 g) < p10 g / 2).
  { rewrite Hpg'.
    replace (IZR N / IZR D * p10 e - IZR Q * (IZR (10 ^ k) * p10 e))
      with ((IZR N - IZR Q * IZR (10 ^ k) * IZR D) / IZR D * p10 e) by (field; lra).
    rewrite Rabs_mult, (Rabs_pos_eq (p10 e)) by lra.
    unfold Rdiv at 1. rewrite Rabs_mult, Rabs_inv, (Rabs_pos_eq (IZR D)) by lra.
    rewrite <- !mult_IZR, <- minus_IZR, <- abs_IZR.
    apply IZR_lt in Hst2. rewrite !mult_IZR in Hst2. simpl (IZR 2) in Hst2.
    set (T := IZR (Z.abs (N - Q * 10 ^ k * D))) in *.
    assert (T * / IZR D < IZR (10 ^ k) / 2).
    { apply (Rmult_lt_reg_r (IZR D)); [done|].
      rewrite Rmult_assoc, Rinv_l, Rmult_1_r by lra. nra. }
    nra. }
  split; [lra|]. intros Heq. lra.
Qed.

End DivisionRounds.

Section DivisionTheorem.
Import Decimal DecimalValue Quotient.
Local Open Scope R_scope.

Lemma truediv_nonzero_divisor (a b c : t) : truediv a b = Ok c -> (0 < coef b)%Z.
Proof.
  unfold truediv, is_zero. pose proof (coef_nonneg b).
  destruct (Z.eqb_spec (coef b) 0%Z); [destruct (coef a =? 0)%Z; discriminate|lia].
Qed.

Theorem truediv_correctly_rounded (a b c : t) :
  truediv a b = Ok c ->
  to_R b <> 0 /\ correctly_rounded (to_R a / to_R b) (to_R c).
Proof.
  intros H. pose proof (truediv_nonzero_divisor a b c H) as Hb.
  assert (Hbz : is_zero b = false) by (apply Z.eqb_neq; lia).
  assert (Hbr : to_R b <> 0).
  { intros E. apply to_R_zero_inv in E. lia. }
  split; [exact Hbr|].
  pose proof (coef_nonneg a) as Ha0.
  destruct (Z.eq_dec (coef a) 0%Z) as [Haz|Hanz].
  { assert (Haz' : is_zero a = true) by (by apply Z.eqb_eq).
    unfold truediv in H. rewrite Hbz, Haz' in H. cbv iota in H.
    apply fix_correctly_rounded in H.
    rewrite to_R_zero in H by (by rewrite coef_mk).
    rewrite (to_R_zero a Haz). replace (0 / to_R b) with 0 by (field; done). exact H. }
  assert (Ha : (0 < coef a)%Z) by lia.
  rewrite truediv_unfold in H by (try done; apply Z.eqb_neq; lia).
  cbv zeta in H.
  rewrite to_R_div_sign by done. rewrite div_exact_value by done.
  pose proof (div_den_pos a b Hb) as HD.
  pose proof (div_quotient_digits a b Ha Hb) as [HND _].
  set (N := div_num a b) in *. set (D := div_den a b) in *.
  set (e := div_exp a b) in *.
  destruct (Z.eqb_spec (N mod D) 0%Z) as [Hrem|Hrem]; cbn [negb] in H.
  - pose proof (pow10_pos prec ltac:(vm_compute; discriminate)) as Hpp.
    assert (Hcoeff : (0 < N / D)%Z).
    { apply Z.div_str_pos. nia. }
    destruct (strip_zeros _ (N / D)%Z e (dexp a - dexp b)%Z) as [c' e'] eqn:Hstrip.
    apply strip_zeros_spec in Hstrip; [|done].
    destruct Hstrip as (Hc' & He' & Hval).
    apply fix_correctly_rounded in H. rewrite to_R_mk_sign in H by lia.
    replace (IZR N / IZR D * p10 e) with (IZR c' * p10 e'); [exact H|].
    pose proof (Z.div_mod N D ltac:(lia)) as Hdm. rewrite Hrem, Z.add_0_r in Hdm.
    rewrite (p10_split e' e He').
    assert (HDr : 0 < IZR D) by (by apply IZR_lt).
    rewrite Hdm at 1. rewrite Hval, !mult_IZR. field. lra.
  - by apply div_inexact_rounded.
Qed.

End DivisionTheorem.

(** ** quantize(Decimal('0.01'), rounding=ROUND_HALF_UP) *)

Section Quantize.
Import Decimal WeightedScoringCalculator Reference.

Lemma half_up_formula (c k : Z) :
  0 <= c -> 1 <= k -> Rounded.half_up c k = (2 * c + 10 ^ k) / (2 * 10 ^ k).
Proof.
  intros Hc Hk. unfold Rounded.half_up, round_half_up.
  pose proof (pow10_pos k ltac:(lia)) as Hp.
  pose proof (pow10_half k Hk) as Hh.
  pose proof (Z.div_mod c (10 ^ k) ltac:(lia)) as Hdm.
  pose proof (Z.mod_pos_bound c (10 ^ k) Hp) as Hr.
  set (q := c / 10 ^ k) in *. set (r := c mod 10 ^ k) in *.
  set (h := 5 * 10 ^ (k - 1)) in *. set (P := 10 ^ k) in *.
  destruct (Z.leb_spec h r).
  - change (1 =? 1) with true. cbv iota.
    apply (Z.div_unique _ _ _ (2 * r - P)); lia.
  - assert (((if r =? 0 then 0 else -1) =? 1) = false) as ->
      by (destruct (r =? 0); reflexivity).
    rewrite Z.add_0_r. apply (Z.div_unique _ _ _ (2 * r + P)); lia.
Qed.

Lemma half_up_small (c k : Z) :
  0 <= c -> 1 <= k -> c < 10 ^ (k - 1) -> Rounded.half_up c k = 0.
Proof.
  intros Hc Hk Hlt.
  destruct (half_up_spec c k Hc Hk) as (Hq & Hb & _).
  pose proof (pow10_half k Hk). pose proof (pow10_pos (k - 1) ltac:(lia)).
  set (q := Rounded.half_up c k) in *. nia.
Qed.

(** The coefficient [_rescale] leaves at exponent -2. *)
Lemma rescale_cents (d : t) :
  rescale round_half_up d (-2) = round2 d.
Proof.
  unfold rescale, round2, half_up_cents. pose proof (coef_nonneg d) as Hc.
  set (c := coef d) in *. set (e := dexp d) in *.
  destruct (Z.eqb_spec c 0) as [Hz|Hnz].
  { rewrite Hz. destruct (Z.leb_spec (-2) e) as [|Hlt]; [by rewrite Z.mul_0_l|].
    f_equal. symmetry. apply Z.div_small.
    pose proof (pow10_pos (- 2 - e) ltac:(lia)). lia. }
  destruct (Z.leb_spec (-2) e) as [Hge|Hlt].
  { replace (e - -2) with (e + 2) by lia. reflexivity. }
  f_equal. rewrite <- half_up_formula by lia.
  destruct (ndigits_spec c ltac:(lia)) as (Hn & Hlo & Hhi).
  destruct (Z.ltb_spec (ndigits c + e - -2) 0) as [Hneg|Hpos].
  - rewrite half_up_small; [reflexivity|lia|lia|].
    eapply Z.lt_le_trans; [exact Hhi|]. apply pow10_le. lia.
  - unfold Rounded.half_up.
    destruct (round_half_up c (-2 - e) =? 1); [reflexivity|by rewrite Z.add_0_r].
Qed.

Lemma fix_unchanged (d : t) :
  (coef d = 0 -> Etiny <= dexp d <= Emax) ->
  (0 < coef d -> ndigits (coef d) <= prec /\ Etiny <= dexp d
                 /\ ndigits (coef d) + dexp d - prec <= Etop) ->
  fix_ d = Ok d.
Proof.
  intros Hz Hnz. unfold fix_. pose proof (coef_nonneg d).
  destruct (Z.eqb_spec (coef d) 0) as [H0|H0].
  - specialize (Hz H0). rewrite Z.max_l, Z.min_l by lia.
    destruct d as [s i e]. unfold mk, coef in *. cbn in *. f_equal. f_equal. lia.
  - destruct (Hnz ltac:(lia)) as (Hn & He & Htop).
    destruct (Z.ltb_spec Etop (ndigits (coef d) + dexp d - prec)); [lia|].
    destruct (Z.ltb_spec (dexp d) (Z.max (ndigits (coef d) + dexp d - prec) Etiny));
      [lia|reflexivity].
Qed.

(** What the calculator's quantization returns, when it returns. *)
Lemma quantize2_round2 (d q : t) : quantize2 d = Ok q -> q = round2 d.
Proof.
  unfold quantize2, quantize. cbn [dexp cent].
  assert (HE : (Etiny <=? -2) && (-2 <=? Emax) = true) by reflexivity.
  rewrite HE. cbn [negb].
  destruct (is_zero d) eqn:Hz.
  { apply Z.eqb_eq in Hz. intros H.
    rewrite fix_unchanged in H.
    - injection H as <-. unfold round2, half_up_cents. rewrite Hz.
      destruct (Z.leb_spec (-2) (dexp d)); [by rewrite Z.mul_0_l|].
      f_equal. symmetry. apply Z.div_small.
      pose proof (pow10_pos (- 2 - dexp d) ltac:(lia)). lia.
    - intros _. cbn. vm_compute. split; discriminate.
    - rewrite coef_mk by lia. lia. }
  destruct (Emax <? adjusted d); [discriminate|].
  destruct (prec <? adjusted d - -2 + 1); [discriminate|].
  rewrite rescale_cents.
  destruct (Z.ltb_spec Emax (adjusted (round2 d))) as [|Hadj]; [discriminate|].
  destruct (Z.ltb_spec prec (ndigits (coef (round2 d)))) as [|Hnd]; [discriminate|].
  rewrite fix_unchanged; [by intros [= <-]| |].
  - intros _. unfold round2. cbn. vm_compute. split; discriminate.
  - intros _. unfold adjusted in Hadj.
    assert (dexp (round2 d) = -2) as He by reflexivity. rewrite He in *.
    split; [done|]. split; [vm_compute; discriminate|]. unfold Etop, prec, Emax in *. lia.
Qed.

End Quantize.

(** ** The totals of calculate_weighted_score are rounded half-up *)

Section RoundedTotals.
Import Decimal WeightedScoringCalculator Reference.

Lemma loop_values (m : gmap Z Decimal.t) (max_score : Z) (criteria : list criterion) :
  forall bd acc bd' ws,
    loop m max_score criteria (bd, acc) = Ok (bd', ws) ->
    exists values new,
      mapM (fun c => weighted_value_of (default d0 (m !! c_id c))
                       (max_points_of c) (weight_of c) max_score) criteria = Ok values
      /\ add_all acc values = Ok ws
      /\ bd' = bd ++ new
      /\ map weighted_score new = map round2 values.
Proof.
  induction criteria as [|c rest IH]; intros bd acc bd' ws H.
  - cbn in H. injection H as <- <-. exists [], []. by rewrite app_nil_r.
  - cbn [loop] in H. unfold step in H at 1.
    cbn [mapM].
    destruct (weighted_value_of _ _ _ _) as [v|]; [|discriminate]. cbn [rbind] in *.
    destruct (quantize2 v) as [q|] eqn:Hq; [|discriminate]. cbn [rbind] in H.
    destruct (add acc v) as [acc'|] eqn:Hadd; [|discriminate]. cbn [rbind] in H.
    apply IH in H. destruct H as (values & new & -> & Hall & -> & Hmap).
    cbn [rbind]. eexists _, (_ :: new). split; [reflexivity|].
    cbn [add_all]. rewrite Hadd. cbn [rbind].
    split; [exact Hall|]. split; [by rewrite <- app_assoc|].
    cbn [map weighted_score]. rewrite Hmap. f_equal. by apply quantize2_round2.
Qed.

Lemma mapM_ext {A B : Type} (f g : A -> result B) (l : list A) :
  (forall x, x ∈ l -> f x = g x) -> mapM f l = mapM g l.
Proof.
  induction l as [|x rest IH]; intros H; [reflexivity|].
  cbn [mapM]. rewrite (H x) by left. rewrite IH; [reflexivity|].
  intros y Hy. apply H. by right.
Qed.

(** On a tie the two rounding rules differ: 0.125 goes to 0.13 half-up
    and to 0.12 half-even. *)
Lemma half_up_is_not_half_even :
  half_up_cents 125 (-3) = 13 /\ half_even_cents 125 (-3) = 12.
Proof. split; reflexivity. Qed.

End RoundedTotals.

(** ** The range of [_fix] *)

Section FixRange.
Import Decimal DecimalValue.

Lemma fix_fixed (d d' : t) : fix_ d = Ok d' -> fixed d'.
Proof.
  intros H. assert (Hprec : prec = 28) by reflexivity.
  assert (HE : Etiny <= Etop /\ Etop + prec - 1 = Emax /\ Etiny <= Emax) by (vm_compute; repeat split; discriminate).
  destruct (fix_shape d d' H) as [[Hz ->]|(Hc & g & Hg & Hgtop & Hcases)].
  { unfold fixed. rewrite coef_mk by lia. cbn [dexp mk]. rewrite ndigits_0.
    pose proof (pow10_pos prec ltac:(lia)). lia. }
  destruct (ndigits_spec (coef d) Hc) as (Hn & Hlo & Hhi).
  destruct Hcases as [[Hge ->]|(Hlt & q' & e' & -> & Hq' & He' & _)].
  - unfold fixed. split; [|lia].
    eapply Z.lt_le_trans; [exact Hhi|]. apply pow10_le. lia.
  - unfold fixed. rewrite coef_mk by lia. cbn [dexp mk].
    split; [lia|]. split; [lia|].
    destruct (Z.eq_dec q' 0) as [->|Hnz]; [rewrite ndigits_0; lia|].
    destruct (ndigits_spec q' ltac:(lia)) as (Hn' & Hlo' & _).
    assert (ndigits q' - 1 < prec); [|lia].
    apply pow10_lt_inv; lia.
Qed.

Lemma fixed_digits (d : t) : fixed d -> ndigits (coef d) <= prec.
Proof.
  intros (Hc & _). pose proof (coef_nonneg d).
  destruct (Z.eq_dec (coef d) 0) as [->|Hnz]; [rewrite ndigits_0; vm_compute; discriminate|].
  destruct (ndigits_spec (coef d) ltac:(lia)) as (Hn' & Hlo' & _).
  assert (ndigits (coef d) - 1 < prec); [|lia].
  apply pow10_lt_inv; [lia|vm_compute; discriminate|lia].
Qed.

Lemma fixed_fix (d : t) : fixed d -> fix_ d = Ok d.
Proof.
  intros Hf. pose proof (fixed_digits d Hf) as Hn. destruct Hf as (Hc & He & Htop).
  apply fix_unchanged.
  - intros Hz. rewrite Hz, ndigits_0 in Htop. unfold Etop in Htop. lia.
  - intros _. lia.
Qed.

Lemma fix_raise_shape (d : t) (ex : exn) :
  fix_ d = Raise ex ->
  0 < coef d
  /\ (Etop < ndigits (coef d) + dexp d - prec
      \/ (dexp d < Etop
          /\ Rounded.half_even (coef d) (Etop - dexp d) = 10 ^ prec)).
Proof.
  unfold fix_. pose proof (coef_nonneg d) as Hc0.
  destruct (Z.eqb_spec (coef d) 0) as [Hz|Hnz]; [discriminate|].
  intros Hfix. split; [lia|]. revert Hfix.
  set (c := coef d) in *. set (e := dexp d) in *. set (n := ndigits c) in *.
  destruct (ndigits_spec c ltac:(lia)) as (Hn1 & Hlo & Hhi). fold n in Hn1, Hlo, Hhi.
  destruct (Z.ltb_spec Etop (n + e - prec)) as [|Hov]; [intros _; by left|].
  set (g := Z.max (n + e - prec) Etiny) in *.
  assert (HEt : Etiny <= Etop) by (vm_compute; discriminate).
  destruct (Z.ltb_spec e g) as [Hlt|Hge]; [|discriminate].
  set (k := g - e) in *.
  assert (Hk : 1 <= k) by lia.
  assert (Hprec : prec = 28) by reflexivity.
  assert (Hcoeff :
    (let '(c1, k1) := if n + e - g <? 0 then (1, 1) else (c, k) in
     let coeff := c1 / 10 ^ k1 in
     if 0 <? round_half_even c1 k1 then coeff + 1 else coeff)
    = Rounded.half_even c k).
  { destruct (Z.ltb_spec (n + e - g) 0) as [Hneg|Hpos].
    - rewrite half_even_small; [reflexivity|lia|lia|].
      eapply Z.lt_le_trans; [exact Hhi|]. apply pow10_le. lia.
    - unfold Rounded.half_even.
      destruct (0 <? round_half_even c k); lia. }
  set (q := Rounded.half_even c k) in *.
  destruct (half_even_spec c k ltac:(lia) Hk) as (Hq0 & _ & _). fold q in Hq0.
  assert (Hqb : q <= 10 ^ prec).
  { destruct (Z_le_gt_dec k n) as [Hkn|Hkn].
    - pose proof (half_even_bound c k n ltac:(lia) Hk Hkn Hhi) as Hb. fold q in Hb.
      pose proof (pow10_le (n - k) prec ltac:(lia)). lia.
    - unfold q. rewrite half_even_small; [|lia|lia|].
      + pose proof (pow10_pos prec ltac:(lia)). lia.
      + eapply Z.lt_le_trans; [exact Hhi|]. apply pow10_le. lia. }
  revert Hcoeff. cbv zeta.
  destruct (if n + e - g <? 0 then (1, 1) else (c, k)) as [c1 k1].
  intros Hcoeff. rewrite Hcoeff. clear Hcoeff c1 k1.
  destruct (Z.ltb_spec prec (ndigits q)) as [Hcarry|Hnocarry].
  - assert (Hq : q = 10 ^ prec).
    { destruct (ndigits_spec q) as (_ & Hl & _).
      - destruct (Z.eq_dec q 0) as [Hq|]; [|lia]. rewrite Hq, ndigits_0 in Hcarry. lia.
      - pose proof (pow10_le prec (ndigits q - 1) ltac:(lia)). lia. }
    destruct (Z.ltb_spec Etop (g + 1)) as [Hfit|]; [|discriminate].
    intros _. right. assert (g = Etop) as Hg by lia.
    split; [lia|]. rewrite <- Hg. exact Hq.
  - destruct (Z.ltb_spec Etop g) as [|Hfit]; [lia|discriminate].
Qed.

Local Open Scope R_scope.

Lemma p10_split_by (a b k : Z) :
  (a = b + k)%Z -> (0 <= k)%Z -> p10 a = IZR (10 ^ k) * p10 b.
Proof. intros -> Hk. rewrite <- p10_IZR by done. rewrite <- p10_add. f_equal. lia. Qed.

Lemma fixed_bound (d : t) :
  fixed d -> Rabs (to_R d) <= p10 (Emax + 1) - p10 Etop.
Proof.
  intros Hf. pose proof (fixed_digits d Hf) as Hn. destruct Hf as (Hc & He & Htop).
  rewrite Rabs_to_R. pose proof (coef_nonneg d) as Hc0.
  pose proof (p10_pos (dexp d)) as Hpe. pose proof (p10_pos Etop) as HpE.
  assert (Hprec : prec = 28%Z) by reflexivity.
  destruct (Z.eq_dec (coef d) 0%Z) as [Hz|Hnz].
  { rewrite Hz, Rmult_0_l.
    pose proof (p10_le Etop (Emax + 1) ltac:(vm_compute; discriminate)). lra. }
  destruct (ndigits_spec (coef d) ltac:(lia)) as (Hn1 & _ & Hhi).
  set (n := ndigits (coef d)) in *. set (e := dexp d) in *.
  assert (H1 : IZR (coef d) <= IZR (10 ^ n) - 1).
  { rewrite <- minus_IZR. apply IZR_le. lia. }
  assert (Hu : (n + e - prec <= Etop)%Z) by lia.
  (* c * 10^e <= 10^(n+e) - 10^e <= 10^(n+e-prec) * (10^prec - 1) *)
  assert (H2 : p10 (n + e) = IZR (10 ^ prec) * p10 (n + e - prec)).
  { apply p10_split_by; lia. }
  assert (H3 : p10 (Emax + 1) = IZR (10 ^ prec) * p10 Etop).
  { apply p10_split_by; [reflexivity|lia]. }
  assert (H4 : p10 (n + e - prec) <= p10 e) by (apply p10_le; lia).
  assert (H5 : p10 (n + e - prec) <= p10 Etop) by (apply p10_le; lia).
  assert (H6 : p10 (n + e) = IZR (10 ^ n) * p10 e).
  { apply p10_split_by; lia. }
  assert (H7 : 1 <= IZR (10 ^ prec)).
  { apply IZR_le. pose proof (pow10_pos prec ltac:(lia)). lia. }
  pose proof (p10_pos (n + e - prec)).
  rewrite H3. nra.
Qed.

Lemma fix_ok (d : t) :
  Rabs (to_R d) < p10 (Emax + 1) - p10 Etop / 2 ->
  exists d', fix_ d = Ok d'.
Proof.
  intros Hb. destruct (fix_ d) as [d'|ex] eqn:Hfix; [by exists d'|exfalso].
  apply fix_raise_shape in Hfix. destruct Hfix as (Hc & Hcases).
  rewrite Rabs_to_R in Hb.
  pose proof (p10_pos Etop) as HpE. pose proof (p10_pos (dexp d)) as Hpe.
  assert (Hprec : prec = 28%Z) by reflexivity.
  destruct Hcases as [Hov|(Hlt & Hq)].
  - pose proof (decade_coef (coef d) (dexp d) Hc) as [Hlo _].
    pose proof (p10_le (Emax + 1) (ndigits (coef d) + dexp d - 1)
                  ltac:(unfold Etop in Hov; lia)). lra.
  - destruct (half_even_spec (coef d) (Etop - dexp d) ltac:(lia) ltac:(lia))
      as (_ & Hbnd & _).
    rewrite Hq in Hbnd. set (k := (Etop - dexp d)%Z) in *.
    assert (Hlow : (2 * 10 ^ prec * 10 ^ k - 10 ^ k <= 2 * coef d)%Z) by lia.
    apply IZR_le in Hlow. rewrite minus_IZR, !mult_IZR in Hlow. simpl (IZR 2) in Hlow.
    assert (H3 : p10 (Emax + 1) = IZR (10 ^ prec) * p10 Etop).
    { apply p10_split_by; [reflexivity|lia]. }
    assert (H4 : p10 Etop = IZR (10 ^ k) * p10 (dexp d)).
    { apply p10_split. lia. }
    rewrite H3, H4 in Hb. nra.
Qed.

End FixRange.

(** ** The deviation test of validate_weights *)

Section Deviation.
Import Decimal DecimalValue WeightedScoringCalculator Reference.

Lemma add_fixed (a b c : t) : add a b = Ok c -> fixed c.
Proof.
  unfold add. destruct (is_zero a && is_zero b); apply fix_fixed.
Qed.

Lemma sum_snoc (xs : list t) (x : t) :
  Decimal.sum (xs ++ [x]) = let* s := Decimal.sum xs in add s x.
Proof. unfold Decimal.sum. by rewrite fold_left_app. Qed.

Lemma sum_fixed (xs : list t) (total : t) :
  xs <> [] -> Decimal.sum xs = Ok total -> fixed total.
Proof.
  intros Hne. destruct (exists_last Hne) as (xs' & x & ->).
  rewrite sum_snoc. destruct (Decimal.sum xs') as [s|]; [|discriminate].
  cbn [rbind]. apply add_fixed.
Qed.

Local Open Scope R_scope.

Lemma p10_m2 : p10 (-2) = / 100.
Proof. unfold p10. simpl. field. Qed.

Lemma p10_m1 : p10 (-1) = / 10.
Proof. unfold p10. simpl. field. Qed.

Lemma to_R_cent : to_R cent = / 100.
Proof. change (to_R cent) with (IZR 1 * p10 (-2)). rewrite p10_m2. lra. Qed.

Lemma to_R_d100 : to_R d100 = 100.
Proof. unfold d100. by rewrite to_R_of_Z. Qed.

Lemma to_R_d0 : to_R d0 = 0.
Proof. unfold d0. by rewrite to_R_of_Z. Qed.

Lemma p10_Etop_large : 1000 <= p10 Etop.
Proof.
  pose proof (p10_le 3 Etop ltac:(vm_compute; discriminate)).
  rewrite (p10_IZR 3) in H by lia. change (10 ^ 3)%Z with 1000%Z in H. lra.
Qed.

Lemma Rabs_sub_le (a b : R) : Rabs (a - b) <= Rabs a + Rabs b.
Proof. unfold Rabs. repeat destruct Rcase_abs; lra. Qed.

Lemma sub_d100_ok (total : t) :
  fixed total -> exists diff, sub total d100 = Ok diff.
Proof.
  intros Hf. unfold sub, add.
  assert (Hz : is_zero (copy_negate d100) = false) by reflexivity.
  rewrite Hz, andb_false_r. apply fix_ok. rewrite to_R_mk_signed.
  set (e := Z.min (dexp total) (dexp (copy_negate d100))).
  rewrite plus_IZR, Rmult_plus_distr_r.
  rewrite <- (to_R_scaled total e), <- (to_R_scaled (copy_negate d100) e) by lia.
  rewrite to_R_copy_negate, to_R_d100.
  pose proof (fixed_bound total Hf). pose proof p10_Etop_large.
  pose proof (Rabs_sub_le (to_R total) 100). rewrite (Rabs_pos_eq 100) in H1 by lra.
  replace (to_R total + - (100)) with (to_R total - 100) by ring. lra.
Qed.

Lemma fixed_copy_abs (d : t) : fixed d -> fixed (copy_abs d).
Proof. unfold fixed, copy_abs, coef. by destruct d. Qed.

Lemma abs_fixed (d : t) : fixed d -> abs d = Ok (copy_abs d).
Proof. intros Hf. unfold abs. by apply fixed_fix, fixed_copy_abs. Qed.

Lemma representable_cent : representable (/ 100).
Proof.
  exists 1%Z, (-2)%Z. rewrite p10_m2. split; [simpl; lra|].
  split; vm_compute; [reflexivity|discriminate].
Qed.

Lemma representable_tenth : representable (/ 10).
Proof.
  exists 1%Z, (-1)%Z. rewrite p10_m1. split; [simpl; lra|].
  split; vm_compute; [reflexivity|discriminate].
Qed.

Lemma representable_opp (x : R) : representable x -> representable (- x).
Proof.
  intros (j & e & -> & Hj & He). exists (- j)%Z, e.
  split; [rewrite opp_IZR; ring|]. split; [lia|done].
Qed.

Lemma fixed_representable (d : t) : fixed d -> representable (to_R d).
Proof.
  intros (Hc & He & _). exists (signed d), (dexp d).
  split; [reflexivity|]. split; [|done].
  pose proof (coef_nonneg d). unfold signed. destruct (dsign d); lia.
Qed.

(** Near 100 the difference [total - 100] needs no rounding. *)
Lemma near_100_representable (total : t) :
  fixed total ->
  / 100 < Rabs (to_R total - 100) < / 10 ->
  representable (to_R total - 100).
Proof.
  intros (Hc & He & _) [Hlo Hhi].
  assert (Hprec : prec = 28%Z) by reflexivity.
  assert (HT : 99 < to_R total < 101).
  { apply Rabs_def2 in Hhi. lra. }
  pose proof (coef_nonneg total) as Hc0.
  assert (Hpos : dsign total = false).
  { destruct (dsign total) eqn:Hs; [|done]. exfalso.
    rewrite to_R_sign, Hs in HT. pose proof (p10_pos (dexp total)).
    apply IZR_le in Hc0. nra. }
  assert (HTv : to_R total = IZR (coef total) * p10 (dexp total)).
  { rewrite to_R_sign, Hpos. ring. }
  set (c := coef total) in *. set (e := dexp total) in *.
  pose proof (p10_pos e) as Hpe.
  destruct (Z_le_gt_dec 0 e) as [He0|He0].
  { exfalso. rewrite HTv, (p10_IZR e He0), <- mult_IZR in Hlo, Hhi.
    replace 100 with (IZR 100) in Hlo, Hhi by (simpl; lra).
    rewrite <- minus_IZR, <- abs_IZR in Hlo, Hhi.
    assert (Z.abs (c * 10 ^ e - 100) < 1)%Z by (apply lt_IZR; simpl; lra).
    assert (0 < Z.abs (c * 10 ^ e - 100))%Z by (apply lt_IZR; simpl; lra). lia. }
  assert (He26 : (-27 < e)%Z).
  { apply p10_lt_inv. apply IZR_lt in Hc.
    assert (H28 : p10 (-27) * IZR (10 ^ prec) = 10).
    { rewrite <- (p10_IZR prec) by lia. rewrite <- p10_add.
      replace (-27 + prec)%Z with 1%Z by lia. apply p10_1. }
    pose proof (p10_pos (-27)).
    apply IZR_le in Hc0. nra. }
  exists (c - 100 * 10 ^ (- e))%Z, e.
  assert (Hval : to_R total - 100 = IZR (c - 100 * 10 ^ (- e)) * p10 e).
  { rewrite HTv, minus_IZR, mult_IZR, <- (p10_IZR (- e)) by lia.
    assert (p10 (- e) * p10 e = 1).
    { rewrite <- p10_add. replace (- e + e)%Z with 0%Z by lia. apply p10_0. }
    simpl (IZR 100). nra. }
  split; [exact Hval|]. split; [|done].
  rewrite Hval in Hhi. rewrite Rabs_mult, (Rabs_pos_eq (p10 e)), <- abs_IZR in Hhi by lra.
  set (j := Z.abs (c - 100 * 10 ^ (- e))) in *.
  assert (Hj : IZR j < IZR (10 ^ (- e - 1))).
  { rewrite <- p10_IZR by lia.
    assert (p10 (- e - 1) * p10 e = / 10).
    { rewrite <- p10_add. replace (- e - 1 + e)%Z with (-1)%Z by lia. apply p10_m1. }
    pose proof (p10_pos (- e - 1)). nra. }
  apply lt_IZR in Hj. eapply Z.lt_le_trans; [exact Hj|]. apply pow10_le. lia.
Qed.

Lemma deviation_rounded (total : t) (r : R) :
  fixed total ->
  correctly_rounded (to_R total - 100) r ->
  (/ 100 < Rabs r <-> / 100 < Rabs (to_R total - 100)).
Proof.
  intros Hf Hr. set (x := to_R total - 100) in *.
  pose proof representable_cent as Hc. pose proof representable_tenth as Ht.
  pose proof (representable_correctly_rounded _ Hc) as Rc.
  pose proof (representable_correctly_rounded _ Ht) as Rt.
  pose proof (representable_correctly_rounded _ (representable_opp _ Hc)) as Rc'.
  pose proof (representable_correctly_rounded _ (representable_opp _ Ht)) as Rt'.
  split.
  - intros Hgt. destruct (Rle_or_lt (Rabs x) (/ 100)) as [Hle|]; [exfalso|done].
    apply Rabs_le_inv in Hle.
    pose proof (correctly_rounded_mono _ _ _ _ (proj2 Hle) Hr Rc).
    pose proof (correctly_rounded_mono _ _ _ _ (proj1 Hle) Rc' Hr).
    assert (Rabs r <= / 100) by (apply Rabs_le; lra). lra.
  - intros Hgt. destruct (Rle_or_lt (/ 10) (Rabs x)) as [Hbig|Hsmall].
    + unfold Rabs in Hbig. destruct (Rcase_abs x).
      * pose proof (correctly_rounded_mono x (- / 10) _ _ ltac:(lra) Hr Rt').
        rewrite Rabs_left1 by lra. lra.
      * pose proof (correctly_rounded_mono (/ 10) x _ _ ltac:(lra) Rt Hr).
        rewrite Rabs_pos_eq by lra. lra.
    + assert (Hrep : representable x) by (by apply near_100_representable).
      by rewrite (correctly_rounded_exact x r Hrep Hr).
Qed.

Lemma within_tolerance_spec (total : t) :
  within_tolerance total = true <-> Rabs (to_R total - 100) <= / 100.
Proof.
  unfold within_tolerance. rewrite andb_true_iff, !leb_to_R.
  assert (H1 : to_R (Dec false 9999 (-2)) = 100 - / 100).
  { change (to_R (Dec false 9999 (-2))) with (IZR 9999 * p10 (-2)). rewrite p10_m2. lra. }
  assert (H2 : to_R (Dec false 10001 (-2)) = 100 + / 100).
  { change (to_R (Dec false 10001 (-2))) with (IZR 10001 * p10 (-2)). rewrite p10_m2. lra. }
  rewrite H1, H2. split.
  - intros [Ha Hb]. apply Rabs_le. lra.
  - intros H. apply Rabs_le_inv in H. lra.
Qed.

(** The branch on [abs(total_weight - Decimal('100')) > Decimal('0.01')]
    is the exact test, and never raises. *)
Lemma deviation_test (total : t) :
  fixed total ->
  exists diff dev,
    sub total d100 = Ok diff /\ abs diff = Ok dev
    /\ gtb dev cent = negb (within_tolerance total).
Proof.
  intros Hf. destruct (sub_d100_ok total Hf) as (diff & Hsub).
  assert (Hfd : fixed diff) by (unfold sub in Hsub; by apply add_fixed in Hsub).
  exists diff, (copy_abs diff). split; [done|]. split; [by apply abs_fixed|].
  apply sub_correctly_rounded in Hsub. rewrite to_R_d100 in Hsub.
  pose proof (deviation_rounded total _ Hf Hsub) as Hdev.
  pose proof (within_tolerance_spec total) as Hw.
  pose proof (gtb_to_R (copy_abs diff) cent) as Hg.
  rewrite to_R_copy_abs, to_R_cent in Hg.
  destruct (gtb (copy_abs diff) cent), (within_tolerance total); cbn [negb]; try reflexivity; exfalso.
  - assert (/ 100 < Rabs (to_R diff)) by (apply Rgt_lt, Hg; reflexivity).
    apply Hdev in H. destruct Hw as [Hw _]. specialize (Hw eq_refl). lra.
  - destruct (Rle_or_lt (Rabs (to_R total - 100)) (/ 100)) as [Hle|Hlt].
    + apply Hw in Hle. discriminate.
    + apply Hdev in Hlt. destruct Hg as [_ Hg]. specialize (Hg ltac:(lra)). discriminate.
Qed.

End Deviation.

(** ** validate_weights *)

Section ValidateWeights.
Import Decimal DecimalValue WeightedScoringCalculator Reference.

Lemma Ok_inj {A : Type} (x y : A) : Ok x = Ok y -> x = y.
Proof. by intros [= ->]. Qed.

Lemma ltb_leb_flip (a b : t) : ltb a b = negb (leb b a).
Proof.
  pose proof (ltb_to_R a b) as H1. pose proof (leb_to_R b a) as H2.
  destruct (ltb a b), (leb b a); cbn [negb]; try reflexivity; exfalso.
  - destruct H1 as [H1 _], H2 as [H2 _]. specialize (H1 eq_refl). specialize (H2 eq_refl).
    apply (Rlt_irrefl (to_R a)). eapply Rlt_le_trans; [exact H1|exact H2].
  - destruct (Rle_or_lt (to_R b) (to_R a)) as [Hle|Hlt].
    + apply H2 in Hle. discriminate.
    + apply H1 in Hlt. discriminate.
Qed.

Lemma check_each_spec (criteria : list criterion) (i : nat) :
  check_each i criteria = (true, ""%string)
  <-> forall c, c ∈ criteria -> weight_in_range c = true.
Proof.
  revert i. induction criteria as [|c rest IH]; intros i.
  - cbn. split; [intros _ c Hc; by apply elem_of_nil in Hc|done].
  - cbn [check_each]. rewrite ltb_leb_flip.
    assert (Hr : weight_in_range c
                 = leb d0 (weight_of c) && negb (gtb (weight_of c) d100)) by reflexivity.
    destruct (leb d0 (weight_of c)) eqn:Hlo; cbn [negb].
    + destruct (gtb (weight_of c) d100) eqn:Hhi.
      * split; [discriminate|]. intros H. specialize (H c ltac:(left)).
        rewrite Hr in H. discriminate.
      * rewrite IH. split.
        -- intros H c' Hc'. apply elem_of_cons in Hc'. destruct Hc' as [->|Hc'].
           ++ by rewrite Hr.
           ++ by apply H.
        -- intros H c' Hc'. apply H. by right.
    + split; [discriminate|]. intros H. specialize (H c ltac:(left)).
      rewrite Hr in H. discriminate.
Qed.

Lemma validate_weights_eval (criteria : list criterion) (total : t) :
  criteria <> [] ->
  Decimal.sum (map weight_of criteria) = Ok total ->
  validate_weights criteria
  = if within_tolerance total then Ok (check_each 0 criteria)
    else Ok (false, sum_message total).
Proof.
  intros Hne Hsum. destruct criteria as [|c rest]; [done|].
  unfold validate_weights. rewrite Hsum. cbn [rbind].
  assert (Hf : fixed total).
  { apply (sum_fixed (map weight_of (c :: rest))); [discriminate|done]. }
  destruct (deviation_test total Hf) as (diff & dev & Hsub & Habs & Hg).
  rewrite Hsub. cbn [rbind]. rewrite Habs. cbn [rbind]. rewrite Hg.
  by destruct (within_tolerance total).
Qed.

(** C3 (amended): validate_weights accepts exactly the non-empty lists
    whose weights all lie in [0, 100] and whose sum, accumulated by
    Decimal addition, is within 0.01 of 100; and a sum further than 0.01
    from 100 is rejected with that sum in the message. *)
Theorem validate_weights_spec (criteria : list criterion) :
  (validate_weights criteria = Ok (true, ""%string)
   <-> criteria <> []
       /\ (forall c, c ∈ criteria -> weight_in_range c = true)
       /\ exists total, Decimal.sum (map weight_of criteria) = Ok total
                        /\ within_tolerance total = true)
  /\ (forall total,
        criteria <> [] ->
        Decimal.sum (map weight_of criteria) = Ok total ->
        within_tolerance total = false ->
        validate_weights criteria = Ok (false, sum_message total)).
Proof.
  split.
  - split.
    + intros H. destruct criteria as [|c rest]; [discriminate|].
      split; [discriminate|].
      destruct (Decimal.sum (map weight_of (c :: rest))) as [total|ex] eqn:Hsum.
      * rewrite (validate_weights_eval _ total) in H by (discriminate || done).
        destruct (within_tolerance total) eqn:Hw; [|discriminate].
        apply Ok_inj in H.
        split; [exact (proj1 (check_each_spec _ _) H)|]. by exists total.
      * unfold validate_weights in H. rewrite Hsum in H. discriminate.
    + intros (Hne & Hall & total & Hsum & Hw).
      rewrite (validate_weights_eval _ total Hne Hsum), Hw.
      f_equal. exact (proj2 (check_each_spec _ _) Hall).
  - intros total Hne Hsum Hw. by rewrite (validate_weights_eval _ total Hne Hsum), Hw.
Qed.

End ValidateWeights.

Section ValidateWeightsExamples.
Import Decimal DecimalValue WeightedScoringCalculator Reference Samples.
Local Open Scope R_scope.

Lemma exact_add_value (x y : Z * Z) :
  IZR (fst (exact_add x y)) * p10 (snd (exact_add x y))
  = IZR (fst x) * p10 (snd x) + IZR (fst y) * p10 (snd y).
Proof.
  unfold exact_add. cbn [fst snd]. set (e := Z.min (snd x) (snd y)).
  rewrite (p10_split (snd x) e), (p10_split (snd y) e) by lia.
  rewrite plus_IZR, !mult_IZR. ring.
Qed.

(** [exact_sum] adds the values without rounding. *)
Lemma exact_sum_value (ws : list t) :
  IZR (fst (exact_sum ws)) * p10 (snd (exact_sum ws))
  = fold_right (fun w acc => to_R w + acc) 0 ws.
Proof.
  unfold exact_sum.
  assert (H : forall acc,
             IZR (fst (fold_left (fun acc w => exact_add acc (signed w, dexp w)) ws acc))
             * p10 (snd (fold_left (fun acc w => exact_add acc (signed w, dexp w)) ws acc))
             = IZR (fst acc) * p10 (snd acc)
               + fold_right (fun w acc => to_R w + acc) 0 ws).
  { induction ws as [|w rest IH]; intros acc; cbn [fold_left fold_right]; [ring|].
    rewrite IH, exact_add_value. cbn [fst snd]. unfold to_R. ring. }
  rewrite H. cbn [fst snd]. ring.
Qed.

Lemma exact_within_tolerance_spec (x : Z * Z) :
  exact_within_tolerance x = true
  <-> Rabs (IZR (fst x) * p10 (snd x) - 100) <= / 100.
Proof.
  unfold exact_within_tolerance. set (e := Z.min (snd x) (-2)).
  rewrite Z.leb_le.
  assert (H1 : IZR (fst x) * p10 (snd x) - 100
               = IZR (fst x * 10 ^ (snd x - e) - 100 * 10 ^ (- e)) * p10 e).
  { rewrite minus_IZR, !mult_IZR, <- !p10_IZR by lia.
    assert (Ha : p10 (snd x - e) * p10 e = p10 (snd x)).
    { rewrite <- p10_add. f_equal. lia. }
    assert (Hb : p10 (- e) * p10 e = 1).
    { rewrite <- p10_add. replace (- e + e)%Z with 0%Z by lia. apply p10_0. }
    simpl (IZR 100).
    replace ((IZR (fst x) * p10 (snd x - e) - 100 * p10 (- e)) * p10 e)
      with (IZR (fst x) * (p10 (snd x - e) * p10 e) - 100 * (p10 (- e) * p10 e)) by ring.
    rewrite Ha, Hb. ring. }
  assert (H2 : / 100 = IZR (10 ^ (- 2 - e)) * p10 e).
  { rewrite <- p10_IZR by lia. rewrite <- p10_add.
    replace (- 2 - e + e)%Z with (-2)%Z by lia. symmetry. apply p10_m2. }
  rewrite H1, H2. pose proof (p10_pos e) as Hpe.
  rewrite Rabs_mult, (Rabs_pos_eq (p10 e)), <- abs_IZR by lra.
  split.
  - intros H. apply IZR_le in H. nra.
  - intros H. apply le_IZR. nra.
Qed.

(** C3, as stated with the exact sum, fails: the weights 50.01, 50 and
    1E-300 all lie in [0, 100] and their sum is more than 0.01 away from
    100, yet the 28-digit sum is 100.0100000000000000000000000 and the
    list is accepted. *)
Lemma validate_weights_accepts_inexact_sum :
  validate_weights off_by_a_hair = Ok (true, ""%string)
  /\ (forall c, c ∈ off_by_a_hair -> weight_in_range c = true)
  /\ exact_within_tolerance (exact_sum (map weight_of off_by_a_hair)) = false.
Proof.
  split; [vm_compute; reflexivity|]. split; [|vm_compute; reflexivity].
  intros c Hc. unfold off_by_a_hair in Hc.
  rewrite !elem_of_cons, elem_of_nil in Hc.
  destruct Hc as [->|[->|[->|[]]]]; vm_compute; reflexivity.
Qed.

End ValidateWeightsExamples.

(** ** Operations whose exact result is representable *)

Section ExactOperations.
Import Decimal DecimalValue Quotient.
Local Open Scope R_scope.

Lemma overflow_margin : p10 Emax < p10 (Emax + 1) - p10 Etop / 2.
Proof.
  rewrite p10_succ. pose proof (p10_pos Etop).
  pose proof (p10_le Etop Emax ltac:(vm_compute; discriminate)). lra.
Qed.

Lemma fix_exact (d : t) :
  representable (to_R d) -> Rabs (to_R d) <= p10 Emax ->
  exists d', fix_ d = Ok d' /\ to_R d' = to_R d.
Proof.
  intros Hrep Hb. pose proof overflow_margin.
  destruct (fix_ok d ltac:(lra)) as (d' & Hfix). exists d'. split; [done|].
  apply fix_correctly_rounded in Hfix. by apply (correctly_rounded_exact (to_R d)).
Qed.

Lemma representable_0 : representable 0.
Proof.
  exists 0%Z, 0%Z. split; [simpl; ring|]. split; vm_compute; [reflexivity|discriminate].
Qed.

Lemma add_exact (a b : t) :
  representable (to_R a + to_R b) -> Rabs (to_R a + to_R b) <= p10 Emax ->
  exists c, add a b = Ok c /\ to_R c = to_R a + to_R b.
Proof.
  intros Hrep Hb. unfold add. set (e := Z.min (dexp a) (dexp b)).
  assert (Hval :
            to_R (mk (signed a * 10 ^ (dexp a - e) + signed b * 10 ^ (dexp b - e) <? 0)%Z
                     (Z.abs (signed a * 10 ^ (dexp a - e) + signed b * 10 ^ (dexp b - e))) e)
            = to_R a + to_R b).
  { rewrite to_R_mk_signed, plus_IZR, Rmult_plus_distr_r.
    by rewrite <- (to_R_scaled a e), <- (to_R_scaled b e) by lia. }
  destruct (is_zero a && is_zero b) eqn:Hz.
  - apply andb_true_iff in Hz. destruct Hz as [Ha Hz]. apply Z.eqb_eq in Ha, Hz.
    rewrite (to_R_zero a Ha), (to_R_zero b Hz), Rplus_0_r.
    destruct (fix_exact (mk (dsign a && dsign b) 0 e)) as (c & Hc & Hv).
    + rewrite to_R_zero by (by rewrite coef_mk). apply representable_0.
    + rewrite to_R_zero by (by rewrite coef_mk). rewrite Rabs_R0.
      pose proof (p10_pos Emax). lra.
    + exists c. split; [done|]. rewrite Hv. apply to_R_zero. by rewrite coef_mk.
  - rewrite <- Hval in Hrep, Hb |- *. by apply fix_exact.
Qed.

Lemma mul_value (a b : t) :
  to_R (mk (xorb (dsign a) (dsign b)) (coef a * coef b) (dexp a + dexp b))
  = to_R a * to_R b.
Proof.
  pose proof (coef_nonneg a). pose proof (coef_nonneg b).
  rewrite to_R_mk by nia. rewrite !to_R_sign, p10_add.
  destruct (dsign a), (dsign b); cbn [xorb]; rewrite ?opp_IZR, mult_IZR; ring.
Qed.


(** A representable quotient leaves no remainder in [__truediv__]. *)
Lemma representable_quotient_exact (N D e : Z) :
  (0 < D)%Z -> (10 ^ prec * D <= N)%Z ->
  representable (IZR N / IZR D * p10 e) -> (N mod D = 0)%Z.
Proof.
  intros HD HN (j & e' & Hx & Hj & He').
  assert (Hprec : prec = 28%Z) by reflexivity.
  pose proof (pow10_pos prec ltac:(lia)) as Hpp.
  assert (HDr : 0 < IZR D) by (by apply IZR_lt).
  pose proof (p10_pos e) as Hpe. pose proof (p10_pos e') as Hpe'.
  assert (HQ : IZR (10 ^ prec) <= IZR N / IZR D).
  { apply Rdiv_bounds with (hi := IZR N / IZR D + 1); [done| |].
    - rewrite <- mult_IZR. by apply IZR_le.
    - replace ((IZR N / IZR D + 1) * IZR D) with (IZR N + IZR D) by (field; lra). lra. }
  assert (Hjpos : 0 < IZR j).
  { destruct (Rlt_or_le 0 (IZR j)) as [|Hle]; [done|]. exfalso.
    assert (0 < IZR (10 ^ prec)) by (by apply IZR_lt). nra. }
  assert (Hjlt : IZR j < IZR (10 ^ prec)).
  { apply IZR_lt. apply lt_IZR in Hjpos. lia. }
  assert (Hee : (e < e')%Z).
  { apply p10_lt_inv. nra. }
  rewrite (p10_split e' e) in Hx by lia.
  assert (HN' : IZR N = IZR (j * 10 ^ (e' - e) * D)).
  { rewrite !mult_IZR.
    assert (IZR N / IZR D = IZR j * IZR (10 ^ (e' - e))) by nra.
    rewrite <- H. field. lra. }
  apply eq_IZR in HN'. rewrite HN'. apply Z.mod_mul. lia.
Qed.

Lemma truediv_exact (a b : t) :
  (0 < coef b)%Z ->
  representable (to_R a / to_R b) -> Rabs (to_R a / to_R b) <= p10 Emax ->
  exists c, truediv a b = Ok c /\ to_R c = to_R a / to_R b.
Proof.
  intros Hb Hrep Hbnd.
  assert (Hbz : is_zero b = false) by (apply Z.eqb_neq; lia).
  assert (Hbr : to_R b <> 0).
  { intros E. apply to_R_zero_inv in E. lia. }
  pose proof (coef_nonneg a) as Ha0.
  assert (Hok : exists c, truediv a b = Ok c).
  { destruct (Z.eq_dec (coef a) 0%Z) as [Haz|Hanz].
    { assert (Haz' : is_zero a = true) by (by apply Z.eqb_eq).
      unfold truediv. rewrite Hbz, Haz'. cbv iota.
      destruct (fix_exact (mk (xorb (dsign a) (dsign b)) 0 (dexp a - dexp b)))
        as (c & Hc & _); [| |by exists c].
      - rewrite to_R_zero by (by rewrite coef_mk). apply representable_0.
      - rewrite to_R_zero by (by rewrite coef_mk). rewrite Rabs_R0.
        pose proof (p10_pos Emax). lra. }
    assert (Ha : (0 < coef a)%Z) by lia.
    rewrite truediv_unfold by (try done; apply Z.eqb_neq; lia). cbv zeta.
    rewrite to_R_div_sign in Hrep, Hbnd by done.
    rewrite div_exact_value in Hrep, Hbnd by done.
    pose proof (div_den_pos a b Hb) as HD.
    pose proof (div_quotient_digits a b Ha Hb) as [HND _].
    set (N := div_num a b) in *. set (D := div_den a b) in *.
    set (e := div_exp a b) in *. set (s := xorb (dsign a) (dsign b)) in *.
    assert (Hrep' : representable (IZR N / IZR D * p10 e)).
    { destruct s; [|by rewrite Rmult_1_l in Hrep].
      apply representable_opp in Hrep.
      replace (- (-1 * (IZR N / IZR D * p10 e))) with (IZR N / IZR D * p10 e) in Hrep by ring.
      done. }
    pose proof (representable_quotient_exact N D e HD HND Hrep') as Hrem.
    rewrite Hrem. cbn [Z.eqb negb].
    pose proof (pow10_pos prec ltac:(vm_compute; discriminate)) as Hpp.
    assert (Hcoeff : (0 < N / D)%Z) by (apply Z.div_str_pos; nia).
    destruct (strip_zeros _ (N / D)%Z e (dexp a - dexp b)%Z) as [c' e'] eqn:Hstrip.
    apply strip_zeros_spec in Hstrip; [|done].
    destruct Hstrip as (Hc' & He' & Hval).
    assert (Hv : to_R (mk s c' e') = (if s then -1 else 1) * (IZR N / IZR D * p10 e)).
    { rewrite to_R_mk_sign by lia. f_equal.
      pose proof (Z.div_mod N D ltac:(lia)) as Hdm. rewrite Hrem, Z.add_0_r in Hdm.
      rewrite (p10_split e' e He').
      assert (HDr : 0 < IZR D) by (by apply IZR_lt).
      rewrite Hdm at 1. rewrite Hval, !mult_IZR. field. lra. }
    destruct (fix_exact (mk s c' e')) as (c & Hc & _); [by rewrite Hv|by rewrite Hv|].
    by exists c. }
  destruct Hok as (c & Hc). exists c. split; [done|].
  apply truediv_correctly_rounded in Hc. destruct Hc as [_ Hc].
  by apply (correctly_rounded_exact _ _ Hrep).
Qed.

End ExactOperations.

(** ** The value of a quantized Decimal *)

Section QuantizeValue.
Import Decimal DecimalValue WeightedScoringCalculator Reference.
Local Open Scope R_scope.

Lemma half_up_cents_nonneg (c e : Z) : (0 <= c)%Z -> (0 <= half_up_cents c e)%Z.
Proof.
  intros Hc. unfold half_up_cents. destruct (Z.leb_spec (-2) e).
  - pose proof (pow10_pos (e + 2) ltac:(lia)). nia.
  - pose proof (pow10_pos (- 2 - e) ltac:(lia)). apply Z.div_pos; lia.
Qed.

Lemma to_R_round2 (d : t) :
  to_R (round2 d)
  = (if dsign d then -1 else 1) * (IZR (half_up_cents (coef d) (dexp d)) * p10 (-2)).
Proof.
  unfold round2. apply to_R_mk_sign. apply half_up_cents_nonneg, coef_nonneg.
Qed.

Lemma Rabs_signed (s : bool) (x : R) : 0 <= x -> Rabs ((if s then -1 else 1) * x) = x.
Proof.
  intros Hx. destruct s.
  - replace (-1 * x) with (- x) by ring. rewrite Rabs_Ropp. by apply Rabs_pos_eq.
  - rewrite Rmult_1_l. by apply Rabs_pos_eq.
Qed.

(** [round2] is the nearest multiple of 0.01, ties away from zero. *)
Lemma round2_rounded (d : t) : rounded_half_up (-2) (to_R d) (to_R (round2 d)).
Proof.
  rewrite to_R_round2, to_R_sign. pose proof (coef_nonneg d) as Hc.
  set (c := coef d) in *. set (e := dexp d). set (s := dsign d).
  pose proof (p10_pos e) as HE. pose proof (p10_pos (-2)) as HG.
  unfold half_up_cents. destruct (Z.leb_spec (-2) e) as [Hge|Hlt].
  - exists (if s then - (c * 10 ^ (e + 2)) else c * 10 ^ (e + 2))%Z.
    assert (Hv : IZR (c * 10 ^ (e + 2)) * p10 (-2) = IZR c * p10 e).
    { rewrite (p10_split e (-2)) by lia. rewrite mult_IZR.
      replace (e - -2)%Z with (e + 2)%Z by lia. ring. }
    rewrite Hv.
    replace ((if s then -1 else 1) * (IZR c * p10 e) - (if s then -1 else 1) * (IZR c * p10 e))
      with 0 by ring.
    rewrite Rabs_R0. split; [|split; [lra|intros; lra]].
    destruct s; [rewrite opp_IZR|]; rewrite <- Hv; ring.
  - rewrite <- half_up_formula by lia.
    destruct (half_up_spec c (-2 - e) Hc ltac:(lia)) as (Hq & Hb & Htie).
    set (q := Rounded.half_up c (-2 - e)) in *. set (P := (10 ^ (-2 - e))%Z) in *.
    exists (if s then - q else q)%Z.
    assert (HG' : p10 (-2) = IZR P * p10 e) by (apply p10_split; lia).
    assert (Hdiff : Rabs ((if s then -1 else 1) * (IZR c * p10 e)
                          - (if s then -1 else 1) * (IZR q * p10 (-2)))
                    = IZR (Z.abs (c - q * P)) * p10 e).
    { rewrite HG'.
      replace ((if s then -1 else 1) * (IZR c * p10 e)
               - (if s then -1 else 1) * (IZR q * (IZR P * p10 e)))
        with ((if s then -1 else 1) * (IZR (c - q * P) * p10 e))
        by (rewrite minus_IZR, mult_IZR; ring).
      rewrite abs_IZR. destruct s.
      - replace (-1 * (IZR (c - q * P) * p10 e)) with (- (IZR (c - q * P) * p10 e)) by ring.
        rewrite Rabs_Ropp, Rabs_mult, (Rabs_pos_eq (p10 e)) by lra. reflexivity.
      - rewrite Rmult_1_l, Rabs_mult, (Rabs_pos_eq (p10 e)) by lra. reflexivity. }
    rewrite Hdiff. split; [destruct s; [rewrite opp_IZR|]; ring|].
    apply IZR_le in Hb. rewrite mult_IZR in Hb.
    split; [rewrite HG'; nra|].
    intros Heq. rewrite HG' in Heq.
    assert (Hz : (2 * Z.abs (c - q * P))%Z = P).
    { apply eq_IZR. rewrite mult_IZR. nra. }
    specialize (Htie Hz). apply IZR_lt in Htie. rewrite mult_IZR in Htie.
    rewrite !Rabs_signed.
    + rewrite HG'. nra.
    + apply IZR_le in Hq. nra.
    + apply IZR_le in Hc. nra.
Qed.

Lemma rounded_half_up_mono (g : Z) (x y rx ry : R) :
  x <= y -> rounded_half_up g x rx -> rounded_half_up g y ry -> rx <= ry.
Proof.
  intros Hxy (jx & -> & Hbx & Htx) (jy & -> & Hby & Hty).
  pose proof (p10_pos g) as HG. set (G := p10 g) in *.
  destruct (Rle_or_lt (IZR jx * G) (IZR jy * G)) as [|Hgt]; [done|exfalso].
  apply grid_le in Hgt; [|done].
  assert (Hstep : IZR jy + 1 <= IZR jx).
  { rewrite <- plus_IZR. apply IZR_le. lia. }
  apply Rabs_le_inv in Hbx, Hby.
  assert (Hx : x = IZR jx * G - G / 2) by nra.
  assert (Hy : y = IZR jy * G + G / 2) by nra.
  assert (Hjx : IZR jx = IZR jy + 1) by nra.
  assert (Hax : Rabs (x - IZR jx * G) = G / 2).
  { rewrite Hx. replace (IZR jx * G - G / 2 - IZR jx * G) with (- (G / 2)) by ring.
    rewrite Rabs_Ropp. apply Rabs_pos_eq. lra. }
  assert (Hay : Rabs (y - IZR jy * G) = G / 2).
  { rewrite Hy. replace (IZR jy * G + G / 2 - IZR jy * G) with (G / 2) by ring.
    apply Rabs_pos_eq. lra. }
  specialize (Htx Hax). specialize (Hty Hay).
  destruct (Z_lt_le_dec jy 0) as [Hneg|Hpos].
  - assert (IZR jy <= -1) by (apply IZR_le; lia).
    assert (Hjx0 : IZR jx <= 0) by lra.
    assert (Hxneg : x < 0) by nra.
    rewrite (Rabs_left x) in Htx by done.
    destruct (Req_dec (IZR jx) 0) as [E|E].
    + rewrite E, Rmult_0_l, Rabs_R0 in Htx. lra.
    + rewrite (Rabs_left (IZR jx * G)) in Htx by nra. nra.
  - assert (0 <= IZR jy) by (apply IZR_le; lia).
    assert (Hypos : 0 < y) by nra.
    rewrite (Rabs_pos_eq y) in Hty by lra.
    rewrite (Rabs_pos_eq (IZR jy * G)) in Hty by nra. nra.
Qed.

Lemma rounded_half_up_exact (g j : Z) (r : R) :
  rounded_half_up g (IZR j * p10 g) r -> r = IZR j * p10 g.
Proof.
  intros H. pose proof (p10_pos g) as HG.
  assert (Hself : rounded_half_up g (IZR j * p10 g) (IZR j * p10 g)).
  { exists j. split; [reflexivity|].
    replace (IZR j * p10 g - IZR j * p10 g) with 0 by ring. rewrite Rabs_R0.
    split; [lra|intros; lra]. }
  apply Rle_antisym.
  - apply (rounded_half_up_mono g _ _ _ _ (Rle_refl _) H Hself).
  - apply (rounded_half_up_mono g _ _ _ _ (Rle_refl _) Hself H).
Qed.

Lemma p10_26 : p10 26 = IZR (10 ^ 26).
Proof. by apply p10_IZR. Qed.

(** The calculator's quantization returns for every value below [10 ^ 26]. *)
Lemma quantize2_ok (d : t) :
  Rabs (to_R d) <= p10 26 - 1 -> exists q, quantize2 d = Ok q.
Proof.
  intros Hb. unfold quantize2, quantize. cbn [dexp cent].
  assert (HE : (Etiny <=? -2)%Z && (-2 <=? Emax)%Z = true) by reflexivity.
  rewrite HE. cbn [negb]. pose proof (coef_nonneg d) as Hc.
  destruct (is_zero d) eqn:Hz.
  { rewrite fix_unchanged; [by eexists| |].
    - intros _. cbn. vm_compute. split; discriminate.
    - rewrite coef_mk by lia. lia. }
  apply Z.eqb_neq in Hz.
  destruct (ndigits_spec (coef d) ltac:(lia)) as (Hn & Hlo & Hhi).
  rewrite Rabs_to_R in Hb.
  assert (Hdig : (ndigits (coef d) + dexp d <= 26)%Z).
  { destruct (Z_le_gt_dec (ndigits (coef d) + dexp d) 26) as [|Hgt]; [done|exfalso].
    apply IZR_le in Hlo. rewrite <- p10_IZR in Hlo by lia.
    pose proof (p10_pos (dexp d)).
    assert (p10 (ndigits (coef d) - 1 + dexp d) <= IZR (coef d) * p10 (dexp d))
      by (rewrite p10_add; nra).
    pose proof (p10_le 26 (ndigits (coef d) - 1 + dexp d) ltac:(lia)). lra. }
  unfold adjusted at 1 2.
  destruct (Z.ltb_spec Emax (dexp d + ndigits (coef d) - 1)) as [Hbad|_];
    [unfold Emax in Hbad; lia|].
  destruct (Z.ltb_spec prec (dexp d + ndigits (coef d) - 1 - -2 + 1)) as [Hbad|_];
    [unfold prec in Hbad; lia|].
  rewrite rescale_cents.
  assert (Hh : (0 <= coef (round2 d) < 10 ^ 28)%Z).
  { split; [apply coef_nonneg|].
    destruct (round2_rounded d) as (j & Hr & Hbd & _).
    assert (Hrabs : Rabs (to_R (round2 d)) <= Rabs (to_R d) + p10 (-2) / 2).
    { replace (to_R (round2 d)) with (to_R d - (to_R d - to_R (round2 d))) by ring.
      eapply Rle_trans; [apply Rabs_sub_le|]. lra. }
    rewrite !Rabs_to_R in Hrabs. change (dexp (round2 d)) with (-2)%Z in Hrabs.
    rewrite p10_m2, p10_26 in *.
    apply lt_IZR. change (10 ^ 28)%Z with (100 * 10 ^ 26)%Z. rewrite mult_IZR.
    change (10 ^ 26)%Z with 100000000000000000000000000%Z in *. lra. }
  assert (Hnd : (ndigits (coef (round2 d)) <= 28)%Z).
  { destruct (Z.eq_dec (coef (round2 d)) 0%Z) as [E|E]; [rewrite E, ndigits_0; lia|].
    destruct (ndigits_spec (coef (round2 d)) ltac:(lia)) as (Hn' & Hlo' & _).
    destruct (Z_le_gt_dec (ndigits (coef (round2 d))) 28) as [|Hgt]; [done|exfalso].
    pose proof (pow10_le 28 (ndigits (coef (round2 d)) - 1) ltac:(lia)). lia. }
  pose proof (ndigits_pos (coef (round2 d)) ltac:(lia)) as Hn1.
  unfold adjusted. change (dexp (round2 d)) with (-2)%Z.
  destruct (Z.ltb_spec Emax (-2 + ndigits (coef (round2 d)) - 1)) as [Hbad|_];
    [unfold Emax in Hbad; lia|].
  destruct (Z.ltb_spec prec (ndigits (coef (round2 d)))) as [Hbad|_];
    [unfold prec in Hbad; lia|].
  rewrite fix_unchanged; [by eexists| |].
  - intros _. change (dexp (round2 d)) with (-2)%Z. vm_compute. split; discriminate.
  - intros _. change (dexp (round2 d)) with (-2)%Z.
    unfold Etiny, Etop, Emin, Emax, prec. lia.
Qed.

Lemma quantize2_value (d q : t) :
  quantize2 d = Ok q -> rounded_half_up (-2) (to_R d) (to_R q).
Proof. intros H. apply quantize2_round2 in H. subst q. apply round2_rounded. Qed.

End QuantizeValue.

(** ** What the rounded totals are rounded from *)

Section RoundedTotalsTheorem.
Import Decimal DecimalValue WeightedScoringCalculator Reference ContextArithmetic.
Local Open Scope R_scope.

Lemma weighted_value_context (score max_pts w v : Decimal.t) (M : Z) :
  weighted_value_of score max_pts w M = Ok v ->
  context_weighted_value (to_R score) (to_R max_pts) (to_R w) M (to_R v).
Proof.
  unfold weighted_value_of. intros H.
  destruct (if gtb max_pts d0 then truediv score max_pts else Ok d0) as [n|] eqn:En;
    [|discriminate].
  cbn [rbind] in H.
  destruct (truediv w d100) as [wf|] eqn:Ewf; [|discriminate]. cbn [rbind] in H.
  destruct (mul n wf) as [p|] eqn:Ep; [|discriminate]. cbn [rbind] in H.
  apply truediv_correctly_rounded in Ewf. destruct Ewf as [_ Ewf].
  rewrite to_R_d100 in Ewf.
  apply mul_correctly_rounded in Ep, H. rewrite to_R_of_Z in H.
  exists (to_R n), (to_R wf), (to_R p).
  split; [|split; [|by repeat split]].
  - intros Hpos. destruct (gtb max_pts d0) eqn:Hgt.
    + apply truediv_correctly_rounded in En. by destruct En.
    + assert (Hgt' : gtb max_pts d0 = true) by (apply gtb_to_R; rewrite to_R_d0; lra).
      congruence.
  - intros Hle. destruct (gtb max_pts d0) eqn:Hgt.
    + apply gtb_to_R in Hgt. rewrite to_R_d0 in Hgt. lra.
    + apply Ok_inj in En. subst n. apply to_R_d0.
Qed.

Lemma mapM_context (scores : list score_entry) (M : Z) (criteria : list criterion) :
  forall values,
    mapM (weighted_value_for scores M) criteria = Ok values ->
    Forall2 (fun c v =>
               context_weighted_value (to_R (raw_score_for scores c))
                 (to_R (max_points_of c)) (to_R (weight_of c)) M (to_R v))
      criteria values.
Proof.
  induction criteria as [|c rest IH]; intros values H.
  - cbn in H. apply Ok_inj in H. subst. constructor.
  - cbn [mapM] in H.
    destruct (weighted_value_for scores M c) as [v|] eqn:Ev; [|discriminate].
    cbn [rbind] in H.
    destruct (mapM (weighted_value_for scores M) rest) as [vs|] eqn:Evs; [|discriminate].
    cbn [rbind] in H. apply Ok_inj in H. subst values.
    constructor; [by apply weighted_value_context|by apply IH].
Qed.

Lemma add_all_context (values : list Decimal.t) :
  forall acc total,
    add_all acc values = Ok total ->
    context_sum (to_R acc) (map to_R values) (to_R total).
Proof.
  induction values as [|v rest IH]; intros acc total H.
  - cbn in H. apply Ok_inj in H. by subst.
  - cbn [add_all] in H.
    destruct (add acc v) as [acc'|] eqn:Ea; [|discriminate]. cbn [rbind] in H.
    cbn [map context_sum]. exists (to_R acc').
    split; [by apply add_correctly_rounded|by apply IH].
Qed.

Lemma Forall2_round2 (values : list Decimal.t) :
  forall qs : list Decimal.t,
    qs = map round2 values ->
    Forall2 (fun v q => rounded_half_up (-2) (to_R v) (to_R q)) values qs.
Proof.
  induction values as [|v rest IH]; intros qs ->; cbn [map]; constructor.
  - apply round2_rounded.
  - by apply IH.
Qed.

(** C8 (amended): when the call returns, the total is the half-up
    rounding to two places of the Decimal sum the loop has accumulated,
    and each breakdown entry's weighted score is the half-up rounding of
    that criterion's Decimal weighted value; the floats returned are the
    doubles nearest to these two-place Decimals.  The weighted value and
    the sum are not the exact ones: the context has rounded each quotient,
    each product and each partial sum to 28 significant digits, ties to
    even, before the next operation. *)
Theorem calculate_weighted_score_rounds_half_up
    (scores : list score_entry) (criteria : list criterion) (max_score : Z)
    (r : weighted_result) :
  calculate_weighted_score scores criteria max_score = Ok r ->
  exists (values : list Decimal.t) (weighted_sum : Decimal.t),
    mapM (weighted_value_for scores max_score) criteria = Ok values
    /\ add_all d0 values = Ok weighted_sum
    /\ weighted_total r = round2 weighted_sum
    /\ map weighted_score (breakdown r) = map round2 values
    /\ Forall2 (fun c v =>
                  context_weighted_value (to_R (raw_score_for scores c))
                    (to_R (max_points_of c)) (to_R (weight_of c)) max_score (to_R v))
         criteria values
    /\ context_sum 0 (map to_R values) (to_R weighted_sum)
    /\ rounded_half_up (-2) (to_R weighted_sum) (to_R (weighted_total r))
    /\ Forall2 (fun v q => rounded_half_up (-2) (to_R v) (to_R q))
         values (map weighted_score (breakdown r))
    /\ PyFloat.final_score r = PyFloat.of_decimal (round2 weighted_sum)
    /\ map PyFloat.weighted_score_float (breakdown r)
       = map (fun v => PyFloat.of_decimal (round2 v)) values.
Proof.
  unfold calculate_weighted_score. intros H.
  destruct (loop (build_score_map scores) max_score criteria ([], d0))
    as [[bd ws]|] eqn:Hloop; [|discriminate].
  cbn [rbind] in H.
  destruct (quantize2 ws) as [q|] eqn:Hq; [|discriminate]. cbn [rbind] in H.
  injection H as <-. cbn [weighted_total breakdown].
  apply loop_values in Hloop. destruct Hloop as (values & new & Hv & Hall & -> & Hmap).
  cbn [app] in *.
  assert (Hv' : mapM (weighted_value_for scores max_score) criteria = Ok values).
  { rewrite <- Hv. apply mapM_ext. intros c _. unfold weighted_value_for, raw_score_for.
    by rewrite build_score_map_lookup. }
  pose proof (quantize2_round2 _ _ Hq) as Hq2.
  exists values, ws.
  split; [exact Hv'|]. split; [exact Hall|]. split; [exact Hq2|].
  split; [exact Hmap|]. split; [by apply mapM_context|].
  split; [rewrite <- to_R_d0; by apply add_all_context|].
  split; [by apply quantize2_value|].
  split; [by apply Forall2_round2|].
  split; [unfold PyFloat.final_score; cbn [weighted_total]; by rewrite Hq2|].
  unfold PyFloat.weighted_score_float.
  rewrite <- (map_map weighted_score PyFloat.of_decimal), Hmap, map_map. reflexivity.
Qed.

(** C8, as stated, fails: the value that is rounded half-up is not the
    exact one.  A score of 5 out of 24 with weight 21 and max_score 100
    has the exact value 4.375, which rounds half-up to 4.38.  The code
    computes 5 / 24 = 0.2083333333333333333333333333 (28 digits), then
    0.04374999999999999999999999999 and 4.374999999999999999999999999,
    and returns 4.37 for the total and for the criterion. *)
Lemma calculate_weighted_score_rounds_inexact_value :
  let scores := [Score 1 (of_Z 5)] in
  let criteria := [Criterion 1 (Some (of_Z 21)) (Some (of_Z 24)) None] in
  let x := exact_weighted_value (to_R (of_Z 5)) (to_R (of_Z 24)) (to_R (of_Z 21)) 100 in
  mapM (weighted_value_for scores 100) criteria
  = Ok [Dec false 4374999999999999999999999999 (-27)]
  /\ calculate_weighted_score scores criteria 100
     = Ok (WeightedResult (Dec false 437 (-2))
             [Detail 1 ""%string (of_Z 5) (of_Z 24) (of_Z 21) (Dec false 437 (-2))] 100)
  /\ x = 4375 / 1000
  /\ rounded_half_up (-2) x (to_R (Dec false 438 (-2)))
  /\ ~ rounded_half_up (-2) x (to_R (Dec false 437 (-2))).
Proof.
  cbv zeta.
  assert (Hx : exact_weighted_value (to_R (of_Z 5)) (to_R (of_Z 24)) (to_R (of_Z 21)) 100
               = 4375 / 1000).
  { unfold exact_weighted_value. rewrite !to_R_of_Z. field. }
  assert (H437 : to_R (Dec false 437 (-2)) = 437 / 100).
  { unfold to_R, signed, coef. cbn [dsign dint dexp]. rewrite p10_m2.
    change (Z.of_N 437) with 437%Z. field. }
  assert (H438 : to_R (Dec false 438 (-2)) = 438 / 100).
  { unfold to_R, signed, coef. cbn [dsign dint dexp]. rewrite p10_m2.
    change (Z.of_N 438) with 438%Z. field. }
  split; [vm_compute; reflexivity|]. split; [vm_compute; reflexivity|].
  split; [exact Hx|]. rewrite Hx, H437, H438. split.
  - exists 438%Z. rewrite p10_m2. split; [field|].
    replace (4375 / 1000 - 438 / 100) with (- (5 / 1000)) by field.
    rewrite Rabs_Ropp, !Rabs_pos_eq by lra. split; intros; lra.
  - intros (j & Hj & Hd & Htie). rewrite p10_m2 in *.
    replace (4375 / 1000 - 437 / 100) with (5 / 1000) in * by field.
    rewrite !Rabs_pos_eq in Htie by lra. lra.
Qed.

End RoundedTotalsTheorem.

Section RoundedTotalsWitness.
Import Decimal DecimalValue WeightedScoringCalculator Reference ContextArithmetic.

(** C8, witness: a score of 125 out of 1000 with weight 100 and
    max_score 1 has the value 0.125, reported as 0.13. *)
Lemma calculate_weighted_score_rounds_half_up_witness :
  exists (values : list Decimal.t) (weighted_sum : Decimal.t),
    mapM (weighted_value_for [Score 1 (of_Z 125)] 1)
      [Criterion 1 (Some (of_Z 100)) (Some (of_Z 1000)) None] = Ok values
    /\ add_all d0 values = Ok weighted_sum
    /\ Dec false 13 (-2) = round2 weighted_sum
    /\ [Dec false 13 (-2)] = map round2 values.
Proof.
  destruct (calculate_weighted_score_rounds_half_up
              [Score 1 (of_Z 125)]
              [Criterion 1 (Some (of_Z 100)) (Some (of_Z 1000)) None] 1
              (WeightedResult (Dec false 13 (-2))
                 [Detail 1 ""%string (of_Z 125) (of_Z 1000) (of_Z 100) (Dec false 13 (-2))] 1)
              eq_refl)
    as (values & weighted_sum & H1 & H2 & H3 & H4 & _).
  exists values, weighted_sum. repeat split; assumption.
Defined.

End RoundedTotalsWitness.

(** ** Perfect and zero scores *)

Section ScaledValues.
Import Decimal DecimalValue WeightedScoringCalculator Reference.
Local Open Scope R_scope.

Variables (k M : Z).
Hypothesis Hk : (0 <= k <= 25)%Z.
Hypothesis HM : (Z.abs M * 10 ^ (k + 2) < 10 ^ 28)%Z.

Lemma scale_pos : (0 < 10 ^ (k + 2))%Z.
Proof. apply pow10_pos. lia. Qed.

Lemma scale_lt : (10 ^ (k + 2) < 10 ^ 28)%Z.
Proof. apply pow10_lt. lia. Qed.

Lemma max_score_small : (Z.abs M <= 10 ^ 26 - 1)%Z.
Proof.
  pose proof scale_pos. pose proof (pow10_le 2 (k + 2) ltac:(lia)) as H2.
  change (10 ^ 2)%Z with 100%Z in H2. change (10 ^ 28)%Z with (10 ^ 26 * 100)%Z in HM.
  change (10 ^ 26)%Z with 100000000000000000000000000%Z in *. nia.
Qed.

Lemma abs_scaled_le (f u : Z) :
  (0 <= f <= 1)%Z -> (0 <= u <= 10 ^ (k + 2))%Z ->
  (Z.abs (f * u * M) <= Z.abs M * 10 ^ (k + 2))%Z.
Proof.
  intros Hf Hu. rewrite !Z.abs_mul, (Z.abs_eq f), (Z.abs_eq u) by lia.
  pose proof (Z.abs_nonneg M). set (T := (10 ^ (k + 2))%Z) in *.
  assert (0 <= f * u <= T)%Z by nia.
  rewrite (Z.mul_comm (Z.abs M)). apply Z.mul_le_mono_nonneg_r; lia.
Qed.

Lemma abs_scaled_lt (f u : Z) :
  (0 <= f <= 1)%Z -> (0 <= u <= 10 ^ (k + 2))%Z -> (Z.abs (f * u * M) < 10 ^ 28)%Z.
Proof.
  intros Hf Hu. eapply Z.le_lt_trans; [by apply abs_scaled_le|exact HM].
Qed.

Lemma scale_unit : IZR (10 ^ (k + 2)) * p10 (- k - 2) = 1.
Proof.
  rewrite <- p10_IZR by lia. rewrite <- p10_add.
  replace (k + 2 + (- k - 2))%Z with 0%Z by lia. apply p10_0.
Qed.

Lemma representable_scaled (z : Z) :
  (Z.abs z < 10 ^ 28)%Z -> representable (IZR z * p10 (- k - 2)).
Proof.
  intros Hz. exists z, (- k - 2)%Z. split; [reflexivity|]. split; [exact Hz|].
  unfold Etiny, Emin, prec. lia.
Qed.




Lemma to_R_weight_units (c : criterion) :
  (- k <= dexp (weight_of c))%Z ->
  to_R (weight_of c) = IZR (weight_units k c) * p10 (- k).
Proof.
  intros H. rewrite (to_R_scaled _ (- k)) by done. unfold weight_units.
  replace (dexp (weight_of c) - - k)%Z with (dexp (weight_of c) + k)%Z by lia.
  reflexivity.
Qed.



Lemma total_units_nonneg (criteria : list criterion) :
  (forall c, c ∈ criteria -> 0 <= signed (weight_of c) /\ - k <= dexp (weight_of c))%Z ->
  (0 <= total_units k criteria)%Z.
Proof.
  induction criteria as [|c rest IH]; intros H; [cbn; lia|].
  cbn [total_units foldr]. fold (total_units k rest).
  destruct (H c ltac:(left)) as [Hs He].
  pose proof (pow10_pos (dexp (weight_of c) + k) ltac:(lia)).
  specialize (IH ltac:(intros c' Hc'; apply H; by right)).
  unfold weight_units. nia.
Qed.

Lemma weight_units_nonneg (c : criterion) :
  (0 <= signed (weight_of c))%Z -> (- k <= dexp (weight_of c))%Z ->
  (0 <= weight_units k c)%Z.
Proof.
  intros Hs He. pose proof (pow10_pos (dexp (weight_of c) + k) ltac:(lia)).
  unfold weight_units. nia.
Qed.



End ScaledValues.

(** ** The float conversion of an integer value *)

Section FloatConversion.
Import Decimal DecimalValue WeightedScoringCalculator PyFloat.




End FloatConversion.
(** ** Perfect and zero scores: the theorem *)

Section PerfectAndZeroScores.
Import Decimal DecimalValue WeightedScoringCalculator Reference.



End PerfectAndZeroScores.

Section PerfectAndZeroScoresWitness.
Import Decimal WeightedScoringCalculator Reference.


End PerfectAndZeroScoresWitness.

(** ** Monotonicity of the weighted total *)

Section Monotone.
Import Decimal DecimalValue WeightedScoringCalculator Reference.
Local Open Scope R_scope.

Lemma weighted_value_mono (s1 s2 max_pts w v1 v2 : t) (M : Z) :
  (0 <= M)%Z -> 0 <= to_R w -> to_R s1 <= to_R s2 ->
  weighted_value_of s1 max_pts w M = Ok v1 ->
  weighted_value_of s2 max_pts w M = Ok v2 ->
  to_R v1 <= to_R v2.
Proof.
  intros HM Hw Hs. unfold weighted_value_of. intros H1 H2.
  assert (Hn : forall n1 n2,
            (if gtb max_pts d0 then truediv s1 max_pts else Ok d0) = Ok n1 ->
            (if gtb max_pts d0 then truediv s2 max_pts else Ok d0) = Ok n2 ->
            to_R n1 <= to_R n2).
  { intros n1 n2. destruct (gtb max_pts d0) eqn:Hgt.
    - intros E1 E2. apply gtb_to_R in Hgt. rewrite to_R_d0 in Hgt.
      apply truediv_correctly_rounded in E1, E2.
      destruct E1 as [_ E1], E2 as [_ E2].
      refine (correctly_rounded_mono _ _ _ _ _ E1 E2).
      unfold Rdiv. apply Rmult_le_compat_r; [|done].
      apply Rlt_le, Rinv_0_lt_compat. lra.
    - intros E1 E2. apply Ok_inj in E1, E2. subst. lra. }
  destruct (if gtb max_pts d0 then truediv s1 max_pts else Ok d0) as [n1|] eqn:E1;
    [|discriminate].
  destruct (if gtb max_pts d0 then truediv s2 max_pts else Ok d0) as [n2|] eqn:E2;
    [|discriminate].
  specialize (Hn n1 n2 eq_refl eq_refl). cbn [rbind] in H1, H2.
  destruct (truediv w d100) as [wf|] eqn:Ewf; [|discriminate]. cbn [rbind] in H1, H2.
  apply truediv_correctly_rounded in Ewf. destruct Ewf as [_ Ewf].
  rewrite to_R_d100 in Ewf.
  assert (Hwf : 0 <= to_R wf).
  { apply (correctly_rounded_nonneg _ _ Ewf). lra. }
  destruct (mul n1 wf) as [p1|] eqn:Ep1; [|discriminate].
  destruct (mul n2 wf) as [p2|] eqn:Ep2; [|discriminate]. cbn [rbind] in H1, H2.
  apply mul_correctly_rounded in Ep1, Ep2, H1, H2.
  assert (Hp : to_R p1 <= to_R p2).
  { refine (correctly_rounded_mono _ _ _ _ _ Ep1 Ep2). nra. }
  refine (correctly_rounded_mono _ _ _ _ _ H1 H2).
  rewrite to_R_of_Z. apply IZR_le in HM. nra.
Qed.

Lemma loop_mono (m1 m2 : gmap Z Decimal.t) (M : Z) (criteria : list criterion) :
  (0 <= M)%Z ->
  (forall c, c ∈ criteria ->
     0 <= to_R (weight_of c)
     /\ to_R (default d0 (m1 !! c_id c)) <= to_R (default d0 (m2 !! c_id c))) ->
  forall bd1 bd2 acc1 acc2 bd1' bd2' ws1 ws2,
    to_R acc1 <= to_R acc2 ->
    loop m1 M criteria (bd1, acc1) = Ok (bd1', ws1) ->
    loop m2 M criteria (bd2, acc2) = Ok (bd2', ws2) ->
    to_R ws1 <= to_R ws2.
Proof.
  intros HM. induction criteria as [|c rest IH];
    intros Hall bd1 bd2 acc1 acc2 bd1' bd2' ws1 ws2 Hacc H1 H2.
  { cbn in H1, H2. apply Ok_inj in H1, H2. by simplify_eq. }
  cbn [loop] in H1, H2. unfold step at 1 in H1. unfold step at 1 in H2.
  destruct (Hall c ltac:(left)) as [Hw Hs].
  destruct (weighted_value_of (default d0 (m1 !! c_id c)) _ _ _) as [v1|] eqn:Ev1;
    [|discriminate].
  destruct (weighted_value_of (default d0 (m2 !! c_id c)) _ _ _) as [v2|] eqn:Ev2;
    [|discriminate].
  cbn [rbind] in H1, H2.
  pose proof (weighted_value_mono _ _ _ _ _ _ M HM Hw Hs Ev1 Ev2) as Hv.
  destruct (quantize2 v1) as [q1|]; [|discriminate].
  destruct (quantize2 v2) as [q2|]; [|discriminate]. cbn [rbind] in H1, H2.
  destruct (add acc1 v1) as [a1|] eqn:Ea1; [|discriminate].
  destruct (add acc2 v2) as [a2|] eqn:Ea2; [|discriminate]. cbn [rbind] in H1, H2.
  apply add_correctly_rounded in Ea1, Ea2.
  refine (IH _ _ _ a1 a2 _ _ _ _ _ H1 H2).
  - intros c' Hc'. apply Hall. by right.
  - refine (correctly_rounded_mono _ _ _ _ _ Ea1 Ea2). lra.
Qed.

(** C5 (amended): with non-negative weights and a non-negative max_score,
    raising raw scores (of one criterion, the others fixed, or of several)
    never lowers the weighted_total, whenever both calls return. *)
Theorem calculate_weighted_score_monotone
    (scores1 scores2 : list score_entry) (criteria : list criterion) (max_score : Z)
    (r1 r2 : weighted_result) :
  (0 <= max_score)%Z ->
  (forall c, c ∈ criteria -> leb d0 (weight_of c) = true) ->
  (forall c, c ∈ criteria ->
     leb (raw_score_for scores1 c) (raw_score_for scores2 c) = true) ->
  calculate_weighted_score scores1 criteria max_score = Ok r1 ->
  calculate_weighted_score scores2 criteria max_score = Ok r2 ->
  leb (weighted_total r1) (weighted_total r2) = true.
Proof.
  intros HM Hw Hs. unfold calculate_weighted_score. intros H1 H2.
  destruct (loop (build_score_map scores1) max_score criteria ([], d0))
    as [[bd1 ws1]|] eqn:L1; [|discriminate].
  destruct (loop (build_score_map scores2) max_score criteria ([], d0))
    as [[bd2 ws2]|] eqn:L2; [|discriminate].
  cbn [rbind] in H1, H2.
  destruct (quantize2 ws1) as [q1|] eqn:Q1; [|discriminate].
  destruct (quantize2 ws2) as [q2|] eqn:Q2; [|discriminate].
  cbn [rbind] in H1, H2. apply Ok_inj in H1, H2. subst r1 r2. cbn [weighted_total].
  apply leb_to_R. apply quantize2_value in Q1, Q2.
  refine (rounded_half_up_mono (-2) _ _ _ _ _ Q1 Q2).
  refine (loop_mono _ _ max_score criteria HM _ _ _ _ _ _ _ _ _ (Rle_refl _) L1 L2).
  intros c Hc. split.
  - rewrite <- to_R_d0. apply leb_to_R. by apply Hw.
  - rewrite !build_score_map_lookup. apply leb_to_R. by apply Hs.
Qed.

(** C5, as stated, fails: with a negative weight, or with a negative
    max_score, a higher raw score gives a lower total. *)
Lemma calculate_weighted_score_not_monotone :
  (exists r1 r2,
     calculate_weighted_score [Score 1 (of_Z 1)] Samples.negative_weight 100 = Ok r1
     /\ calculate_weighted_score [Score 1 (of_Z 2)] Samples.negative_weight 100 = Ok r2
     /\ ltb (weighted_total r2) (weighted_total r1) = true)
  /\ (exists r1 r2,
        calculate_weighted_score [Score 1 (of_Z 1)] Samples.out_of_ten (-100) = Ok r1
        /\ calculate_weighted_score [Score 1 (of_Z 2)] Samples.out_of_ten (-100) = Ok r2
        /\ ltb (weighted_total r2) (weighted_total r1) = true).
Proof.
  split; eexists _, _; (split; [vm_compute; reflexivity|]);
    (split; [vm_compute; reflexivity|]); vm_compute; reflexivity.
Qed.

End Monotone.

Section MonotoneWitness.
Import Decimal WeightedScoringCalculator Reference.

(** C5, witness: raising the raw score from 1 to 2 out of 10, with weight
    100 and max_score 100, raises the total from 10.00 to 20.00. *)
Lemma calculate_weighted_score_monotone_witness :
  leb (Dec false 1000 (-2)) (Dec false 2000 (-2)) = true.
Proof.
  apply (calculate_weighted_score_monotone
           [Score 1 (of_Z 1)] [Score 1 (of_Z 2)] Samples.out_of_ten 100
           (WeightedResult (Dec false 1000 (-2))
              [Detail 1 ""%string (of_Z 1) (of_Z 10) d100 (Dec false 1000 (-2))] 100)
           (WeightedResult (Dec false 2000 (-2))
              [Detail 1 ""%string (of_Z 2) (of_Z 10) d100 (Dec false 2000 (-2))] 100)).
  - lia.
  - intros c Hc. apply list_elem_of_singleton in Hc. subst c. reflexivity.
  - intros c Hc. apply list_elem_of_singleton in Hc. subst c. reflexivity.
  - reflexivity.
  - reflexivity.
Defined.

End MonotoneWitness.

(** ** Copies, not writes: what the anonymisation filter leaves alone *)

Section AnonymizeRun.
Import Anonymity Observe.
Local Open Scope string_scope.

Lemma rbind_ok {A B : Type} (m : result A) (k : A -> result B) (b : B) :
  rbind m k = Ok b -> exists a, m = Ok a /\ k a = Ok b.
Proof. destruct m; cbn; [eauto|discriminate]. Qed.

Lemma py_setitem_spec (h : heap) (v : value) (key : string) (x : value) (h' : heap) :
  py_setitem h v key x = Ok h' ->
  exists a d, v = VRef a /\ h !! a = Some (ODict d)
              /\ h' = <[a := ODict (<[key := x]> d)]> h.
Proof.
  unfold py_setitem. destruct v as [| | | |a]; try discriminate.
  destruct (h !! a) as [[d|xs]|] eqn:E; [|discriminate..]. intros [= <-]. by exists a, d.
Qed.

Lemma py_copy_spec (h : heap) (v r : value) (h' : heap) :
  py_copy h v = Ok (r, h') ->
  exists l o, v = VRef l /\ h !! l = Some o /\ r = VRef (length h) /\ h' = (h ++ [o])%list.
Proof.
  unfold py_copy. destruct v as [| | | |l]; try discriminate.
  destruct (h !! l) as [o|] eqn:E; [|discriminate]. intros [= <- <-]. by exists l, o.
Qed.

(** What a returning call of [anonymize_evaluator] has done: it copied
    the record to the next free address, wrote at most there and at the
    address after it, and, for a role that may not see identities, left
    nothing but the sentinel under "evaluator". *)
Lemma anonymize_evaluator_run (v : value) (role : option string) (h : heap)
    (r : value) (h' : heap) :
  anonymize_evaluator v role h = Ok (r, h') ->
  exists l o,
    v = VRef l /\ h !! l = Some o /\ r = VRef (length h)
    /\ (forall i, (i < length h)%nat -> h' !! i = h !! i)
    /\ (length h < length h' <= length h + 2)%nat
    /\ (_can_view_evaluator_identity role = true -> h' = (h ++ [o])%list)
    /\ (_can_view_evaluator_identity role = false ->
        forall d', h' !! length h = Some (ODict d') ->
        forall x, d' !! "evaluator" = Some x ->
        exists s, x = VRef s /\ (length h < s)%nat /\ h' !! s = Some (ODict sentinel)).
Proof.
  unfold anonymize_evaluator. intros H.
  apply rbind_ok in H. destruct H as ([r0 h1] & Hcopy & H).
  apply py_copy_spec in Hcopy. destruct Hcopy as (l & o & -> & Hl & -> & ->).
  exists l, o. split; [done|]. split; [done|].
  assert (Hnew : ((h ++ [o])%list) !! length h = Some o) by apply lookup_alloc_new.
  assert (Hlen1 : length ((h ++ [o])%list) = S (length h)).
  { rewrite length_app. simpl. lia. }
  destruct (_can_view_evaluator_identity role) eqn:Hcv; cbn [negb] in H.
  { injection H as <- <-. split; [done|].
    split; [intros i Hi; by apply lookup_alloc_old|].
    split; [lia|]. split; [done|discriminate]. }
  apply rbind_ok in H. destruct H as (has_ev & Hc1 & H).
  apply rbind_ok in H. destruct H as (h2 & Hset1 & H).
  apply rbind_ok in H. destruct H as (has_id & Hc2 & H).
  apply rbind_ok in H. destruct H as (h3 & Hset2 & H).
  injection H as <- <-. split; [done|].
  unfold py_contains in Hc1. rewrite Hnew in Hc1.
  (* the state after the first conditional write *)
  assert (H2 : length h2 = S (length h) /\ has_ev = false /\ h2 = (h ++ [o])%list
               \/ exists d, o = ODict d /\ has_ev = true
                    /\ h2 = <[length h := ODict (<["evaluator" := VRef (S (length h))]> d)]>
                              (((h ++ [o]) ++ [ODict sentinel])%list)).
  { destruct has_ev.
    - right. cbn [alloc] in Hset1. rewrite Hlen1 in Hset1.
      apply py_setitem_spec in Hset1. destruct Hset1 as (a & d & [= <-] & Ha & ->).
      rewrite lookup_app_l in Ha by lia. rewrite Hnew in Ha. injection Ha as ->.
      exists d. done.
    - left. injection Hset1 as <-. done. }
  assert (Hfacts2 : (forall i, (i < length h)%nat -> h2 !! i = h !! i)
                    /\ (length h < length h2 <= length h + 2)%nat
                    /\ (forall d2, h2 !! length h = Some (ODict d2) ->
                        forall x, d2 !! "evaluator" = Some x ->
                        exists s, x = VRef s /\ (length h < s)%nat
                                  /\ h2 !! s = Some (ODict sentinel))).
  { destruct H2 as [(Hl2 & -> & ->)|(d & -> & -> & ->)].
    - split; [intros i Hi; by apply lookup_alloc_old|]. split; [lia|].
      intros d2 Hd2 x Hx. rewrite Hnew in Hd2. injection Hd2 as ->.
      injection Hc1 as Hc1. apply bool_decide_eq_false in Hc1.
      exfalso. apply Hc1. eauto.
    - split.
      { intros i Hi. rewrite list_lookup_insert_ne by lia.
        rewrite lookup_app_l by lia. by apply lookup_alloc_old. }
      split; [rewrite length_insert, length_app, Hlen1; simpl; lia|].
      intros d2 Hd2 x Hx.
      rewrite list_lookup_insert_eq in Hd2
        by (rewrite length_app, Hlen1; simpl; lia).
      injection Hd2 as <-. rewrite lookup_insert_eq in Hx. injection Hx as <-.
      exists (S (length h)). split; [done|]. split; [lia|].
      rewrite list_lookup_insert_ne by lia.
      rewrite <- Hlen1. apply lookup_alloc_new. }
  clear H2 Hset1 Hc1.
  destruct Hfacts2 as (Hold2 & Hlen2 & Hev2).
  destruct has_id.
  - apply py_setitem_spec in Hset2. destruct Hset2 as (a & d2 & [= <-] & Ha & ->).
    split; [intros i Hi; rewrite list_lookup_insert_ne by lia; by apply Hold2|].
    split; [rewrite length_insert; lia|]. split; [discriminate|].
    intros _ d' Hd' x Hx.
    rewrite list_lookup_insert_eq in Hd' by lia. injection Hd' as <-.
    rewrite lookup_insert_ne in Hx by done.
    destruct (Hev2 d2 Ha x Hx) as (s & -> & Hs & Hsent).
    exists s. split; [done|]. split; [done|].
    by rewrite list_lookup_insert_ne by lia.
  - injection Hset2 as <-. split; [done|]. split; [done|]. split; [discriminate|].
    intros _. exact Hev2.
Qed.

End AnonymizeRun.

Section AnonymizeList.
Import Anonymity Observe.
Local Open Scope string_scope.

Lemma anonymize_each_run (role : option string) (xs : list value) :
  forall (h : heap) (rs : list value) (h' : heap),
    anonymize_each xs role h = Ok (rs, h') ->
    (forall i, (i < length h)%nat -> h' !! i = h !! i)
    /\ (length h <= length h')%nat
    /\ length rs = length xs
    /\ (forall i r, rs !! i = Some r ->
          exists a, r = VRef a /\ (length h <= a < length h')%nat
            /\ (_can_view_evaluator_identity role = false ->
                forall d', h' !! a = Some (ODict d') ->
                forall x, d' !! "evaluator" = Some x ->
                exists s, x = VRef s /\ h' !! s = Some (ODict sentinel)
                          /\ (length h <= s)%nat)).
Proof.
  induction xs as [|x rest IH]; intros h rs h' H.
  { cbn in H. injection H as <- <-. repeat split; done. }
  cbn [anonymize_each] in H.
  apply rbind_ok in H. destruct H as ([r1 h1] & Hhead & H).
  apply rbind_ok in H. destruct H as ([rs1 h2] & Htail & H).
  injection H as <- <-.
  apply anonymize_evaluator_run in Hhead.
  destruct Hhead as (l & o & -> & Hl & -> & Hold1 & Hlen1 & _ & Hev1).
  apply IH in Htail. destruct Htail as (Hold2 & Hlen2 & Hlenrs & Hrs).
  split; [intros i Hi; rewrite Hold2 by lia; by apply Hold1|].
  split; [lia|]. split; [cbn; by rewrite Hlenrs|].
  intros [|i] r Hr; cbn in Hr.
  - injection Hr as <-. exists (length h). split; [done|]. split; [lia|].
    intros Hcv d' Hd' y Hy. rewrite Hold2 in Hd' by lia.
    destruct (Hev1 Hcv d' Hd' y Hy) as (s & -> & Hs & Hsent).
    exists s. split; [done|].
    assert (s < length h1)%nat by (apply lookup_lt_is_Some; eauto).
    split; [by rewrite Hold2|lia].
  - destruct (Hrs i r Hr) as (a & -> & Ha & Hleak).
    exists a. split; [done|]. split; [lia|].
    intros Hcv d' Hd' y Hy.
    destruct (Hleak Hcv d' Hd' y Hy) as (s & -> & Hsent & Hge).
    exists s. split; [done|]. split; [done|lia].
Qed.

Lemma anonymize_evaluation_list_run (evs : value) (role : option string) (h : heap)
    (r : value) (h' : heap) :
  anonymize_evaluation_list evs role h = Ok (r, h') ->
  exists xs rs,
    py_iter h evs = Ok xs
    /\ r = VRef (length h' - 1) /\ (length h < length h')%nat
    /\ h' !! (length h' - 1)%nat = Some (OList rs)
    /\ length rs = length xs
    /\ (forall i, (i < length h)%nat -> h' !! i = h !! i)
    /\ (forall i x, rs !! i = Some x ->
          exists a, x = VRef a /\ (length h <= a < length h' - 1)%nat
            /\ (_can_view_evaluator_identity role = false ->
                forall d', h' !! a = Some (ODict d') ->
                forall y, d' !! "evaluator" = Some y ->
                exists s, y = VRef s /\ h' !! s = Some (ODict sentinel)
                          /\ (length h <= s < length h' - 1)%nat)).
Proof.
  unfold anonymize_evaluation_list. intros H.
  apply rbind_ok in H. destruct H as (xs & Hiter & H).
  apply rbind_ok in H. destruct H as ([rs h1] & Heach & H).
  injection H as <- <-.
  apply anonymize_each_run in Heach. destruct Heach as (Hold & Hlen & Hlenrs & Hrs).
  assert (Hl : length ((h1 ++ [OList rs])%list) = S (length h1)).
  { rewrite length_app. simpl. lia. }
  exists xs, rs. rewrite Hl. replace (S (length h1) - 1)%nat with (length h1) by lia.
  split; [done|]. split; [done|]. split; [lia|].
  split; [apply lookup_alloc_new|]. split; [done|].
  split; [intros i Hi; rewrite lookup_alloc_old by lia; by apply Hold|].
  intros i x Hx. destruct (Hrs i x Hx) as (a & -> & Ha & Hleak).
  exists a. split; [done|]. split; [lia|].
  intros Hcv d' Hd' y Hy. rewrite lookup_alloc_old in Hd' by lia.
  destruct (Hleak Hcv d' Hd' y Hy) as (s & -> & Hsent & Hge).
  exists s. split; [done|].
  assert (s < length h1)%nat by (apply lookup_lt_is_Some; eauto).
  split; [by rewrite lookup_alloc_old|lia].
Qed.

(** anonymize_evaluation_list copies and never writes: whenever it
    returns, every object stored before the call is unchanged, and the
    result is a new list with one record per element it was given. *)
Theorem anonymize_evaluation_list_copies (evs : value) (role : option string)
    (h : heap) (r : value) (h' : heap) :
  anonymize_evaluation_list evs role h = Ok (r, h') ->
  (forall i, (i < length h)%nat -> h' !! i = h !! i)
  /\ exists (a : nat) (xs rs : list value),
       py_iter h evs = Ok xs
       /\ r = VRef a /\ (length h <= a)%nat
       /\ h' !! a = Some (OList rs)
       /\ length rs = length xs.
Proof.
  intros H. apply anonymize_evaluation_list_run in H.
  destruct H as (xs & rs & Hiter & -> & Hlen & Hr & Hlenrs & Hold & _).
  split; [exact Hold|]. exists (length h' - 1)%nat, xs, rs.
  repeat split; try done. lia.
Qed.

(** For a role that may not see identities, no record of the returned
    list names its evaluator: whatever [result[i]["evaluator"]] reads, it
    is the sentinel dictionary. *)
Theorem anonymize_evaluation_list_hides_evaluators (evs : value) (role : option string)
    (h : heap) (r : value) (h' : heap) (i : nat) (x : value) :
  unprivileged role ->
  anonymize_evaluation_list evs role h = Ok (r, h') ->
  py_path h' r [KIdx i; KStr "evaluator"] = Some x ->
  exists s, x = VRef s /\ h' !! s = Some (ODict sentinel).
Proof.
  intros Hu H Hpath. apply unprivileged_cannot_view in Hu.
  apply anonymize_evaluation_list_run in H.
  destruct H as (xs & rs & _ & -> & _ & Hr & _ & _ & Hrs).
  cbn [py_path py_index] in Hpath. rewrite Hr in Hpath.
  destruct (rs !! i) as [v|] eqn:Hv; [|discriminate].
  destruct (Hrs i v Hv) as (a & -> & _ & Hleak).
  cbn [py_index] in Hpath.
  destruct (h' !! a) as [[d'|ys]|] eqn:Ha; [|discriminate..].
  destruct (d' !! "evaluator") as [y|] eqn:Hy; [|discriminate].
  injection Hpath as <-.
  destruct (Hleak Hu d' eq_refl y Hy) as (s & -> & Hsent & _). by exists s.
Qed.

Lemma anonymize_each_privileged (role : option string) (xs : list value) :
  _can_view_evaluator_identity role = true ->
  forall h : heap,
    (forall x, x ∈ xs -> exists a, x = VRef a /\ is_Some (h !! a)) ->
    exists os : list obj,
      anonymize_each xs role h
        = Ok (VRef <$> seq (length h) (length xs), (h ++ os)%list)
      /\ length os = length xs
      /\ (forall i a, xs !! i = Some (VRef a) -> os !! i = h !! a).
Proof.
  intros Hcv. induction xs as [|x rest IH]; intros h Hall.
  { exists []. cbn. rewrite app_nil_r. repeat split; done. }
  destruct (Hall x ltac:(left)) as (a & -> & [o Ho]).
  assert (Hhead : anonymize_evaluator (VRef a) role h
                  = Ok (VRef (length h), (h ++ [o])%list)).
  { unfold anonymize_evaluator, py_copy. rewrite Ho. cbn [rbind alloc].
    rewrite Hcv. reflexivity. }
  destruct (IH ((h ++ [o])%list)) as (os & Htail & Hlen & Hos).
  { intros y Hy. destruct (Hall y ltac:(by right)) as (b & -> & [ob Hb]).
    exists b. split; [done|]. exists ob.
    rewrite lookup_app_l; [done|]. apply lookup_lt_is_Some. eauto. }
  exists (o :: os). cbn [anonymize_each]. rewrite Hhead. cbn [rbind].
  rewrite Htail. cbn [rbind]. split.
  { rewrite length_app. cbn [length seq fmap list_fmap].
    replace (length h + 1)%nat with (S (length h)) by lia.
    by rewrite <- app_assoc. }
  split; [cbn; by rewrite Hlen|].
  intros [|i] b Hb; cbn in Hb.
  - injection Hb as ->. cbn. by rewrite Ho.
  - change ((o :: os) !! S i) with (os !! i). rewrite (Hos i b Hb).
    destruct (Hall (VRef b)) as (b' & [= <-] & [ob Hob]).
    { right. eapply list_elem_of_lookup_2. exact Hb. }
    rewrite lookup_app_l; [done|]. apply lookup_lt_is_Some. eauto.
Qed.

(** For an instructor or an admin (in any letter case) a stored list of
    stored records is returned as a new list of copies: the call returns,
    no stored object is changed, and every field of every record reads in
    the result as it does in the input. *)
Theorem anonymize_evaluation_list_privileged (h : heap) (l : nat) (xs : list value)
    (role : option string) :
  h !! l = Some (OList xs) ->
  (forall x, x ∈ xs -> exists a, x = VRef a /\ is_Some (h !! a)) ->
  _can_view_evaluator_identity role = true ->
  exists (r : value) (h' : heap),
    anonymize_evaluation_list (VRef l) role h = Ok (r, h')
    /\ (forall i, (i < length h)%nat -> h' !! i = h !! i)
    /\ (forall i k, py_path h' r [KIdx i; k] = py_path h (VRef l) [KIdx i; k]).
Proof.
  intros Hl Hall Hcv.
  destruct (anonymize_each_privileged role xs Hcv h Hall) as (os & Heach & Hlen & Hos).
  unfold anonymize_evaluation_list, py_iter. rewrite Hl. cbn [rbind].
  rewrite Heach. cbn [rbind alloc]. eexists _, _. split; [reflexivity|].
  set (rs := VRef <$> seq (length h) (length xs)).
  split.
  { intros i Hi. rewrite lookup_app_l by (rewrite length_app; lia).
    by rewrite lookup_app_l. }
  intros i k. cbn [py_path py_index]. rewrite lookup_alloc_new, Hl.
  destruct (xs !! i) as [x|] eqn:Hx.
  - assert (Hi : (i < length xs)%nat) by (apply lookup_lt_is_Some; eauto).
    assert (Hrs : rs !! i = Some (VRef (length h + i))).
    { unfold rs. rewrite list_lookup_fmap, lookup_seq_lt by done. reflexivity. }
    rewrite Hrs. cbn [py_index].
    destruct (Hall x) as (a & -> & [o Ho]).
    { eapply list_elem_of_lookup_2. exact Hx. }
    rewrite lookup_app_l by (rewrite length_app; lia).
    rewrite lookup_app_r by lia.
    replace (length h + i - length h)%nat with i by lia.
    rewrite (Hos i a Hx). reflexivity.
  - assert (Hrs : rs !! i = None).
    { unfold rs. rewrite list_lookup_fmap, lookup_seq_ge; [done|].
      apply lookup_ge_None in Hx. lia. }
    by rewrite Hrs.
Qed.

End AnonymizeList.

Section AnonymizeCopies.
Import Anonymity Observe.
Local Open Scope string_scope.

(** anonymize_evaluator keeps its promise not to mutate the original:
    whenever it returns, the result is a new object, every object stored
    before the call is unchanged, and for an instructor or admin the new
    object is an exact copy of the record. *)
Theorem anonymize_evaluator_copies (v : value) (role : option string) (h : heap)
    (r : value) (h' : heap) :
  anonymize_evaluator v role h = Ok (r, h') ->
  r = VRef (length h)
  /\ (forall i, (i < length h)%nat -> h' !! i = h !! i)
  /\ (_can_view_evaluator_identity role = true ->
      exists l o, v = VRef l /\ h !! l = Some o /\ h' = (h ++ [o])%list).
Proof.
  intros H. apply anonymize_evaluator_run in H.
  destruct H as (l & o & -> & Hl & -> & Hold & _ & Hcopy & _).
  split; [done|]. split; [exact Hold|].
  intros Hcv. exists l, o. split; [done|]. split; [done|]. by apply Hcopy.
Qed.

(** A stored dictionary is always accepted, whatever the role; a value
    that is no stored object (None, a string, a number) has no [copy]
    method and raises AttributeError. *)
Theorem anonymize_evaluator_accepts_dicts (role : option string) (h : heap) :
  (forall l d, h !! l = Some (ODict d) ->
     exists r h', anonymize_evaluator (VRef l) role h = Ok (r, h'))
  /\ (forall v, (forall l, v <> VRef l) ->
        anonymize_evaluator v role h = Raise AttributeError).
Proof.
  split.
  - intros l d Hl. unfold anonymize_evaluator, py_copy. rewrite Hl. cbn [rbind alloc].
    destruct (_can_view_evaluator_identity role); cbn [negb]; [by eexists _, _|].
    assert (Hnew : ((h ++ [ODict d])%list) !! length h = Some (ODict d))
      by apply lookup_alloc_new.
    assert (Hlen1 : length ((h ++ [ODict d])%list) = S (length h)).
    { rewrite length_app. simpl. lia. }
    unfold py_contains at 1. rewrite Hnew. cbn [rbind].
    destruct (bool_decide (is_Some (d !! "evaluator"))).
    + unfold py_setitem at 1. rewrite lookup_app_l by lia. rewrite Hnew. cbn [rbind].
      unfold py_contains. rewrite list_lookup_insert_eq
        by (rewrite length_app, Hlen1; simpl; lia).
      cbn [rbind].
      destruct (bool_decide _); [|by eexists _, _].
      unfold py_setitem. rewrite list_lookup_insert_eq
        by (rewrite length_app, Hlen1; simpl; lia).
      by eexists _, _.
    + cbn [rbind]. unfold py_contains. rewrite Hnew. cbn [rbind].
      destruct (bool_decide _); [|by eexists _, _].
      unfold py_setitem. rewrite Hnew. by eexists _, _.
  - intros v Hv. unfold anonymize_evaluator, py_copy.
    destruct v as [| | | |l]; try reflexivity. by destruct (Hv l).
Qed.

Lemma anonymize_key_run (a : nat) (d0 : gmap string value) (key : string)
    (role : option string) (h h' : heap) :
  h !! a = Some (ODict d0) ->
  anonymize_key (VRef a) key role h = Ok h' ->
  (length h <= length h')%nat
  /\ (forall i, (i < length h)%nat -> i <> a -> h' !! i = h !! i)
  /\ exists d1, h' !! a = Some (ODict d1) /\ forall k, k <> key -> d1 !! k = d0 !! k.
Proof.
  intros Ha H. unfold anonymize_key in H.
  apply rbind_ok in H. destruct H as (present & Hc & H).
  destruct present.
  - apply rbind_ok in H. destruct H as (evs & _ & H).
    apply rbind_ok in H. destruct H as ([r h1] & Hlist & H).
    apply anonymize_evaluation_list_run in Hlist.
    destruct Hlist as (xs & rs & _ & _ & Hlen & _ & _ & Hold & _).
    apply py_setitem_spec in H. destruct H as (a' & d & [= <-] & Ha1 & ->).
    assert (Hlt : (a < length h)%nat) by (apply lookup_lt_is_Some; eauto).
    rewrite Hold, Ha in Ha1 by done. injection Ha1 as <-.
    split; [rewrite length_insert; lia|].
    split; [intros i Hi Hne; rewrite list_lookup_insert_ne by done; by apply Hold|].
    exists (<[key := r]> d0). split; [apply list_lookup_insert_eq; lia|].
    intros k Hk. by rewrite lookup_insert_ne.
  - injection H as <-. split; [done|]. split; [done|]. by exists d0.
Qed.

(** A report without "members" and "teams" is anonymised on the copy
    alone: whenever the call returns, every object stored before it is
    unchanged, the result is a new dictionary, and all its fields other
    than "evaluations" and "detailed_evaluations" are the report's own. *)
Theorem anonymize_report_data_flat_report_untouched
    (h : heap) (l : nat) (d : gmap string value) (role : option string)
    (r : value) (h' : heap) :
  h !! l = Some (ODict d) ->
  d !! "members" = None ->
  d !! "teams" = None ->
  anonymize_report_data (VRef l) role h = Ok (r, h') ->
  r = VRef (length h)
  /\ (forall i, (i < length h)%nat -> h' !! i = h !! i)
  /\ exists d', h' !! length h = Some (ODict d')
       /\ forall k, k <> "evaluations" -> k <> "detailed_evaluations" -> d' !! k = d !! k.
Proof.
  intros Hl Hm Ht H. unfold anonymize_report_data in H.
  apply rbind_ok in H. destruct H as ([r0 h1] & Hcopy & H).
  apply py_copy_spec in Hcopy. destruct Hcopy as (l' & o & [= <-] & Hl' & -> & ->).
  rewrite Hl in Hl'. injection Hl' as <-.
  assert (Hnew : ((h ++ [ODict d])%list) !! length h = Some (ODict d))
    by apply lookup_alloc_new.
  assert (Hlen1 : length ((h ++ [ODict d])%list) = S (length h)).
  { rewrite length_app. simpl. lia. }
  apply rbind_ok in H. destruct H as (h2 & Hk1 & H).
  apply (anonymize_key_run _ _ _ _ _ _ Hnew) in Hk1.
  destruct Hk1 as (Hlen2 & Hold2 & d1 & Hd1 & Hsame1).
  apply rbind_ok in H. destruct H as (h3 & Hk2 & H).
  apply (anonymize_key_run _ _ _ _ _ _ Hd1) in Hk2.
  destruct Hk2 as (Hlen3 & Hold3 & d2 & Hd2 & Hsame2).
  assert (Hm2 : d2 !! "members" = None) by (rewrite Hsame2, Hsame1 by done; done).
  assert (Ht2 : d2 !! "teams" = None) by (rewrite Hsame2, Hsame1 by done; done).
  apply rbind_ok in H. destruct H as (h4 & Hmem & H).
  assert (h4 = h3) as ->.
  { unfold anonymize_members_of, py_contains in Hmem. rewrite Hd2 in Hmem.
    cbn [rbind] in Hmem. rewrite Hm2 in Hmem.
    rewrite bool_decide_eq_false_2 in Hmem by (intros [? ?]; discriminate).
    by injection Hmem. }
  unfold py_contains in H. rewrite Hd2 in H. cbn [rbind] in H. rewrite Ht2 in H.
  rewrite bool_decide_eq_false_2 in H by (intros [? ?]; discriminate).
  cbn [rbind] in H. injection H as <- <-.
  split; [done|]. split.
  { intros i Hi. rewrite Hold3, Hold2 by lia. by apply lookup_alloc_old. }
  exists d2. split; [done|]. intros k Hk1 Hk2. by rewrite Hsame2, Hsame1.
Qed.

End AnonymizeCopies.

Section AnonymizeCopiesWitnesses.
Import Anonymity Observe Fixtures.
Local Open Scope string_scope.

(** Witness: the evaluation of the stored team report, read by a student. *)
Lemma anonymize_evaluator_copies_witness :
  exists (r : value) (h' : heap),
    anonymize_evaluator (VRef 1) (Some "student") team_report_heap = Ok (r, h')
    /\ r = VRef (length team_report_heap)
    /\ (forall i, (i < length team_report_heap)%nat -> h' !! i = team_report_heap !! i).
Proof.
  eexists _, _. split; [vm_compute; reflexivity|].
  match goal with
  | |- ?r = _ /\ (forall i, _ -> ?h' !! i = _) =>
      destruct (anonymize_evaluator_copies (VRef 1) (Some "student") team_report_heap r h')
        as (H1 & H2 & _); [vm_compute; reflexivity|exact (conj H1 H2)]
  end.
Defined.

(** Witness: the list of evaluations of the stored team report. *)
Lemma anonymize_evaluation_list_copies_witness :
  exists (r : value) (h' : heap),
    anonymize_evaluation_list (VRef 2) (Some "student") team_report_heap = Ok (r, h')
    /\ (forall i, (i < length team_report_heap)%nat -> h' !! i = team_report_heap !! i).
Proof.
  eexists _, _. split; [vm_compute; reflexivity|].
  match goal with
  | |- forall i, _ -> ?h' !! i = _ =>
      destruct (anonymize_evaluation_list_copies (VRef 2) (Some "student")
                  team_report_heap (VRef 8) h') as (H1 & _);
        [vm_compute; reflexivity|exact H1]
  end.
Defined.

(** Witness: in the list returned to a student the evaluator of the first
    record is the sentinel. *)
Lemma anonymize_evaluation_list_hides_evaluators_witness :
  exists (r : value) (h' : heap) (s : nat),
    anonymize_evaluation_list (VRef 2) (Some "student") team_report_heap = Ok (r, h')
    /\ py_path h' r [KIdx 0; KStr "evaluator"] = Some (VRef s)
    /\ h' !! s = Some (ODict sentinel).
Proof.
  eexists _, _, _. split; [vm_compute; reflexivity|].
  split; [vm_compute; reflexivity|].
  match goal with
  | |- ?h' !! ?s = _ =>
      destruct (anonymize_evaluation_list_hides_evaluators (VRef 2) (Some "student")
                  team_report_heap (VRef 8) h' 0 (VRef s) student_unprivileged)
        as (s' & Hx & Hs);
        [vm_compute; reflexivity|vm_compute; reflexivity|injection Hx as <-; exact Hs]
  end.
Defined.

(** Witness: the same list read by an instructor, in capitals. *)
Lemma anonymize_evaluation_list_privileged_witness :
  exists (r : value) (h' : heap),
    anonymize_evaluation_list (VRef 2) (Some "INSTRUCTOR") team_report_heap = Ok (r, h')
    /\ (forall i, (i < length team_report_heap)%nat -> h' !! i = team_report_heap !! i)
    /\ (forall i k, py_path h' r [KIdx i; k] = py_path team_report_heap (VRef 2) [KIdx i; k]).
Proof.
  apply (anonymize_evaluation_list_privileged team_report_heap 2 [VRef 1]
           (Some "INSTRUCTOR")).
  - reflexivity.
  - intros x Hx. apply list_elem_of_singleton in Hx. subst x.
    exists 1%nat. split; [reflexivity|]. eexists. reflexivity.
  - vm_compute. reflexivity.
Defined.

(** Witness: a report with a top-level list of evaluations and no
    members, read by a student. *)
Lemma anonymize_report_data_flat_report_untouched_witness :
  exists (r : value) (h' : heap),
    anonymize_report_data (VRef 3) (Some "student") team_report_heap = Ok (r, h')
    /\ r = VRef (length team_report_heap)
    /\ (forall i, (i < length team_report_heap)%nat -> h' !! i = team_report_heap !! i).
Proof.
  eexists _, _. split; [vm_compute; reflexivity|].
  match goal with
  | |- ?r = _ /\ (forall i, _ -> ?h' !! i = _) =>
      destruct (anonymize_report_data_flat_report_untouched team_report_heap 3
                  (<["evaluations" := VRef 2]> ∅) (Some "student") r h')
        as (H1 & H2 & _);
        [reflexivity|reflexivity|reflexivity|vm_compute; reflexivity|exact (conj H1 H2)]
  end.
Defined.

End AnonymizeCopiesWitnesses.

(** ** When the context's operations return, and what they raise *)

Section OperationsReturn.
Import Decimal DecimalValue Quotient.
Local Open Scope R_scope.





Lemma add_ok (a b : t) :
  Rabs (to_R a + to_R b) <= p10 Emax -> exists c, add a b = Ok c.
Proof.
  intros Hb. pose proof overflow_margin as Hm. unfold add.
  set (e := Z.min (dexp a) (dexp b)).
  destruct (is_zero a && is_zero b).
  - apply fix_ok. rewrite to_R_zero by (by rewrite coef_mk). rewrite Rabs_R0.
    pose proof (p10_pos Emax). lra.
  - apply fix_ok. rewrite to_R_mk_signed, plus_IZR, Rmult_plus_distr_r.
    rewrite <- (to_R_scaled a e), <- (to_R_scaled b e) by lia. lra.
Qed.

Lemma mul_ok (a b : t) :
  Rabs (to_R a * to_R b) <= p10 Emax -> exists c, mul a b = Ok c.
Proof.
  intros Hb. pose proof overflow_margin as Hm. unfold mul.
  apply fix_ok. rewrite mul_value. lra.
Qed.

Lemma truediv_ok (a b : t) :
  (0 < coef b)%Z -> Rabs (to_R a / to_R b) <= p10 Emax ->
  exists c, truediv a b = Ok c.
Proof.
  intros Hb Hbnd. pose proof overflow_margin as Hm.
  pose proof (p10_pos Emax) as HP.
  assert (Hbz : is_zero b = false) by (apply Z.eqb_neq; lia).
  pose proof (coef_nonneg a) as Ha0.
  destruct (Z.eq_dec (coef a) 0%Z) as [Haz|Hanz].
  { assert (Haz' : is_zero a = true) by (by apply Z.eqb_eq).
    unfold truediv. rewrite Hbz, Haz'. cbv iota.
    apply fix_ok. rewrite to_R_zero by (by rewrite coef_mk). rewrite Rabs_R0. lra. }
  assert (Ha : (0 < coef a)%Z) by lia.
  rewrite truediv_unfold by (try done; apply Z.eqb_neq; lia). cbv zeta.
  rewrite to_R_div_sign in Hbnd by done.
  rewrite div_exact_value in Hbnd by done.
  pose proof (div_den_pos a b Hb) as HD.
  pose proof (div_quotient_digits a b Ha Hb) as [HND _].
  set (N := div_num a b) in *. set (D := div_den a b) in *.
  set (e := div_exp a b) in *. set (s := xorb (dsign a) (dsign b)) in *.
  pose proof (pow10_pos prec ltac:(vm_compute; discriminate)) as Hpp.
  assert (HDr : 0 < IZR D) by (by apply IZR_lt).
  pose proof (p10_pos e) as Hpe.
  assert (Hq0 : 0 <= IZR N / IZR D).
  { apply Rmult_le_pos; [apply IZR_le; nia|]. apply Rlt_le, Rinv_0_lt_compat. lra. }
  rewrite Rabs_signed in Hbnd by (apply Rmult_le_pos; lra).
  assert (Hcoeff : (10 ^ prec <= N / D)%Z) by (apply Z.div_le_lower_bound; lia).
  pose proof (Z.div_mod N D ltac:(lia)) as Hdm.
  pose proof (Z.mod_pos_bound N D HD) as Hr.
  assert (Hfloor : IZR (N / D) <= IZR N / IZR D).
  { apply (Rmult_le_reg_r (IZR D)); [done|].
    replace (IZR N / IZR D * IZR D) with (IZR N) by (field; lra).
    rewrite <- mult_IZR. apply IZR_le. nia. }
  destruct (Z.eqb_spec (N mod D) 0%Z) as [Hrem|Hrem]; cbn [negb].
  - destruct (strip_zeros _ (N / D)%Z e (dexp a - dexp b)%Z) as [c' e'] eqn:Hstrip.
    apply strip_zeros_spec in Hstrip; [|lia].
    destruct Hstrip as (Hc' & He' & Hval).
    apply fix_ok. rewrite to_R_mk_sign by lia.
    rewrite Rabs_signed by (pose proof (p10_pos e'); apply Rmult_le_pos;
                            [apply IZR_le; lia|lra]).
    replace (IZR c' * p10 e') with (IZR N / IZR D * p10 e); [lra|].
    rewrite Hrem, Z.add_0_r in Hdm.
    rewrite (p10_split e' e He'). rewrite Hdm at 1. rewrite Hval, !mult_IZR. field. lra.
  - assert (H10 : (10 <= N / D)%Z).
    { pose proof (pow10_le 1 prec ltac:(vm_compute; split; discriminate)) as H.
      change (10 ^ 1)%Z with 10%Z in H. lia. }
    destruct (sticky_digits (N / D) H10) as (_ & Hst).
    apply fix_ok. rewrite to_R_mk_sign by lia.
    rewrite Rabs_signed by (apply Rmult_le_pos; [apply IZR_le; lia|lra]).
    assert (Hs1 : IZR (sticky (N / D)) <= 2 * (IZR N / IZR D)).
    { destruct Hst as [_ Hst]. apply IZR_le in Hst. rewrite plus_IZR in Hst.
      assert (1 <= IZR (N / D)) by (apply IZR_le; lia). lra. }
    assert (IZR (sticky (N / D)) * p10 e <= 2 * (IZR N / IZR D * p10 e)) by nra.
    rewrite p10_succ in Hm. pose proof (p10_le Etop Emax ltac:(vm_compute; discriminate)).
    pose proof (p10_pos Etop). rewrite p10_succ. lra.
Qed.

(** A correctly rounded result stays on the same side of every
    representable bound. *)
Lemma correctly_rounded_le (x r b : R) :
  correctly_rounded x r -> x <= b -> representable b -> r <= b.
Proof.
  intros Hr Hx Hb. apply (correctly_rounded_mono x b r b Hx Hr).
  by apply representable_correctly_rounded.
Qed.

Lemma correctly_rounded_ge (x r b : R) :
  correctly_rounded x r -> b <= x -> representable b -> b <= r.
Proof.
  intros Hr Hx Hb. apply (correctly_rounded_mono b x b r Hx); [|done].
  by apply representable_correctly_rounded.
Qed.

Lemma representable_IZR (z : Z) : (Z.abs z < 10 ^ 28)%Z -> representable (IZR z).
Proof.
  intros Hz. exists z, 0%Z. rewrite p10_0, Rmult_1_r. split; [done|].
  split; [exact Hz|vm_compute; discriminate].
Qed.

Lemma rounded_half_up_le (g : Z) (x r : R) (j : Z) :
  rounded_half_up g x r -> x <= IZR j * p10 g -> r <= IZR j * p10 g.
Proof.
  intros Hr Hx. apply (rounded_half_up_mono g x (IZR j * p10 g) r _ Hx Hr).
  exists j. split; [reflexivity|].
  replace (IZR j * p10 g - IZR j * p10 g) with 0 by ring. rewrite Rabs_R0.
  pose proof (p10_pos g). split; [lra|intros; lra].
Qed.

Lemma rounded_half_up_ge (g : Z) (x r : R) (j : Z) :
  rounded_half_up g x r -> IZR j * p10 g <= x -> IZR j * p10 g <= r.
Proof.
  intros Hr Hx. apply (rounded_half_up_mono g (IZR j * p10 g) x _ r Hx); [|done].
  exists j. split; [reflexivity|].
  replace (IZR j * p10 g - IZR j * p10 g) with 0 by ring. rewrite Rabs_R0.
  pose proof (p10_pos g). split; [lra|intros; lra].
Qed.

(** The sum of two Decimals whose exact sum has at most 28 digits is that
    sum, at the smaller exponent. *)
Lemma add_exact_shape (a b : t) :
  let e := Z.min (dexp a) (dexp b) in
  let s := (signed a * 10 ^ (dexp a - e) + signed b * 10 ^ (dexp b - e))%Z in
  (Z.abs s < 10 ^ prec)%Z -> (Etiny <= e <= Etop)%Z ->
  exists c, add a b = Ok c /\ dexp c = e /\ signed c = s.
Proof.
  intros e s Hs He. unfold add. fold e. fold s.
  assert (Hfix : forall sg c, (0 <= c < 10 ^ prec)%Z -> fix_ (mk sg c e) = Ok (mk sg c e)).
  { intros sg c Hc. apply fix_unchanged.
    - intros _. cbn [dexp mk]. unfold Etop, Emax, prec in *. lia.
    - rewrite coef_mk by lia. cbn [dexp mk]. intros Hpos.
      assert (Hn : (ndigits c <= prec)%Z).
      { destruct (ndigits_spec c Hpos) as (Hn1 & Hlo & _).
        destruct (Z_le_gt_dec (ndigits c) prec) as [|Hgt]; [done|exfalso].
        pose proof (pow10_le prec (ndigits c - 1) ltac:(unfold prec in *; lia)). lia. }
      split; [done|]. split; [lia|]. lia. }
  destruct (is_zero a && is_zero b) eqn:Hz.
  - apply andb_true_iff in Hz. destruct Hz as [Ha Hb]. apply Z.eqb_eq in Ha, Hb.
    rewrite Hfix by (pose proof (pow10_pos prec ltac:(vm_compute; discriminate)); lia).
    eexists. split; [reflexivity|]. split; [reflexivity|].
    rewrite signed_mk by lia. unfold s, signed. rewrite Ha, Hb.
    destruct (dsign a), (dsign b); cbn [andb]; lia.
  - rewrite Hfix by lia. eexists. split; [reflexivity|]. split; [reflexivity|].
    unfold signed at 1. rewrite coef_mk by lia. cbn [dsign mk].
    destruct (Z.ltb_spec s 0); lia.
Qed.

End OperationsReturn.

(** ** Sums of weights with two decimal places *)

Section CentsSums.
Import Decimal DecimalValue WeightedScoringCalculator Reference.

Lemma cents_in_range : Etiny <= -2 <= Etop.
Proof. vm_compute. split; discriminate. Qed.

Lemma add_cents (a b : t) :
  dexp a = -2 -> dexp b = -2 -> Z.abs (signed a + signed b) < 10 ^ 28 ->
  exists c, add a b = Ok c /\ dexp c = -2 /\ signed c = signed a + signed b.
Proof.
  intros Ha Hb Hs. pose proof (add_exact_shape a b) as H. cbv zeta in H.
  rewrite Ha, Hb in H. change (Z.min (-2) (-2)) with (-2) in H.
  change (-2 - -2) with 0 in H. change (10 ^ 0) with 1 in H.
  rewrite !Z.mul_1_r in H. exact (H Hs cents_in_range).
Qed.

Lemma add_zero_cents (w : t) :
  dexp w = -2 -> Z.abs (signed w) < 10 ^ 28 ->
  exists c, add (of_Z 0) w = Ok c /\ dexp c = -2 /\ signed c = signed w.
Proof.
  intros Hw Hs. pose proof (add_exact_shape (of_Z 0) w) as H. cbv zeta in H.
  rewrite Hw in H. change (dexp (of_Z 0)) with 0 in H.
  change (Z.min 0 (-2)) with (-2) in H. change (signed (of_Z 0)) with 0 in H.
  change (-2 - -2) with 0 in H. change (10 ^ 0) with 1 in H.
  rewrite Z.mul_0_l, Z.add_0_l, Z.mul_1_r in H. exact (H Hs cents_in_range).
Qed.

Lemma fold_add_cents (B : Z) (ws : list t) :
  0 <= B ->
  Forall (fun w => dexp w = -2 /\ Z.abs (signed w) <= B) ws ->
  forall acc,
    dexp acc = -2 ->
    Z.abs (signed acc) + B * Z.of_nat (length ws) < 10 ^ 28 ->
    exists total,
      fold_left (fun acc x => let* s := acc in add s x) ws (Ok acc) = Ok total
      /\ dexp total = -2 /\ signed total = signed acc + cents_total ws.
Proof.
  intros HB. induction 1 as [|w rest [Hw Hsw] _ IH]; intros acc Hacc Hbound.
  { exists acc. cbn. split; [done|]. split; [done|lia]. }
  cbn [length] in Hbound. rewrite Nat2Z.inj_succ in Hbound.
  destruct (add_cents acc w Hacc Hw ltac:(lia)) as (c & Hc & Hce & Hcs).
  cbn [fold_left rbind]. rewrite Hc.
  destruct (IH c Hce ltac:(lia)) as (total & Ht & Hte & Hts).
  exists total. split; [exact Ht|]. split; [done|].
  rewrite Hts, Hcs. cbn [cents_total foldr]. fold (cents_total rest). lia.
Qed.

(** The sum of a non-empty list of two-place Decimals is exact. *)
Lemma sum_cents (B : Z) (w0 : t) (rest : list t) :
  0 <= B ->
  dexp w0 = -2 ->
  Forall (fun w => dexp w = -2 /\ Z.abs (signed w) <= B) rest ->
  Z.abs (signed w0) + B * Z.of_nat (length rest) < 10 ^ 28 ->
  exists total,
    Decimal.sum (w0 :: rest) = Ok total
    /\ dexp total = -2 /\ signed total = cents_total (w0 :: rest).
Proof.
  intros HB Hw0 Hrest Hbound. unfold Decimal.sum. cbn [fold_left rbind].
  destruct (add_zero_cents w0 Hw0 ltac:(lia)) as (c & Hc & Hce & Hcs).
  rewrite Hc.
  destruct (fold_add_cents B rest HB Hrest c Hce ltac:(lia)) as (total & Ht & Hte & Hts).
  exists total. split; [exact Ht|]. split; [done|].
  rewrite Hts, Hcs. reflexivity.
Qed.

Lemma eqb_cents_100 (total : t) :
  dexp total = -2 -> eqb total d100 = (signed total =? 10000).
Proof.
  intros He. unfold eqb, cmp. rewrite He.
  change (dexp d100) with 0. change (Z.min (-2) 0) with (-2).
  change (-2 - -2) with 0. change (0 - -2) with 2.
  change (signed d100 * 10 ^ 2) with 10000. change (10 ^ 0) with 1.
  rewrite Z.mul_1_r. destruct (Z.compare_spec (signed total) 10000) as [E|E|E].
  - by rewrite E, Z.eqb_refl.
  - symmetry. apply Z.eqb_neq. lia.
  - symmetry. apply Z.eqb_neq. lia.
Qed.

Lemma sub_100_cents (total : t) :
  dexp total = -2 -> Z.abs (10000 - signed total) < 10 ^ 28 ->
  exists diff, sub d100 total = Ok diff /\ dexp diff = -2
               /\ signed diff = 10000 - signed total.
Proof.
  intros He Hs. unfold sub.
  pose proof (add_exact_shape d100 (copy_negate total)) as H. cbv zeta in H.
  assert (Hneg : signed (copy_negate total) = - signed total).
  { unfold signed, copy_negate, coef. cbn. destruct (dsign total); cbn; lia. }
  change (dexp (copy_negate total)) with (dexp total) in H. rewrite He, Hneg in H.
  change (dexp d100) with 0 in H. change (Z.min 0 (-2)) with (-2) in H.
  change (0 - -2) with 2 in H. change (signed d100 * 10 ^ 2) with 10000 in H.
  change (-2 - -2) with 0 in H. change (10 ^ 0) with 1 in H.
  rewrite Z.mul_1_r in H.
  replace (10000 + - signed total) with (10000 - signed total) in H by lia.
  exact (H Hs cents_in_range).
Qed.

End CentsSums.

(** ** Suggested weights *)

Section Suggestions.
Import Decimal DecimalValue WeightedScoringCalculator Reference.
Local Open Scope R_scope.

Lemma multiplier_value (importance : string) :
  to_R (multiplier_of importance) = IZR (multiplier_tenths importance) * p10 (-1)
  /\ (5 <= multiplier_tenths importance <= 20)%Z.
Proof.
  unfold multiplier_tenths, multiplier_of. rewrite p10_m1.
  destruct (String.eqb importance "high").
  { rewrite to_R_of_Z.
    change (signed (of_Z 2) * 10 ^ (dexp (of_Z 2) + 1))%Z with 20%Z. split; [lra|lia]. }
  destruct (String.eqb importance "medium").
  { rewrite to_R_of_Z.
    change (signed (of_Z 1) * 10 ^ (dexp (of_Z 1) + 1))%Z with 10%Z. split; [lra|lia]. }
  destruct (String.eqb importance "low").
  { change (to_R (Dec false 5 (-1))) with (IZR 5 * p10 (-1)). rewrite p10_m1.
    change (signed (Dec false 5 (-1)) * 10 ^ (dexp (Dec false 5 (-1)) + 1))%Z with 5%Z.
    split; [lra|lia]. }
  rewrite to_R_of_Z.
  change (signed (of_Z 1) * 10 ^ (dexp (of_Z 1) + 1))%Z with 10%Z. split; [lra|lia].
Qed.

Lemma total_tenths_bounds (levels : gmap Z string) (criteria : list criterion) :
  (5 * Z.of_nat (length criteria) <= total_tenths levels criteria
   <= 20 * Z.of_nat (length criteria))%Z.
Proof.
  induction criteria as [|c rest IH]; [cbn; lia|].
  cbn [total_tenths foldr length]. fold (total_tenths levels rest).
  destruct (multiplier_value (importance_of levels c)) as [_ H]. lia.
Qed.

Lemma total_tenths_member (levels : gmap Z string) (criteria : list criterion)
    (c : criterion) :
  c ∈ criteria ->
  (multiplier_tenths (importance_of levels c) <= total_tenths levels criteria)%Z.
Proof.
  induction criteria as [|c' rest IH]; intros Hc; [by apply elem_of_nil in Hc|].
  cbn [total_tenths foldr]. fold (total_tenths levels rest).
  pose proof (total_tenths_bounds levels rest).
  destruct (multiplier_value (importance_of levels c')) as [_ H'].
  apply elem_of_cons in Hc. destruct Hc as [->|Hc]; [lia|].
  specialize (IH Hc). lia.
Qed.

Lemma representable_tenths (z : Z) :
  (Z.abs z < 10 ^ 28)%Z -> representable (IZR z * p10 (-1)).
Proof.
  intros Hz. exists z, (-1)%Z. split; [reflexivity|]. split; [exact Hz|].
  vm_compute. discriminate.
Qed.

Lemma small_value_in_range (x : R) : Rabs x <= IZR (10 ^ 28) -> Rabs x <= p10 Emax.
Proof.
  intros H. rewrite <- p10_IZR in H by lia.
  pose proof (p10_le 28 Emax ltac:(vm_compute; discriminate)). lra.
Qed.

Lemma total_units_run (levels : gmap Z string) (criteria : list criterion) :
  forall (acc : t) (U0 : Z),
    to_R acc = IZR U0 * p10 (-1) -> (0 <= U0)%Z ->
    (U0 + 20 * Z.of_nat (length criteria) < 10 ^ 28)%Z ->
    exists tu,
      fold_left
        (fun acc c =>
           let* total_units := acc in
           add total_units (multiplier_of (importance_of levels c)))
        criteria (Ok acc) = Ok tu
      /\ to_R tu = IZR (U0 + total_tenths levels criteria) * p10 (-1).
Proof.
  induction criteria as [|c rest IH]; intros acc U0 Hacc HU0 Hb.
  { exists acc. cbn. split; [done|]. by rewrite Z.add_0_r. }
  cbn [length] in Hb. rewrite Nat2Z.inj_succ in Hb.
  destruct (multiplier_value (importance_of levels c)) as [Hm Hmb].
  set (m := multiplier_tenths (importance_of levels c)) in *.
  assert (Hsum : to_R acc + to_R (multiplier_of (importance_of levels c))
                 = IZR (U0 + m) * p10 (-1)).
  { rewrite Hacc, Hm, plus_IZR. ring. }
  destruct (add_exact acc (multiplier_of (importance_of levels c))) as (a' & Ha' & Hv).
  { rewrite Hsum. apply representable_tenths. lia. }
  { rewrite Hsum. apply small_value_in_range.
    rewrite p10_m1, Rabs_pos_eq.
    - assert (IZR (U0 + m) <= IZR (10 ^ 28)) by (apply IZR_le; lia).
      assert (0 <= IZR (U0 + m)) by (apply IZR_le; lia). lra.
    - assert (0 <= IZR (U0 + m)) by (apply IZR_le; lia). lra. }
  cbn [fold_left rbind]. rewrite Ha'.
  destruct (IH a' (U0 + m)%Z) as (tu & Htu & Htv); [by rewrite Hv|lia|lia|].
  exists tu. split; [exact Htu|]. rewrite Htv.
  cbn [total_tenths foldr]. fold (total_tenths levels rest). fold m.
  do 2 f_equal. lia.
Qed.

(** One suggested weight: a two-place Decimal between 0 and 100. *)
Lemma suggested_weight_run (levels : gmap Z string) (tu : t) (U : Z) (c : criterion) :
  to_R tu = IZR U * p10 (-1) ->
  (multiplier_tenths (importance_of levels c) <= U)%Z ->
  exists q, suggested_weight levels tu c = Ok q
            /\ dexp q = (-2)%Z /\ (0 <= signed q <= 10000)%Z.
Proof.
  intros Htu HU. unfold suggested_weight.
  destruct (multiplier_value (importance_of levels c)) as [Hm Hmb].
  set (mult := multiplier_of (importance_of levels c)) in *.
  set (m := multiplier_tenths (importance_of levels c)) in *.
  assert (HUr : 0 < IZR U) by (apply IZR_lt; lia).
  assert (Hmr : 0 < IZR m <= IZR U) by (split; [apply IZR_lt|apply IZR_le]; lia).
  assert (Htu0 : 0 < to_R tu) by (rewrite Htu, p10_m1; lra).
  assert (Hcoef : (0 < coef tu)%Z).
  { pose proof (coef_nonneg tu). destruct (Z.eq_dec (coef tu) 0%Z) as [E|E]; [|lia].
    apply to_R_zero in E. lra. }
  assert (Hx : 0 <= to_R mult / to_R tu <= 1).
  { rewrite Hm, Htu, p10_m1.
    replace (IZR m * / 10 / (IZR U * / 10)) with (IZR m / IZR U) by (field; lra).
    split.
    - apply Rmult_le_pos; [lra|]. apply Rlt_le, Rinv_0_lt_compat. lra.
    - apply (Rmult_le_reg_r (IZR U)); [lra|].
      replace (IZR m / IZR U * IZR U) with (IZR m) by (field; lra). lra. }
  assert (H1 : 1 <= p10 Emax).
  { pose proof (p10_le 0 Emax ltac:(vm_compute; discriminate)) as H.
    by rewrite p10_0 in H. }
  assert (H100 : 100 <= p10 Emax).
  { pose proof (p10_le 2 Emax ltac:(vm_compute; discriminate)) as H.
    rewrite (p10_IZR 2) in H by lia. exact H. }
  destruct (truediv_ok mult tu Hcoef) as (share & Hshare).
  { rewrite Rabs_pos_eq by lra. lra. }
  rewrite Hshare. cbn [rbind].
  apply truediv_correctly_rounded in Hshare. destruct Hshare as [_ Hshare].
  assert (Hs : 0 <= to_R share <= 1).
  { split.
    - apply (correctly_rounded_ge _ _ 0 Hshare); [lra|apply representable_0].
    - apply (correctly_rounded_le _ _ 1 Hshare); [lra|].
      apply (representable_IZR 1). vm_compute. reflexivity. }
  destruct (mul_ok share d100) as (w & Hw).
  { rewrite to_R_d100, Rabs_pos_eq by lra. lra. }
  rewrite Hw. cbn [rbind].
  apply mul_correctly_rounded in Hw. rewrite to_R_d100 in Hw.
  assert (Hwv : 0 <= to_R w <= 100).
  { split.
    - apply (correctly_rounded_ge _ _ 0 Hw); [lra|apply representable_0].
    - apply (correctly_rounded_le _ _ 100 Hw); [lra|].
      apply (representable_IZR 100). vm_compute. reflexivity. }
  destruct (quantize2_ok w) as (q & Hq).
  { rewrite Rabs_pos_eq by lra. rewrite p10_26.
    change (10 ^ 26)%Z with 100000000000000000000000000%Z. lra. }
  exists q. split; [exact Hq|].
  pose proof (quantize2_round2 _ _ Hq) as Hshape.
  apply quantize2_value in Hq.
  assert (He : dexp q = (-2)%Z) by (subst q; reflexivity).
  split; [exact He|].
  assert (Hqv : to_R q = IZR (signed q) * p10 (-2)) by (unfold to_R; by rewrite He).
  pose proof (rounded_half_up_ge (-2) _ _ 0 Hq ltac:(rewrite Rmult_0_l; lra)) as Hlo.
  pose proof (rounded_half_up_le (-2) _ _ 10000 Hq ltac:(rewrite p10_m2; lra)) as Hhi.
  rewrite Hqv, p10_m2 in Hlo, Hhi.
  split; apply le_IZR; lra.
Qed.

Lemma mapM_suggested (levels : gmap Z string) (tu : t) (U : Z)
    (criteria : list criterion) :
  to_R tu = IZR U * p10 (-1) ->
  (forall c, c ∈ criteria -> (multiplier_tenths (importance_of levels c) <= U)%Z) ->
  exists ws, mapM (suggested_weight levels tu) criteria = Ok ws
             /\ length ws = length criteria
             /\ Forall (fun w => dexp w = (-2)%Z /\ (Z.abs (signed w) <= 10000)%Z) ws.
Proof.
  intros Htu. induction criteria as [|c rest IH]; intros Hall.
  { exists []. cbn. repeat split; done. }
  destruct (suggested_weight_run levels tu U c Htu (Hall c ltac:(left)))
    as (q & Hq & He & Hs).
  destruct (IH ltac:(intros c' Hc'; apply Hall; by right)) as (ws & Hws & Hlen & Hall').
  exists (q :: ws). cbn [mapM]. rewrite Hq. cbn [rbind]. rewrite Hws. cbn [rbind].
  split; [done|]. split; [cbn; by rewrite Hlen|].
  constructor; [|done]. split; [done|lia].
Qed.

(** get_weight_suggestions keeps the promise of its comment "Ensure sum is
    exactly 100": for a non-empty list of criteria (fewer than [10 ^ 20])
    and a non-empty importance mapping it returns one weight per
    criterion, each with two decimal places, and the weights add up,
    as Python's [sum] adds them, to exactly 100. *)
Theorem get_weight_suggestions_sums_to_100
    (criteria : list criterion) (levels : gmap Z string) :
  criteria <> [] -> levels <> ∅ ->
  (Z.of_nat (length criteria) < 10 ^ 20)%Z ->
  exists (ws : list t) (total : t),
    get_weight_suggestions criteria (Some levels) = Ok ws
    /\ length ws = length criteria
    /\ Forall (fun w => dexp w = (-2)%Z) ws
    /\ Decimal.sum ws = Ok total
    /\ eqb total d100 = true.
Proof.
  intros Hne Hlev Hlen. unfold get_weight_suggestions.
  assert (Hf : falsy (Some levels) = false).
  { unfold falsy. by apply bool_decide_eq_false. }
  rewrite Hf. change (default ∅ (Some levels)) with levels. cbv zeta.
  assert (H20 : (10 ^ 20 = 100000000000000000000)%Z) by reflexivity.
  assert (H28 : (10 ^ 28 = 10000000000000000000000000000)%Z) by reflexivity.
  pose proof (total_tenths_bounds levels criteria) as HUb.
  set (n := Z.of_nat (length criteria)) in *.
  assert (Hn : (1 <= n)%Z).
  { unfold n. clear -Hne. destruct criteria as [|c0 cs]; [by destruct Hne|].
    cbn [length]. lia. }
  destruct (total_units_run levels criteria d0 0) as (tu & Htu & Htuv).
  { rewrite to_R_d0. simpl. ring. }
  { lia. }
  { fold n. lia. }
  unfold total_units_of. rewrite Htu. cbn [rbind]. rewrite Z.add_0_l in Htuv.
  destruct (mapM_suggested levels tu _ criteria Htuv) as (ws & Hws & Hlenws & Hall).
  { intros c Hc. by apply total_tenths_member. }
  rewrite Hws. cbn [rbind].
  destruct ws as [|w0 rest].
  { clear -Hne Hlenws. destruct criteria; [by destruct Hne|discriminate]. }
  apply Forall_cons in Hall. destruct Hall as [[Hw0e Hw0s] Hrest].
  assert (Hlr : (Z.of_nat (length rest) < n)%Z).
  { unfold n. rewrite <- Hlenws. cbn [length]. lia. }
  destruct (sum_cents 10000 w0 rest ltac:(lia) Hw0e Hrest ltac:(lia))
    as (total & Htot & Hte & Hts).
  rewrite Htot. cbn [rbind].
  assert (Hct : (Z.abs (cents_total rest) <= 10000 * Z.of_nat (length rest))%Z).
  { clear -Hrest. induction Hrest as [|w r [_ Hw] _ IH]; [cbn; lia|].
    cbn [cents_total foldr length]. fold (cents_total r).
    rewrite Nat2Z.inj_succ. lia. }
  cbn [cents_total foldr] in Hts. fold (cents_total rest) in Hts.
  rewrite (eqb_cents_100 total Hte).
  destruct (Z.eqb_spec (signed total) 10000) as [E|E]; cbn [negb].
  - exists (w0 :: rest), total. split; [done|]. split; [done|].
    split; [constructor; [done|]; eapply Forall_impl; [exact Hrest|]; by intros ? [? _]|].
    split; [done|]. rewrite (eqb_cents_100 total Hte). by apply Z.eqb_eq.
  - destruct (sub_100_cents total Hte ltac:(lia)) as (diff & Hdiff & Hde & Hds).
    rewrite Hdiff. cbn [rbind add_to_first].
    destruct (add_cents w0 diff Hw0e Hde ltac:(lia)) as (w0' & Hw0' & Hw0'e & Hw0's).
    rewrite Hw0'. cbn [rbind].
    destruct (sum_cents 10000 w0' rest ltac:(lia) Hw0'e Hrest ltac:(lia))
      as (total' & Htot' & Hte' & Hts').
    exists (w0' :: rest), total'. split; [done|]. split; [done|].
    split; [constructor; [done|]; eapply Forall_impl; [exact Hrest|]; by intros ? [? _]|].
    split; [done|]. rewrite (eqb_cents_100 total' Hte'). apply Z.eqb_eq.
    rewrite Hts'. cbn [cents_total foldr]. fold (cents_total rest). lia.
Qed.

End Suggestions.

Section SuggestionsOrder.
Import Decimal DecimalValue WeightedScoringCalculator Reference.
Local Open Scope R_scope.

Lemma mapM_lookup {A B : Type} (f : A -> result B) (l : list A) :
  forall ys, mapM f l = Ok ys ->
  length ys = length l
  /\ forall i x y, l !! i = Some x -> ys !! i = Some y -> f x = Ok y.
Proof.
  induction l as [|a rest IH]; intros ys H.
  { cbn in H. injection H as <-. split; [done|]. intros i x y Hx. by destruct i. }
  cbn [mapM] in H. apply rbind_ok in H. destruct H as (b & Hb & H).
  apply rbind_ok in H. destruct H as (bs & Hbs & H). injection H as <-.
  destruct (IH bs Hbs) as [Hlen Hall]. split; [cbn; by rewrite Hlen|].
  intros [|i] x y Hx Hy; cbn in Hx, Hy.
  - injection Hx as <-. injection Hy as <-. exact Hb.
  - by apply (Hall i).
Qed.

Lemma representable_half : representable (/ 2).
Proof.
  exists 5%Z, (-1)%Z. rewrite p10_m1. split; [lra|].
  split; vm_compute; [reflexivity|discriminate].
Qed.

Lemma multiplier_at_least_half (importance : string) :
  / 2 <= to_R (multiplier_of importance).
Proof.
  destruct (multiplier_value importance) as [-> Hb]. rewrite p10_m1.
  assert (5 <= IZR (multiplier_tenths importance)) by (apply IZR_le; lia). lra.
Qed.

Lemma fold_units_raise (levels : gmap Z string) (criteria : list criterion) (e : exn) :
  fold_left
    (fun acc c =>
       let* total_units := acc in
       add total_units (multiplier_of (importance_of levels c)))
    criteria (Raise e) = Raise e.
Proof. induction criteria as [|c rest IH]; [reflexivity|exact IH]. Qed.

Lemma total_units_positive (levels : gmap Z string) (criteria : list criterion) :
  forall acc tu,
    fold_left
      (fun acc c =>
         let* total_units := acc in
         add total_units (multiplier_of (importance_of levels c)))
      criteria (Ok acc) = Ok tu ->
    0 <= to_R acc ->
    (criteria <> [] \/ / 2 <= to_R acc) ->
    / 2 <= to_R tu.
Proof.
  induction criteria as [|c rest IH]; intros acc tu H Hacc Hcase.
  { cbn in H. injection H as <-. by destruct Hcase. }
  cbn [fold_left rbind] in H.
  destruct (add acc (multiplier_of (importance_of levels c))) as [a'|e] eqn:Ha.
  - apply add_correctly_rounded in Ha.
    pose proof (multiplier_at_least_half (importance_of levels c)) as Hm.
    assert (Ha' : / 2 <= to_R a').
    { apply (correctly_rounded_ge _ _ (/ 2) Ha); [lra|apply representable_half]. }
    apply (IH a' tu H); [lra|by right].
  - by rewrite fold_units_raise in H.
Qed.

Lemma suggested_weight_mono (levels : gmap Z string) (tu : t) (c1 c2 : criterion)
    (q1 q2 : t) :
  0 < to_R tu ->
  to_R (multiplier_of (importance_of levels c1))
    <= to_R (multiplier_of (importance_of levels c2)) ->
  suggested_weight levels tu c1 = Ok q1 ->
  suggested_weight levels tu c2 = Ok q2 ->
  to_R q1 <= to_R q2.
Proof.
  intros Htu Hm H1 H2. unfold suggested_weight in H1, H2.
  apply rbind_ok in H1. destruct H1 as (s1 & Hs1 & H1).
  apply rbind_ok in H1. destruct H1 as (w1 & Hw1 & H1).
  apply rbind_ok in H2. destruct H2 as (s2 & Hs2 & H2).
  apply rbind_ok in H2. destruct H2 as (w2 & Hw2 & H2).
  apply truediv_correctly_rounded in Hs1, Hs2.
  destruct Hs1 as [_ Hs1], Hs2 as [_ Hs2].
  apply mul_correctly_rounded in Hw1, Hw2. rewrite to_R_d100 in Hw1, Hw2.
  apply quantize2_value in H1, H2.
  assert (Hs : to_R s1 <= to_R s2).
  { refine (correctly_rounded_mono _ _ _ _ _ Hs1 Hs2).
    unfold Rdiv. apply Rmult_le_compat_r; [|done].
    apply Rlt_le, Rinv_0_lt_compat. lra. }
  assert (Hw : to_R w1 <= to_R w2).
  { refine (correctly_rounded_mono _ _ _ _ _ Hw1 Hw2). lra. }
  exact (rounded_half_up_mono (-2) _ _ _ _ Hw H1 H2).
Qed.

(** Suggested weights follow the importance levels: of two criteria other
    than the first (which absorbs the residual), the one with the larger
    multiplier never gets the smaller weight. *)
Theorem get_weight_suggestions_ordered_by_importance
    (criteria : list criterion) (levels : gmap Z string) (ws : list t)
    (i j : nat) (ci cj : criterion) (wi wj : t) :
  levels <> ∅ ->
  get_weight_suggestions criteria (Some levels) = Ok ws ->
  (0 < i)%nat -> (0 < j)%nat ->
  criteria !! i = Some ci -> criteria !! j = Some cj ->
  ws !! i = Some wi -> ws !! j = Some wj ->
  leb (multiplier_of (importance_of levels ci))
      (multiplier_of (importance_of levels cj)) = true ->
  leb wi wj = true.
Proof.
  intros Hlev H Hi Hj Hci Hcj Hwi Hwj Hle.
  unfold get_weight_suggestions in H.
  assert (Hf : falsy (Some levels) = false).
  { unfold falsy. by apply bool_decide_eq_false. }
  rewrite Hf in H. change (default ∅ (Some levels)) with levels in H. cbv zeta in H.
  apply rbind_ok in H. destruct H as (tu & Htu & H).
  apply rbind_ok in H. destruct H as (ws0 & Hws0 & H).
  apply rbind_ok in H. destruct H as (total & _ & H).
  assert (Htail : forall k, (0 < k)%nat -> ws !! k = ws0 !! k).
  { destruct (negb (eqb total d100)).
    - apply rbind_ok in H. destruct H as (diff & _ & H).
      destruct ws0 as [|w0 rest]; [discriminate|]. cbn [add_to_first] in H.
      apply rbind_ok in H. destruct H as (w0' & _ & H). injection H as <-.
      intros [|k] Hk; [lia|reflexivity].
    - injection H as <-. done. }
  rewrite Htail in Hwi, Hwj by done.
  destruct (mapM_lookup _ _ _ Hws0) as [_ Hall].
  assert (Hne : criteria <> []) by (intros ->; by rewrite lookup_nil in Hci).
  assert (Hpos : / 2 <= to_R tu).
  { apply (total_units_positive levels criteria d0 tu Htu).
    - rewrite to_R_d0. lra.
    - by left. }
  apply leb_to_R. apply leb_to_R in Hle.
  apply (suggested_weight_mono levels tu ci cj wi wj); [lra|done| |].
  - by apply (Hall i).
  - by apply (Hall j).
Qed.

End SuggestionsOrder.

Section SuggestionsWitnesses.
Import Decimal WeightedScoringCalculator Reference Samples.

(** Witness: three criteria, the first one "high". *)
Lemma get_weight_suggestions_sums_to_100_witness :
  exists (ws : list t) (total : t),
    get_weight_suggestions three_criteria (Some (<[1 := "high"%string]> ∅)) = Ok ws
    /\ length ws = length three_criteria
    /\ Forall (fun w => dexp w = -2) ws
    /\ Decimal.sum ws = Ok total
    /\ eqb total d100 = true.
Proof.
  apply (get_weight_suggestions_sums_to_100 three_criteria (<[1 := "high"%string]> ∅)).
  - discriminate.
  - intros H. apply (f_equal (fun m => m !! 1)) in H. vm_compute in H. discriminate.
  - vm_compute. reflexivity.
Defined.

(** Witness: with criterion 3 "high" and criterion 2 "low", the third
    weight (57.14) is not below the second (14.29). *)
Lemma get_weight_suggestions_ordered_by_importance_witness :
  leb (Dec false 1429 (-2)) (Dec false 5714 (-2)) = true.
Proof.
  apply (get_weight_suggestions_ordered_by_importance
           three_criteria
           (<[2 := "low"%string]> (<[3 := "high"%string]> ∅))
           [Dec false 2857 (-2); Dec false 1429 (-2); Dec false 5714 (-2)]
           1 2 (bare 2) (bare 3)).
  - intros H. apply (f_equal (fun m => m !! 2)) in H. vm_compute in H. discriminate.
  - vm_compute. reflexivity.
  - lia.
  - lia.
  - reflexivity.
  - reflexivity.
  - reflexivity.
  - reflexivity.
  - vm_compute. reflexivity.
Defined.

End SuggestionsWitnesses.

(** ** Sums that cannot overflow, and the even distribution *)

Section BoundedSums.
Import Decimal DecimalValue WeightedScoringCalculator Reference.
Local Open Scope R_scope.

Lemma rounded_within (x r : R) (b : Z) :
  correctly_rounded x r -> (0 <= b < 10 ^ 28)%Z -> Rabs x <= IZR b -> Rabs r <= IZR b.
Proof.
  intros Hr Hb Hx. apply Rabs_le_inv in Hx. apply Rabs_le.
  split.
  - rewrite <- opp_IZR. apply (correctly_rounded_ge _ _ _ Hr).
    + rewrite opp_IZR. lra.
    + apply representable_IZR. lia.
  - apply (correctly_rounded_le _ _ _ Hr); [lra|]. apply representable_IZR. lia.
Qed.

Lemma IZR_in_range (x : R) (b : Z) :
  (0 <= b < 10 ^ 28)%Z -> Rabs x <= IZR b -> Rabs x <= p10 Emax.
Proof.
  intros Hb Hx. apply small_value_in_range.
  assert (IZR b <= IZR (10 ^ 28)) by (apply IZR_le; lia). lra.
Qed.

Lemma fold_add_bounded (B : Z) (xs : list t) :
  (0 <= B)%Z ->
  Forall (fun x => Rabs (to_R x) <= IZR B) xs ->
  forall (acc : t) (A : Z),
    (0 <= A)%Z -> Rabs (to_R acc) <= IZR A ->
    (A + B * Z.of_nat (length xs) < 10 ^ 28)%Z ->
    exists total,
      fold_left (fun acc x => let* s := acc in add s x) xs (Ok acc) = Ok total
      /\ Rabs (to_R total) <= IZR (A + B * Z.of_nat (length xs)).
Proof.
  intros HB. induction 1 as [|x rest Hx _ IH]; intros acc A HA Hacc Hbound.
  { exists acc. cbn. split; [done|]. by rewrite Z.mul_0_r, Z.add_0_r. }
  cbn [length] in Hbound |- *. rewrite Nat2Z.inj_succ in Hbound |- *.
  assert (Hsum : Rabs (to_R acc + to_R x) <= IZR (A + B)).
  { rewrite plus_IZR. eapply Rle_trans; [apply Rabs_triang|]. lra. }
  destruct (add_ok acc x) as (c & Hc).
  { apply (IZR_in_range _ (A + B)); [nia|done]. }
  cbn [fold_left rbind]. rewrite Hc.
  apply add_correctly_rounded in Hc.
  pose proof (rounded_within _ _ (A + B) Hc ltac:(nia) Hsum) as Hcb.
  destruct (IH c (A + B)%Z ltac:(lia) Hcb ltac:(nia)) as (total & Ht & Htb).
  exists total. split; [exact Ht|].
  replace (A + B * Z.succ (Z.of_nat (length rest)))%Z
    with (A + B + B * Z.of_nat (length rest))%Z by lia. exact Htb.
Qed.

(** [sum] never overflows on a list whose values are bounded by [B] when
    [B * len] has at most 28 digits. *)
Lemma sum_bounded (B : Z) (xs : list t) :
  (0 <= B)%Z ->
  Forall (fun x => Rabs (to_R x) <= IZR B) xs ->
  (B * Z.of_nat (length xs) < 10 ^ 28)%Z ->
  exists total, Decimal.sum xs = Ok total
                /\ Rabs (to_R total) <= IZR (B * Z.of_nat (length xs)).
Proof.
  intros HB Hxs Hb.
  destruct (fold_add_bounded B xs HB Hxs (of_Z 0) 0) as (total & Ht & Htb);
    [lia|rewrite to_R_of_Z, Rabs_R0; lra|lia|].
  exists total. split; [exact Ht|]. by rewrite Z.add_0_l in Htb.
Qed.

Lemma mapM_quantize2 (xs : list t) :
  Forall (fun x => Rabs (to_R x) <= p10 26 - 1) xs ->
  mapM quantize2 xs = Ok (map round2 xs).
Proof.
  induction 1 as [|x rest Hx _ IH]; [reflexivity|].
  cbn [mapM map]. destruct (quantize2_ok x Hx) as (q & Hq).
  rewrite Hq, IH. cbn [rbind]. by rewrite (quantize2_round2 x q Hq).
Qed.

Lemma round2_exact_cents (d : t) (q : Z) :
  to_R d = IZR q * p10 (-2) -> (0 < q)%Z -> round2 d = mk false q (-2).
Proof.
  intros Hd Hq. pose proof (round2_rounded d) as Hr. rewrite Hd in Hr.
  apply rounded_half_up_exact in Hr. rewrite to_R_round2 in Hr.
  pose proof (half_up_cents_nonneg (coef d) (dexp d) (coef_nonneg d)) as Hh.
  set (h := half_up_cents (coef d) (dexp d)) in *.
  pose proof (p10_pos (-2)) as Hp.
  assert (Hqr : 0 < IZR q) by (by apply IZR_lt).
  assert (Hhr : 0 <= IZR h) by (by apply IZR_le).
  unfold round2. fold h. destruct (dsign d).
  - exfalso. nra.
  - f_equal. apply eq_IZR. nra.
Qed.

End BoundedSums.

Section EvenDistribution.
Import Decimal DecimalValue WeightedScoringCalculator Reference.
Local Open Scope R_scope.

Lemma base_weight_run (n : Z) :
  (0 < n)%Z ->
  exists base, truediv d100 (of_Z n) = Ok base
               /\ correctly_rounded (100 / IZR n) (to_R base)
               /\ 0 <= to_R base <= 100.
Proof.
  intros Hn.
  assert (Hcoef : (0 < coef (of_Z n))%Z).
  { unfold of_Z. rewrite coef_mk by lia. lia. }
  assert (Hnr : 1 <= IZR n) by (apply IZR_le; lia).
  assert (Hx : 0 <= 100 / IZR n <= 100).
  { split.
    - apply Rmult_le_pos; [lra|]. apply Rlt_le, Rinv_0_lt_compat. lra.
    - apply (Rmult_le_reg_r (IZR n)); [lra|].
      replace (100 / IZR n * IZR n) with 100 by (field; lra). nra. }
  destruct (truediv_ok d100 (of_Z n) Hcoef) as (base & Hbase).
  { rewrite to_R_d100, to_R_of_Z, Rabs_pos_eq by lra.
    pose proof (p10_le 2 Emax ltac:(vm_compute; discriminate)) as H.
    rewrite (p10_IZR 2) in H by lia. change (IZR (10 ^ 2)) with 100 in H. lra. }
  exists base. split; [exact Hbase|].
  apply truediv_correctly_rounded in Hbase. destruct Hbase as [_ Hbase].
  rewrite to_R_d100, to_R_of_Z in Hbase. split; [exact Hbase|].
  split.
  - apply (correctly_rounded_ge _ _ 0 Hbase); [lra|apply representable_0].
  - apply (correctly_rounded_le _ _ 100 Hbase); [lra|].
    apply (representable_IZR 100). vm_compute. reflexivity.
Qed.

Lemma Forall_repeat {A : Type} (P : A -> Prop) (x : A) (m : nat) :
  P x -> Forall P (repeat x m).
Proof. intros Hx. induction m; cbn; by constructor. Qed.

(** distribute_weights_evenly returns for every number of criteria below
    [2 ^ 31]: no weights for a number that is not positive, otherwise
    exactly that many weights, each with two decimal places, all but
    possibly the first equal.  The bound keeps the list repetition
    [[base_weight] * num_criteria] within the lengths a list can have,
    given the memory for it: above sys.maxsize it raises OverflowError,
    which [repeat] does not show. *)
Theorem distribute_weights_evenly_returns (num_criteria : Z) :
  (num_criteria < 2 ^ 31)%Z ->
  exists ws : list t,
    distribute_weights_evenly num_criteria = Ok ws
    /\ length ws = Z.to_nat num_criteria
    /\ Forall (fun w => dexp w = (-2)%Z) ws
    /\ (forall i j wi wj, (0 < i)%nat -> (0 < j)%nat ->
          ws !! i = Some wi -> ws !! j = Some wj -> wi = wj).
Proof.
  intros Hmax. unfold distribute_weights_evenly.
  destruct (Z.leb_spec num_criteria 0) as [Hle|Hpos].
  { exists []. split; [done|]. split; [cbn; lia|]. split; [constructor|].
    intros i j wi wj _ _ Hi. by rewrite lookup_nil in Hi. }
  set (n := num_criteria) in *.
  assert (H31 : (2 ^ 31 = 2147483648)%Z) by reflexivity.
  assert (H28 : (10 ^ 28 = 10000000000000000000000000000)%Z) by reflexivity.
  destruct (base_weight_run n Hpos) as (base & Hbase & _ & Hb).
  rewrite Hbase. cbn [rbind].
  assert (Hlenr : Z.of_nat (length (repeat base (Z.to_nat n))) = n).
  { rewrite repeat_length. lia. }
  assert (Hbabs : Rabs (to_R base) <= 100) by (rewrite Rabs_pos_eq; lra).
  destruct (sum_bounded 100 (repeat base (Z.to_nat n))) as (total & Htot & Htb).
  { lia. }
  { by apply Forall_repeat. }
  { rewrite Hlenr. lia. }
  rewrite Htot. cbn [rbind]. rewrite Hlenr in Htb.
  assert (Hq26 : IZR (100 * (n + 2)) <= p10 26 - 1).
  { rewrite p10_26, <- minus_IZR. apply IZR_le.
    change (10 ^ 26)%Z with 100000000000000000000000000%Z. lia. }
  assert (Hbq : Rabs (to_R base) <= p10 26 - 1).
  { assert (100 <= IZR (100 * (n + 2))) by (apply IZR_le; lia). lra. }
  destruct (Z.to_nat n) as [|m] eqn:Hm; [lia|].
  cbn [repeat].
  assert (Hfinal : forall w0, Rabs (to_R w0) <= p10 26 - 1 ->
            exists ws : list t,
              mapM quantize2 (w0 :: repeat base m) = Ok ws
              /\ length ws = S m
              /\ Forall (fun w => dexp w = (-2)%Z) ws
              /\ (forall i j wi wj, (0 < i)%nat -> (0 < j)%nat ->
                    ws !! i = Some wi -> ws !! j = Some wj -> wi = wj)).
  { intros w0 Hw0. rewrite mapM_quantize2
      by (constructor; [done|by apply Forall_repeat]).
    eexists. split; [reflexivity|].
    split; [cbn; by rewrite length_map, repeat_length|].
    split; [apply Forall_forall; intros w Hw; apply list_elem_of_fmap_1 in Hw;
            destruct Hw as (y & -> & _); reflexivity|].
    intros [|i] [|j] wi wj Hi Hj Hwi Hwj; try lia.
    cbn [map] in Hwi, Hwj.
    change ((round2 w0 :: map round2 (repeat base m)) !! S i)
      with (map round2 (repeat base m) !! i) in Hwi.
    change ((round2 w0 :: map round2 (repeat base m)) !! S j)
      with (map round2 (repeat base m) !! j) in Hwj.
    assert (Hall : forall k w, map round2 (repeat base m) !! k = Some w -> w = round2 base).
    { clear. induction m as [|m IH]; intros [|k] w Hk; try discriminate.
      - by injection Hk as <-.
      - by apply (IH k). }
    by rewrite (Hall i wi Hwi), (Hall j wj Hwj). }
  destruct (negb (eqb total d100)).
  - assert (Hdabs : Rabs (to_R d100 + to_R (copy_negate total)) <= IZR (100 * (n + 1))).
    { rewrite to_R_d100, to_R_copy_negate, mult_IZR, plus_IZR.
      rewrite mult_IZR in Htb. apply Rabs_le_inv in Htb. apply Rabs_le. lra. }
    destruct (add_ok d100 (copy_negate total)) as (diff & Hdiff).
    { apply (IZR_in_range _ (100 * (n + 1))); [lia|done]. }
    unfold sub. rewrite Hdiff. cbn [rbind add_to_first].
    apply add_correctly_rounded in Hdiff.
    pose proof (rounded_within _ _ (100 * (n + 1)) Hdiff ltac:(lia) Hdabs) as Hdb.
    assert (Hwabs : Rabs (to_R base + to_R diff) <= IZR (100 * (n + 2))).
    { replace (100 * (n + 2))%Z with (100 + 100 * (n + 1))%Z by lia. rewrite plus_IZR.
      eapply Rle_trans; [apply Rabs_triang|]. lra. }
    destruct (add_ok base diff) as (w0 & Hw0).
    { apply (IZR_in_range _ (100 * (n + 2))); [lia|done]. }
    rewrite Hw0. cbn [rbind].
    apply add_correctly_rounded in Hw0.
    pose proof (rounded_within _ _ (100 * (n + 2)) Hw0 ltac:(lia) Hwabs) as Hw0b.
    apply Hfinal. lra.
  - cbn [rbind]. by apply Hfinal.
Qed.

Lemma mapM_repeat {A B : Type} (f : A -> result B) (x : A) (y : B) (m : nat) :
  f x = Ok y -> mapM f (repeat x m) = Ok (repeat y m).
Proof.
  intros Hx. induction m as [|m IH]; [reflexivity|].
  cbn [repeat mapM]. by rewrite Hx, IH.
Qed.

Lemma fold_add_repeat_exact (base : t) (q : Z) (m : nat) :
  to_R base = IZR q * p10 (-2) -> (0 < q)%Z ->
  forall (acc : t) (k : Z),
    (0 <= k)%Z -> to_R acc = IZR (k * q) * p10 (-2) ->
    ((k + Z.of_nat m) * q < 10 ^ 28)%Z ->
    exists total,
      fold_left (fun acc x => let* s := acc in add s x) (repeat base m) (Ok acc)
        = Ok total
      /\ to_R total = IZR ((k + Z.of_nat m) * q) * p10 (-2).
Proof.
  intros Hbase Hq. induction m as [|m IH]; intros acc k Hk Hacc Hb.
  { exists acc. cbn. split; [done|]. by rewrite Z.add_0_r. }
  rewrite Nat2Z.inj_succ in Hb |- *.
  assert (Hsum : to_R acc + to_R base = IZR ((k + 1) * q) * p10 (-2)).
  { rewrite Hacc, Hbase, <- Rmult_plus_distr_r, <- plus_IZR. do 2 f_equal. lia. }
  destruct (add_exact acc base) as (c & Hc & Hcv).
  { rewrite Hsum. exists ((k + 1) * q)%Z, (-2)%Z. split; [reflexivity|].
    split; [|vm_compute; discriminate]. change prec with 28%Z. nia. }
  { rewrite Hsum. apply (IZR_in_range _ ((k + 1) * q)); [nia|].
    rewrite p10_m2, Rabs_pos_eq.
    - assert (0 <= IZR ((k + 1) * q)) by (apply IZR_le; nia). lra.
    - assert (0 <= IZR ((k + 1) * q)) by (apply IZR_le; nia). lra. }
  cbn [repeat fold_left rbind]. rewrite Hc.
  destruct (IH c (k + 1)%Z ltac:(lia) ltac:(by rewrite Hcv, Hsum) ltac:(nia))
    as (total & Ht & Htv).
  exists total. split; [exact Ht|]. rewrite Htv. do 2 f_equal. lia.
Qed.

(** When 100 / n is a two-place decimal, that is when n divides 10000,
    the even distribution is exact: n copies of 100 / n, which add up to
    exactly 100. *)
Theorem distribute_weights_evenly_exact (num_criteria q : Z) :
  (0 < num_criteria)%Z -> (num_criteria * q = 10000)%Z ->
  distribute_weights_evenly num_criteria
    = Ok (repeat (mk false q (-2)) (Z.to_nat num_criteria))
  /\ exists total,
       Decimal.sum (repeat (mk false q (-2)) (Z.to_nat num_criteria)) = Ok total
       /\ eqb total d100 = true.
Proof.
  intros Hn Hnq. set (n := num_criteria) in *.
  assert (Hq : (0 < q)%Z) by nia.
  assert (Hn4 : (n <= 10000)%Z) by nia.
  assert (H28 : (10 ^ 28 = 10000000000000000000000000000)%Z) by reflexivity.
  assert (Hnr : 0 < IZR n) by (by apply IZR_lt).
  assert (Hval : 100 / IZR n = IZR q * p10 (-2)).
  { rewrite p10_m2. apply (Rmult_eq_reg_r (IZR n)); [|lra].
    replace (100 / IZR n * IZR n) with 100 by (field; lra).
    replace (IZR q * / 100 * IZR n) with (IZR (n * q) / 100)
      by (rewrite mult_IZR; field).
    rewrite Hnq. lra. }
  destruct (base_weight_run n Hn) as (base & Hbase & Hround & Hb).
  assert (Hbv : to_R base = IZR q * p10 (-2)).
  { rewrite <- Hval. refine (correctly_rounded_exact _ _ _ Hround).
    rewrite Hval. exists q, (-2)%Z. split; [reflexivity|].
    split; [|vm_compute; discriminate]. change prec with 28%Z. lia. }
  split.
  - unfold distribute_weights_evenly.
    destruct (Z.leb_spec n 0) as [|_]; [lia|].
    rewrite Hbase. cbn [rbind].
    destruct (fold_add_repeat_exact base q (Z.to_nat n) Hbv Hq (of_Z 0) 0)
      as (total & Htot & Htv); [lia|by rewrite to_R_of_Z, Z.mul_0_l, Rmult_0_l|lia|].
    unfold Decimal.sum. rewrite Htot. cbn [rbind].
    assert (Heq : eqb total d100 = true).
    { apply eqb_to_R. rewrite Htv, to_R_d100, Z.add_0_l, Z2Nat.id by lia.
      rewrite Hnq, p10_m2. lra. }
    rewrite Heq. cbn [negb rbind].
    apply mapM_repeat.
    assert (Hbq : Rabs (to_R base) <= p10 26 - 1).
    { rewrite Rabs_pos_eq by lra. rewrite p10_26.
      change (10 ^ 26)%Z with 100000000000000000000000000%Z. lra. }
    destruct (quantize2_ok base Hbq) as (qb & Hqb). rewrite Hqb. f_equal.
    rewrite (quantize2_round2 _ _ Hqb). by apply round2_exact_cents.
  - destruct (Z.to_nat n) as [|m] eqn:Hm; [lia|]. cbn [repeat].
    assert (Hsq : signed (mk false q (-2)) = q) by (rewrite signed_mk by lia; done).
    destruct (sum_cents q (mk false q (-2)) (repeat (mk false q (-2)) m))
      as (total & Htot & Hte & Hts).
    { lia. }
    { reflexivity. }
    { apply Forall_repeat. split; [reflexivity|]. rewrite Hsq. lia. }
    { rewrite Hsq, repeat_length. nia. }
    exists total. split; [exact Htot|].
    rewrite (eqb_cents_100 total Hte). apply Z.eqb_eq. rewrite Hts.
    assert (Hct : forall k, cents_total (repeat (mk false q (-2)) k) = (Z.of_nat k * q)%Z).
    { induction k as [|k IH]; [reflexivity|].
      cbn [repeat cents_total foldr]. fold (cents_total (repeat (mk false q (-2)) k)).
      rewrite IH, Hsq. lia. }
    change (mk false q (-2) :: repeat (mk false q (-2)) m)
      with (repeat (mk false q (-2)) (S m)).
    rewrite Hct, <- Hm, Z2Nat.id by lia. exact Hnq.
Qed.

End EvenDistribution.

Section EvenDistributionWitnesses.
Import Decimal WeightedScoringCalculator Reference.

(** Witness: three criteria. *)
Lemma distribute_weights_evenly_returns_witness :
  exists ws : list t,
    distribute_weights_evenly 3 = Ok ws
    /\ length ws = Z.to_nat 3
    /\ Forall (fun w => dexp w = -2) ws
    /\ (forall i j wi wj, (0 < i)%nat -> (0 < j)%nat ->
          ws !! i = Some wi -> ws !! j = Some wj -> wi = wj).
Proof. apply (distribute_weights_evenly_returns 3). vm_compute. reflexivity. Defined.

(** Witness: four criteria get 25.00 each. *)
Lemma distribute_weights_evenly_exact_witness :
  distribute_weights_evenly 4 = Ok (repeat (mk false 2500 (-2)) (Z.to_nat 4))
  /\ exists total,
       Decimal.sum (repeat (mk false 2500 (-2)) (Z.to_nat 4)) = Ok total
       /\ eqb total d100 = true.
Proof. apply (distribute_weights_evenly_exact 4 2500); reflexivity. Defined.

End EvenDistributionWitnesses.

(** ** What validate_weights reports *)

Section ValidateOutcomes.
Import Decimal DecimalValue WeightedScoringCalculator Reference.

Lemma check_each_outcome (criteria : list criterion) :
  forall (i : nat) (b : bool) (msg : string),
    check_each i criteria = (b, msg) ->
    (b = true /\ msg = ""%string)
    \/ (b = false
        /\ exists (k : nat) (c : criterion),
             criteria !! k = Some c
             /\ (forall j c', (j < k)%nat -> criteria !! j = Some c' ->
                   weight_in_range c' = true)
             /\ ((ltb (weight_of c) d0 = true
                  /\ msg = negative_message (i + k) (weight_of c))
                 \/ (ltb (weight_of c) d0 = false /\ gtb (weight_of c) d100 = true
                     /\ msg = exceeding_message (i + k) (weight_of c)))).
Proof.
  induction criteria as [|c rest IH]; intros i b msg H.
  { cbn in H. injection H as <- <-. by left. }
  cbn [check_each] in H.
  destruct (ltb (weight_of c) d0) eqn:Hneg.
  { injection H as <- <-. right. split; [done|]. exists 0%nat, c.
    split; [done|]. split; [intros j c' Hj; lia|].
    left. rewrite Nat.add_0_r. done. }
  destruct (gtb (weight_of c) d100) eqn:Hbig.
  { injection H as <- <-. right. split; [done|]. exists 0%nat, c.
    split; [done|]. split; [intros j c' Hj; lia|].
    right. rewrite Nat.add_0_r. done. }
  destruct (IH (S i) b msg H) as [Hok|(Hb & k & c1 & Hk & Hfirst & Hmsg)]; [by left|].
  right. split; [done|]. exists (S k), c1. split; [done|].
  split.
  - intros [|j] c' Hj Hc'; cbn in Hc'.
    + injection Hc' as <-. unfold weight_in_range, leb.
      rewrite Hbig. rewrite ltb_leb_flip in Hneg.
      apply negb_false_iff in Hneg. unfold leb in Hneg. by rewrite Hneg.
    + apply (Hfirst j c'); [lia|done].
  - by replace (i + S k)%nat with (S i + k)%nat by lia.
Qed.

(** Every result of validate_weights is one of four reports: valid with
    an empty message; "No criteria provided" for an empty list; the sum
    message when the accumulated sum is more than 0.01 away from 100; or
    the message of the first criterion (counted from 1) whose weight is
    negative or above 100.  The message is empty exactly when the list is
    valid. *)
Theorem validate_weights_outcomes (criteria : list criterion) (b : bool) (msg : string) :
  validate_weights criteria = Ok (b, msg) ->
  (b = true <-> msg = ""%string)
  /\ (b = false ->
      (criteria = [] /\ msg = "No criteria provided"%string)
      \/ (exists total,
            Decimal.sum (map weight_of criteria) = Ok total
            /\ within_tolerance total = false /\ msg = sum_message total)
      \/ (exists (k : nat) (c : criterion),
            criteria !! k = Some c
            /\ (forall j c', (j < k)%nat -> criteria !! j = Some c' ->
                  weight_in_range c' = true)
            /\ ((ltb (weight_of c) d0 = true
                 /\ msg = negative_message k (weight_of c))
                \/ (ltb (weight_of c) d0 = false /\ gtb (weight_of c) d100 = true
                    /\ msg = exceeding_message k (weight_of c))))).
Proof.
  intros H. destruct criteria as [|c0 rest] eqn:Hcr.
  { cbn in H. injection H as <- <-. split; [split; discriminate|]. intros _. by left. }
  rewrite <- Hcr in *. assert (Hne : criteria <> []) by (by rewrite Hcr).
  destruct (Decimal.sum (map weight_of criteria)) as [total|e] eqn:Hsum.
  2:{ unfold validate_weights in H. rewrite Hcr in H. rewrite <- Hcr in H.
      rewrite Hsum in H. discriminate. }
  rewrite (validate_weights_eval criteria total Hne Hsum) in H.
  destruct (within_tolerance total) eqn:Htol.
  - apply Ok_inj in H.
    destruct (check_each_outcome criteria 0 b msg H)
      as [[-> ->]|(-> & k & c & Hk & Hfirst & Hmsg)].
    + split; [done|discriminate].
    + split.
      * split; [discriminate|]. intros ->.
        destruct Hmsg as [[_ Hm]|(_ & _ & Hm)]; discriminate Hm.
      * intros _. right. right. exists k, c. done.
  - injection H as <- <-. split.
    + split; [discriminate|]. intros Hm. discriminate Hm.
    + intros _. right. left. by exists total.
Qed.

(** validate_weights returns, with a verdict and a message, whenever no
    weight exceeds [B] in magnitude and [len * B] has at most 28 digits:
    the running sum cannot overflow. *)
Theorem validate_weights_returns (criteria : list criterion) (B : Z) :
  0 <= B ->
  (forall c, c ∈ criteria -> leb (copy_abs (weight_of c)) (of_Z B) = true) ->
  B * Z.of_nat (length criteria) < 10 ^ 28 ->
  exists (b : bool) (msg : string), validate_weights criteria = Ok (b, msg).
Proof.
  intros HB Hall Hlen. destruct criteria as [|c0 rest] eqn:Hcr.
  { by eexists _, _. }
  rewrite <- Hcr in *. assert (Hne : criteria <> []) by (by rewrite Hcr).
  destruct (sum_bounded B (map weight_of criteria) HB) as (total & Hsum & _).
  { apply Forall_forall. intros w Hw. apply list_elem_of_fmap_1 in Hw.
    destruct Hw as (c & -> & Hc). specialize (Hall c Hc).
    apply leb_to_R in Hall. by rewrite to_R_copy_abs, to_R_of_Z in Hall. }
  { by rewrite length_map. }
  rewrite (validate_weights_eval criteria total Hne Hsum).
  destruct (within_tolerance total); [|by eexists _, _].
  destruct (check_each 0 criteria) as [b msg]. by exists b, msg.
Qed.

End ValidateOutcomes.

Section ValidateOutcomesWitnesses.
Import Decimal WeightedScoringCalculator Reference Samples.

(** Witness: weights 150 and -50 sum to 100; the first one is reported. *)
Lemma validate_weights_outcomes_witness :
  (false = true <-> exceeding_message 0 (of_Z 150) = ""%string)
  /\ (false = false ->
      ([weighted 1 (of_Z 150); weighted 2 (of_Z (-50))] = []
       /\ exceeding_message 0 (of_Z 150) = "No criteria provided"%string)
      \/ (exists total,
            Decimal.sum (map weight_of [weighted 1 (of_Z 150); weighted 2 (of_Z (-50))])
              = Ok total
            /\ within_tolerance total = false
            /\ exceeding_message 0 (of_Z 150) = sum_message total)
      \/ (exists (k : nat) (c : criterion),
            [weighted 1 (of_Z 150); weighted 2 (of_Z (-50))] !! k = Some c
            /\ (forall j c', (j < k)%nat ->
                  [weighted 1 (of_Z 150); weighted 2 (of_Z (-50))] !! j = Some c' ->
                  weight_in_range c' = true)
            /\ ((ltb (weight_of c) d0 = true
                 /\ exceeding_message 0 (of_Z 150) = negative_message k (weight_of c))
                \/ (ltb (weight_of c) d0 = false /\ gtb (weight_of c) d100 = true
                    /\ exceeding_message 0 (of_Z 150)
                       = exceeding_message k (weight_of c))))).
Proof.
  apply (validate_weights_outcomes
           [weighted 1 (of_Z 150); weighted 2 (of_Z (-50))] false
           (exceeding_message 0 (of_Z 150))).
  vm_compute. reflexivity.
Defined.

(** Witness: three weights of at most 100. *)
Lemma validate_weights_returns_witness :
  exists (b : bool) (msg : string),
    validate_weights [weighted 1 d33_34; weighted 2 d33_33; weighted 3 d33_33]
    = Ok (b, msg).
Proof.
  apply (validate_weights_returns
           [weighted 1 d33_34; weighted 2 d33_33; weighted 3 d33_33] 100).
  - lia.
  - intros c Hc.
    repeat (apply elem_of_cons in Hc; destruct Hc as [->|Hc]);
      [reflexivity ..|by apply elem_of_nil in Hc].
  - vm_compute. reflexivity.
Defined.

End ValidateOutcomesWitnesses.

(** ** What calculate_weighted_score raises, and what contributes nothing *)

Section CalculatorErrors.
Import Decimal DecimalValue WeightedScoringCalculator Reference.
Local Open Scope R_scope.

Lemma positive_coef (d : t) : gtb d d0 = true -> (0 < coef d)%Z.
Proof.
  intros H. apply gtb_to_R in H. rewrite to_R_d0 in H.
  pose proof (coef_nonneg d).
  destruct (Z.eq_dec (coef d) 0%Z) as [E|E]; [|lia].
  apply to_R_zero in E. lra.
Qed.





Lemma weighted_value_zero (score max_pts w v : t) (M : Z) :
  weighted_value_of score max_pts w M = Ok v ->
  gtb max_pts d0 = false \/ is_zero score = true \/ is_zero w = true \/ M = 0%Z ->
  to_R v = 0.
Proof.
  unfold weighted_value_of. intros H Hcase.
  apply rbind_ok in H. destruct H as (n & Hn & H).
  apply rbind_ok in H. destruct H as (wf & Hwf & H).
  apply rbind_ok in H. destruct H as (p & Hp & H).
  apply truediv_correctly_rounded in Hwf. destruct Hwf as [_ Hwf].
  apply mul_correctly_rounded in Hp, H. rewrite to_R_of_Z in H.
  assert (Hzero : forall x r, correctly_rounded x r -> x = 0 -> r = 0).
  { intros x r Hr ->. by apply correctly_rounded_zero. }
  assert (Hnz : gtb max_pts d0 = false \/ is_zero score = true -> to_R n = 0).
  { intros [Hgt|Hs].
    - rewrite Hgt in Hn. injection Hn as <-. apply to_R_d0.
    - destruct (gtb max_pts d0).
      + apply truediv_correctly_rounded in Hn. destruct Hn as [Hm Hn].
        apply (Hzero _ _ Hn). apply Z.eqb_eq in Hs. rewrite (to_R_zero score Hs).
        field. done.
      + injection Hn as <-. apply to_R_d0. }
  apply (Hzero _ _ H).
  destruct Hcase as [Hc|[Hc|[Hc|Hc]]].
  - rewrite (Hzero _ _ Hp); [ring|]. rewrite Hnz by (by left). ring.
  - rewrite (Hzero _ _ Hp); [ring|]. rewrite Hnz by (by right). ring.
  - rewrite (Hzero _ _ Hp); [ring|]. rewrite (Hzero _ _ Hwf); [ring|].
    apply Z.eqb_eq in Hc. rewrite (to_R_zero w Hc), to_R_d100. field.
  - rewrite Hc. simpl. ring.
Qed.

Lemma round2_zero (v : t) : to_R v = 0 -> is_zero (round2 v) = true.
Proof.
  intros Hv. pose proof (round2_rounded v) as Hr. rewrite Hv in Hr.
  replace 0 with (IZR 0 * p10 (-2)) in Hr by (simpl; ring).
  apply rounded_half_up_exact in Hr. rewrite Rmult_0_l in Hr.
  apply to_R_zero_inv in Hr. by apply Z.eqb_eq.
Qed.

(** A criterion contributes 0.00 to the breakdown whenever its
    max_points is missing, zero or negative, its raw score is 0 (or was
    not submitted), its weight is 0, or max_score is 0. *)
Theorem calculate_weighted_score_zero_contributions
    (scores : list score_entry) (criteria : list criterion) (max_score : Z)
    (r : weighted_result) (i : nat) (c : criterion) (e : detail) :
  calculate_weighted_score scores criteria max_score = Ok r ->
  criteria !! i = Some c ->
  breakdown r !! i = Some e ->
  gtb (max_points_of c) d0 = false \/ is_zero (raw_score_for scores c) = true
  \/ is_zero (weight_of c) = true \/ max_score = 0%Z ->
  is_zero (weighted_score e) = true.
Proof.
  unfold calculate_weighted_score. intros H Hc He Hcase.
  apply rbind_ok in H. destruct H as ([bd ws] & Hloop & H).
  apply rbind_ok in H. destruct H as (q & _ & H). injection H as <-.
  cbn [breakdown] in He.
  apply loop_values in Hloop. destruct Hloop as (values & new & Hv & _ & -> & Hmap).
  rewrite app_nil_l in He.
  destruct (mapM_lookup _ _ _ Hv) as [Hlen Hall].
  assert (Hw : weighted_score <$> new !! i = Some (weighted_score e)) by (by rewrite He).
  rewrite <- list_lookup_fmap in Hw.
  change (weighted_score <$> new) with (map weighted_score new) in Hw.
  rewrite Hmap in Hw. change (map round2 values) with (round2 <$> values) in Hw.
  rewrite list_lookup_fmap in Hw.
  destruct (values !! i) as [v|] eqn:Hvi; [|discriminate]. injection Hw as <-.
  specialize (Hall i c v Hc Hvi). cbn beta in Hall.
  apply round2_zero. apply (weighted_value_zero _ _ _ _ _ Hall).
  unfold raw_score_for in Hcase. by rewrite build_score_map_lookup.
Qed.

End CalculatorErrors.

Section CalculatorErrorsWitnesses.
Import Decimal WeightedScoringCalculator Reference Samples.


(** Witness: a criterion with max_points 0 scored 7. *)
Lemma calculate_weighted_score_zero_contributions_witness :
  is_zero (Dec false 0 (-2)) = true.
Proof.
  apply (calculate_weighted_score_zero_contributions
           [Score 1 (of_Z 7)]
           [Criterion 1 (Some d100) (Some (of_Z 0)) None] 100
           (WeightedResult (Dec false 0 (-2))
              [Detail 1 ""%string (of_Z 7) (of_Z 0) d100 (Dec false 0 (-2))] 100)
           0 (Criterion 1 (Some d100) (Some (of_Z 0)) None)
           (Detail 1 ""%string (of_Z 7) (of_Z 0) d100 (Dec false 0 (-2)))).
  - vm_compute. reflexivity.
  - reflexivity.
  - reflexivity.
  - left. reflexivity.
Defined.

End CalculatorErrorsWitnesses.

(** ** The total stays between 0 and max_score *)

Section InRange.
Import Decimal DecimalValue WeightedScoringCalculator Reference.
Local Open Scope R_scope.

Lemma scaled_value_le (k u M : Z) :
  (0 <= k <= 25)%Z -> (0 <= M)%Z -> (0 <= u <= 10 ^ (k + 2))%Z ->
  0 <= IZR (u * M) * p10 (- k - 2) <= IZR M.
Proof.
  intros Hk HM Hu. pose proof (p10_pos (- k - 2)) as Hp.
  pose proof (scale_unit k 0 Hk) as Hunit.
  assert (Hu0 : 0 <= IZR u) by (apply IZR_le; lia).
  assert (Hu1 : IZR u <= IZR (10 ^ (k + 2))) by (apply IZR_le; lia).
  assert (HM0 : 0 <= IZR M) by (apply IZR_le; lia).
  rewrite mult_IZR. split.
  - apply Rmult_le_pos; [by apply Rmult_le_pos|lra].
  - replace (IZR M) with (IZR (10 ^ (k + 2)) * IZR M * p10 (- k - 2)) at 2
      by (rewrite Rmult_assoc, (Rmult_comm (IZR M)), <- Rmult_assoc, Hunit; ring).
    apply Rmult_le_compat_r; [lra|]. by apply Rmult_le_compat_r.
Qed.

Lemma max_score_in_range (k M : Z) :
  (0 <= k <= 25)%Z -> (0 <= M)%Z -> (M * 10 ^ (k + 2) < 10 ^ 28)%Z ->
  IZR M <= p10 26 - 1 /\ IZR M <= p10 Emax.
Proof.
  intros Hk HM Hb.
  pose proof (max_score_small k M Hk ltac:(by rewrite Z.abs_eq)) as Hs.
  rewrite Z.abs_eq in Hs by done. apply IZR_le in Hs.
  rewrite minus_IZR, <- p10_IZR in Hs by lia.
  pose proof (p10_le 26 Emax ltac:(vm_compute; discriminate)). split; lra.
Qed.

(** The weighted value of a criterion whose raw score lies between 0 and
    its max_points lies between 0 and the weight's share of max_score. *)
Lemma weighted_value_in_range (k M u : Z) (score max_pts w : t) :
  (0 <= k <= 25)%Z -> (0 <= M)%Z -> (M * 10 ^ (k + 2) < 10 ^ 28)%Z ->
  (0 <= u <= 10 ^ (k + 2))%Z ->
  to_R w = IZR u * p10 (- k) ->
  (gtb max_pts d0 = true -> 0 <= to_R score <= to_R max_pts) ->
  exists v, weighted_value_of score max_pts w M = Ok v
            /\ 0 <= to_R v <= IZR (u * M) * p10 (- k - 2).
Proof.
  intros Hk HM Hb Hu Hw Hscore. unfold weighted_value_of.
  pose proof (scale_pos k 0 Hk) as Hsp. pose proof (scale_lt k 0 Hk) as Hsl.
  destruct (max_score_in_range k M Hk HM Hb) as [HM26 HMmax].
  assert (HMabs : (Z.abs M * 10 ^ (k + 2) < 10 ^ 28)%Z) by (by rewrite Z.abs_eq).
  assert (H1 : 1 <= p10 Emax).
  { pose proof (p10_le 0 Emax ltac:(vm_compute; discriminate)) as H.
    by rewrite p10_0 in H. }
  assert (Hrep1 : representable 1).
  { apply (representable_IZR 1). vm_compute. reflexivity. }
  assert (Hn : exists n,
            (if gtb max_pts d0 then truediv score max_pts else Ok d0) = Ok n
            /\ 0 <= to_R n <= 1).
  { destruct (gtb max_pts d0) eqn:Hgt.
    - destruct (Hscore eq_refl) as [Hs0 Hs1].
      pose proof (positive_coef _ Hgt) as Hcoef.
      apply gtb_to_R in Hgt. rewrite to_R_d0 in Hgt.
      assert (Hx : 0 <= to_R score / to_R max_pts <= 1).
      { split.
        - apply Rmult_le_pos; [lra|]. apply Rlt_le, Rinv_0_lt_compat. lra.
        - apply (Rmult_le_reg_r (to_R max_pts)); [lra|].
          replace (to_R score / to_R max_pts * to_R max_pts) with (to_R score)
            by (field; lra). lra. }
      destruct (truediv_ok score max_pts Hcoef) as (n & Hn).
      { rewrite Rabs_pos_eq by lra. lra. }
      exists n. split; [exact Hn|].
      apply truediv_correctly_rounded in Hn. destruct Hn as [_ Hn]. split.
      + apply (correctly_rounded_ge _ _ 0 Hn); [lra|apply representable_0].
      + apply (correctly_rounded_le _ _ 1 Hn); [lra|done].
    - exists d0. split; [done|]. rewrite to_R_d0. lra. }
  destruct Hn as (n & -> & Hn). cbn [rbind].
  assert (Hq : to_R w / to_R d100 = IZR u * p10 (- k - 2)).
  { rewrite Hw, to_R_d100. replace (- k - 2)%Z with (- k + -2)%Z by lia.
    rewrite p10_add, p10_m2. field. }
  pose proof (scaled_value_le k u 1 Hk ltac:(lia) Hu) as HW.
  rewrite Z.mul_1_r in HW.
  destruct (truediv_exact w d100 ltac:(reflexivity)) as (wf & Hwf & Hwv).
  { rewrite Hq. apply (representable_scaled k 0 Hk). lia. }
  { rewrite Hq, Rabs_pos_eq by lra. lra. }
  rewrite Hwf. cbn [rbind]. rewrite Hq in Hwv.
  set (W := IZR u * p10 (- k - 2)) in *.
  destruct (mul_ok n wf) as (p & Hp).
  { rewrite Hwv, Rabs_pos_eq by nra. nra. }
  rewrite Hp. cbn [rbind].
  apply mul_correctly_rounded in Hp. rewrite Hwv in Hp.
  assert (Hpv : 0 <= to_R p <= W).
  { split.
    - apply (correctly_rounded_ge _ _ 0 Hp); [nra|apply representable_0].
    - apply (correctly_rounded_le _ _ W Hp); [nra|].
      apply (representable_scaled k 0 Hk). lia. }
  pose proof (scaled_value_le k u M Hk HM Hu) as HWM.
  assert (HWMeq : IZR (u * M) * p10 (- k - 2) = W * IZR M).
  { unfold W. rewrite mult_IZR. ring. }
  assert (HM0 : 0 <= IZR M) by (apply IZR_le; lia).
  destruct (mul_ok p (of_Z M)) as (v & Hv).
  { rewrite to_R_of_Z, Rabs_pos_eq by nra. nra. }
  exists v. split; [exact Hv|].
  apply mul_correctly_rounded in Hv. rewrite to_R_of_Z in Hv. split.
  - apply (correctly_rounded_ge _ _ 0 Hv); [nra|apply representable_0].
  - apply (correctly_rounded_le _ _ _ Hv); [nra|].
    apply (representable_scaled k 0 Hk).
    pose proof (abs_scaled_lt k M Hk HMabs 1 u ltac:(lia) Hu) as Habs.
    by rewrite Z.mul_1_l in Habs.
Qed.

Lemma quantize2_in_range (M : Z) (v : t) :
  (0 <= M)%Z -> IZR M <= p10 26 - 1 -> 0 <= to_R v <= IZR M ->
  exists q, quantize2 v = Ok q /\ 0 <= to_R q <= IZR M.
Proof.
  intros HM HM26 Hv. destruct (quantize2_ok v) as (q & Hq).
  { rewrite Rabs_pos_eq by lra. lra. }
  exists q. split; [exact Hq|]. apply quantize2_value in Hq.
  pose proof (rounded_half_up_ge (-2) _ _ 0 Hq ltac:(rewrite Rmult_0_l; lra)) as Hlo.
  pose proof (rounded_half_up_le (-2) _ _ (M * 100) Hq
                ltac:(rewrite mult_IZR, p10_m2; lra)) as Hhi.
  rewrite Rmult_0_l in Hlo. rewrite mult_IZR, p10_m2 in Hhi. lra.
Qed.

Lemma loop_in_range (k M : Z) (m : gmap Z Decimal.t) (criteria : list criterion) :
  (0 <= k <= 25)%Z -> (0 <= M)%Z -> (M * 10 ^ (k + 2) < 10 ^ 28)%Z ->
  forall bd acc S,
    (0 <= S)%Z ->
    (S + total_units k criteria <= 10 ^ (k + 2))%Z ->
    0 <= to_R acc <= IZR (S * M) * p10 (- k - 2) ->
    (forall c, c ∈ criteria ->
       (0 <= signed (weight_of c))%Z /\ (- k <= dexp (weight_of c))%Z
       /\ (gtb (max_points_of c) d0 = true ->
           0 <= to_R (default d0 (m !! c_id c)) <= to_R (max_points_of c))) ->
    exists new acc',
      loop m M criteria (bd, acc) = Ok ((bd ++ new)%list, acc')
      /\ 0 <= to_R acc' <= IZR ((S + total_units k criteria) * M) * p10 (- k - 2)
      /\ Forall (fun e => 0 <= to_R (weighted_score e) <= IZR M) new.
Proof.
  intros Hk HM Hb.
  pose proof (scale_pos k 0 Hk) as Hsp.
  destruct (max_score_in_range k M Hk HM Hb) as [HM26 HMmax].
  assert (HMabs : (Z.abs M * 10 ^ (k + 2) < 10 ^ 28)%Z) by (by rewrite Z.abs_eq).
  induction criteria as [|c rest IH]; intros bd acc S HS Htot Hacc Hall.
  { exists [], acc. cbn [loop total_units foldr]. rewrite app_nil_r, Z.add_0_r.
    split; [done|]. split; [done|constructor]. }
  cbn [total_units foldr] in *. fold (total_units k rest) in *.
  destruct (Hall c ltac:(left)) as (Hs & He & Hsc).
  pose proof (weight_units_nonneg k 0 Hk c Hs He) as Hu.
  assert (Hrest : (0 <= total_units k rest)%Z).
  { apply (total_units_nonneg k 0 Hk). intros c' Hc'.
    destruct (Hall c' ltac:(by right)) as (? & ? & _). done. }
  set (u := weight_units k c) in *.
  destruct (weighted_value_in_range k M u _ (max_points_of c) (weight_of c)
              Hk HM Hb ltac:(lia) (to_R_weight_units k 0 c He) Hsc)
    as (v & Hv & Hvv).
  cbn [loop]. unfold step at 1. rewrite Hv. cbn [rbind].
  pose proof (scaled_value_le k u M Hk HM ltac:(lia)) as HuM.
  destruct (quantize2_in_range M v HM HM26 ltac:(lra)) as (q & Hq & Hqv).
  rewrite Hq. cbn [rbind].
  pose proof (scaled_value_le k (S + u) M Hk HM ltac:(lia)) as HSu.
  assert (Hsum : 0 <= to_R acc + to_R v <= IZR ((S + u) * M) * p10 (- k - 2)).
  { replace (IZR ((S + u) * M) * p10 (- k - 2))
      with (IZR (S * M) * p10 (- k - 2) + IZR (u * M) * p10 (- k - 2))
      by (rewrite !mult_IZR, plus_IZR; ring). lra. }
  destruct (add_ok acc v) as (acc' & Hadd).
  { rewrite Rabs_pos_eq by lra. lra. }
  rewrite Hadd. cbn [rbind].
  apply add_correctly_rounded in Hadd.
  assert (Hacc' : 0 <= to_R acc' <= IZR ((S + u) * M) * p10 (- k - 2)).
  { split.
    - apply (correctly_rounded_ge _ _ 0 Hadd); [lra|apply representable_0].
    - apply (correctly_rounded_le _ _ _ Hadd); [lra|].
      apply (representable_scaled k 0 Hk).
      pose proof (abs_scaled_lt k M Hk HMabs 1 (S + u) ltac:(lia) ltac:(lia)) as Habs.
      by rewrite Z.mul_1_l in Habs. }
  set (entry := Detail (c_id c) (default ""%string (c_text c))
                  (default d0 (m !! c_id c)) (max_points_of c) (weight_of c) q).
  destruct (IH (bd ++ [entry])%list acc' (S + u)%Z ltac:(lia) ltac:(lia) Hacc')
    as (new & acc'' & Hloop & Hfin & Hnew).
  { intros c' Hc'. apply Hall. by right. }
  exists (entry :: new), acc''. split.
  { rewrite Hloop. by rewrite <- app_assoc. }
  split.
  { replace (S + (u + total_units k rest))%Z with (S + u + total_units k rest)%Z by lia.
    exact Hfin. }
  constructor; [exact Hqv|exact Hnew].
Qed.

(** A grade is never negative and never above max_score: for weights that
    are non-negative, have at most [k <= 25] decimal places and add up to
    exactly 100, a max_score with [0 <= max_score] and
    [max_score * 10 ^ (k + 2) < 10 ^ 28], and raw scores between 0 and the
    criterion's max_points (wherever that is positive), the call returns,
    its weighted_total lies between 0 and max_score, and so does every
    weighted_score of the breakdown. *)
Theorem calculate_weighted_score_in_range
    (k : Z) (scores : list score_entry) (criteria : list criterion) (max_score : Z) :
  (0 <= k <= 25)%Z ->
  (0 <= max_score)%Z ->
  (max_score * 10 ^ (k + 2) < 10 ^ 28)%Z ->
  total_units k criteria = (100 * 10 ^ k)%Z ->
  (forall c, c ∈ criteria ->
     (0 <= signed (weight_of c))%Z /\ (- k <= dexp (weight_of c))%Z) ->
  (forall c, c ∈ criteria -> gtb (max_points_of c) d0 = true ->
     leb d0 (raw_score_for scores c) = true
     /\ leb (raw_score_for scores c) (max_points_of c) = true) ->
  exists r,
    calculate_weighted_score scores criteria max_score = Ok r
    /\ leb d0 (weighted_total r) = true
    /\ leb (weighted_total r) (of_Z max_score) = true
    /\ Forall (fun e => leb d0 (weighted_score e) = true
                        /\ leb (weighted_score e) (of_Z max_score) = true)
         (breakdown r).
Proof.
  intros Hk HM Hb Htot Hw Hs. unfold calculate_weighted_score.
  assert (Hscale : (10 ^ (k + 2) = 100 * 10 ^ k)%Z).
  { rewrite Z.add_comm, pow10_add by lia. reflexivity. }
  destruct (max_score_in_range k max_score Hk HM Hb) as [HM26 HMmax].
  destruct (loop_in_range k max_score (build_score_map scores) criteria Hk HM Hb
              [] d0 0%Z) as (new & ws & Hloop & Hws & Hnew); [lia|lia| | |].
  { rewrite to_R_d0, Z.mul_0_l. simpl. lra. }
  { intros c Hc. destruct (Hw c Hc) as [H1 H2]. split; [done|]. split; [done|].
    intros Hgt. destruct (Hs c Hc Hgt) as [H3 H4].
    rewrite build_score_map_lookup. fold (raw_score_for scores c).
    apply leb_to_R in H3, H4. rewrite to_R_d0 in H3. lra. }
  rewrite Hloop. cbn [rbind]. rewrite app_nil_l.
  rewrite Z.add_0_l, Htot, <- Hscale in Hws.
  pose proof (scaled_value_le k (10 ^ (k + 2)) max_score Hk HM
                ltac:(pose proof (scale_pos k 0 Hk); lia)) as Hle.
  destruct (quantize2_in_range max_score ws HM HM26 ltac:(lra)) as (q & Hq & Hqv).
  rewrite Hq. cbn [rbind]. eexists. split; [reflexivity|].
  cbn [weighted_total breakdown].
  split; [apply leb_to_R; rewrite to_R_d0; lra|].
  split; [apply leb_to_R; rewrite to_R_of_Z; lra|].
  eapply Forall_impl; [exact Hnew|]. intros e [He1 He2]. cbn beta.
  split; apply leb_to_R; [rewrite to_R_d0|rewrite to_R_of_Z]; lra.
Qed.

End InRange.

Section InRangeWitness.
Import Decimal WeightedScoringCalculator Reference Samples.

(** Witness: weights 33.34, 33.33, 33.33 with partial marks 7/10 and 5/5
    and no score for the third criterion. *)
Lemma calculate_weighted_score_in_range_witness :
  exists r,
    calculate_weighted_score [Score 1 (of_Z 7); Score 2 (of_Z 5)] thirds 100 = Ok r
    /\ leb d0 (weighted_total r) = true
    /\ leb (weighted_total r) (of_Z 100) = true
    /\ Forall (fun e => leb d0 (weighted_score e) = true
                        /\ leb (weighted_score e) (of_Z 100) = true)
         (breakdown r).
Proof.
  apply (calculate_weighted_score_in_range 2 [Score 1 (of_Z 7); Score 2 (of_Z 5)]
           thirds 100).
  - lia.
  - lia.
  - vm_compute. reflexivity.
  - reflexivity.
  - intros c Hc. unfold thirds in Hc.
    repeat (apply elem_of_cons in Hc; destruct Hc as [->|Hc]);
      [split; vm_compute; congruence ..|by apply elem_of_nil in Hc].
  - intros c Hc _. unfold thirds in Hc.
    repeat (apply elem_of_cons in Hc; destruct Hc as [->|Hc]);
      [split; reflexivity ..|by apply elem_of_nil in Hc].
Defined.

End InRangeWitness.

(** ** Reports without members: no evaluator survives *)

Section ReportHides.
Import Anonymity Observe.
Local Open Scope string_scope.

Lemma anonymous_records_frame (h h' : heap) (lo hi : nat) (lst : value) :
  anonymous_records h lo hi lst ->
  (forall i, (lo <= i < hi)%nat -> h' !! i = h !! i) ->
  anonymous_records h' lo hi lst.
Proof.
  intros (al & rs & -> & Hal & Hlist & Hrs) Hsame.
  exists al, rs. split; [done|]. split; [done|].
  split; [by rewrite Hsame|].
  intros i x Hx. destruct (Hrs i x Hx) as (b & -> & Hb & Hleak).
  exists b. split; [done|]. split; [done|].
  intros d' Hd' y Hy. rewrite Hsame in Hd' by done.
  destruct (Hleak d' Hd' y Hy) as (s & -> & Hs & Hsent).
  exists s. split; [done|]. split; [done|]. by rewrite Hsame.
Qed.

Lemma anonymous_records_path (h : heap) (lo hi : nat) (lst : value) (i : nat) (x : value) :
  anonymous_records h lo hi lst ->
  py_path h lst [KIdx i; KStr "evaluator"] = Some x ->
  exists s, x = VRef s /\ h !! s = Some (ODict sentinel).
Proof.
  intros (al & rs & -> & _ & Hlist & Hrs) Hpath.
  cbn [py_path py_index] in Hpath. rewrite Hlist in Hpath.
  destruct (rs !! i) as [v|] eqn:Hv; [|discriminate].
  destruct (Hrs i v Hv) as (b & -> & _ & Hleak).
  cbn [py_index] in Hpath.
  destruct (h !! b) as [[d'|ys]|] eqn:Hb; [|discriminate..].
  destruct (d' !! "evaluator") as [y|] eqn:Hy; [|discriminate].
  injection Hpath as <-.
  destruct (Hleak d' eq_refl y Hy) as (s & -> & _ & Hsent). by exists s.
Qed.

Lemma anonymize_key_hides (a : nat) (d0 : gmap string value) (key : string)
    (role : option string) (h h' : heap) :
  h !! a = Some (ODict d0) ->
  _can_view_evaluator_identity role = false ->
  anonymize_key (VRef a) key role h = Ok h' ->
  forall d1 lst,
    h' !! a = Some (ODict d1) -> d1 !! key = Some lst ->
    anonymous_records h' (length h) (length h') lst.
Proof.
  intros Ha Hcv H d1 lst Hd1 Hlst. unfold anonymize_key in H.
  assert (Hlt : (a < length h)%nat) by (apply lookup_lt_is_Some; eauto).
  apply rbind_ok in H. destruct H as (present & Hc & H).
  unfold py_contains in Hc. rewrite Ha in Hc. injection Hc as <-.
  destruct (d0 !! key) as [evs0|] eqn:Hkey.
  2:{ rewrite bool_decide_eq_false_2 in H by (intros [? ?]; discriminate).
      injection H as <-. rewrite Ha in Hd1. injection Hd1 as <-.
      rewrite Hkey in Hlst. discriminate. }
  rewrite bool_decide_eq_true_2 in H by eauto.
  apply rbind_ok in H. destruct H as (evs & _ & H).
  apply rbind_ok in H. destruct H as ([r h1] & Hlist & H).
  apply anonymize_evaluation_list_run in Hlist.
  destruct Hlist as (xs & rs & _ & -> & Hlen & Hr & _ & Hold & Hrs).
  apply py_setitem_spec in H. destruct H as (a' & d & [= <-] & Ha1 & ->).
  rewrite Hold, Ha in Ha1 by done. injection Ha1 as <-.
  rewrite list_lookup_insert_eq in Hd1 by lia. injection Hd1 as <-.
  rewrite lookup_insert_eq in Hlst. injection Hlst as <-.
  rewrite length_insert.
  exists (length h1 - 1)%nat, rs. split; [done|]. split; [lia|].
  split; [by rewrite list_lookup_insert_ne by lia|].
  intros i x Hx. destruct (Hrs i x Hx) as (b & -> & Hb & Hleak).
  exists b. split; [done|]. split; [lia|].
  intros d' Hd' y Hy. rewrite list_lookup_insert_ne in Hd' by lia.
  destruct (Hleak Hcv d' Hd' y Hy) as (s & -> & Hsent & Hs).
  exists s. split; [done|]. split; [lia|].
  by rewrite list_lookup_insert_ne by lia.
Qed.

(** A report without "members" and "teams", read by a role that may not
    see identities: in the returned report no record of "evaluations" or
    of "detailed_evaluations" names its evaluator; whatever
    [result[key][i]["evaluator"]] reads is the sentinel dictionary. *)
Theorem anonymize_report_data_hides_evaluators
    (h : heap) (l : nat) (d : gmap string value) (role : option string)
    (r : value) (h' : heap) (key : string) (i : nat) (x : value) :
  h !! l = Some (ODict d) ->
  d !! "members" = None ->
  d !! "teams" = None ->
  unprivileged role ->
  anonymize_report_data (VRef l) role h = Ok (r, h') ->
  key = "evaluations" \/ key = "detailed_evaluations" ->
  py_path h' r [KStr key; KIdx i; KStr "evaluator"] = Some x ->
  exists s, x = VRef s /\ h' !! s = Some (ODict sentinel).
Proof.
  intros Hl Hm Ht Hu H Hkey Hpath. apply unprivileged_cannot_view in Hu.
  unfold anonymize_report_data in H.
  apply rbind_ok in H. destruct H as ([r0 h1] & Hcopy & H).
  apply py_copy_spec in Hcopy. destruct Hcopy as (l' & o & [= <-] & Hl' & -> & ->).
  rewrite Hl in Hl'. injection Hl' as <-.
  assert (Hnew : ((h ++ [ODict d])%list) !! length h = Some (ODict d))
    by apply lookup_alloc_new.
  assert (Hlen1 : length ((h ++ [ODict d])%list) = S (length h)).
  { rewrite length_app. simpl. lia. }
  set (h1 := (h ++ [ODict d])%list) in *.
  apply rbind_ok in H. destruct H as (h2 & Hk1 & H).
  pose proof (anonymize_key_hides _ _ _ _ _ _ Hnew Hu Hk1) as Hhide1.
  apply (anonymize_key_run _ _ _ _ _ _ Hnew) in Hk1.
  destruct Hk1 as (Hlen2 & Hold2 & d1 & Hd1 & Hsame1).
  apply rbind_ok in H. destruct H as (h3 & Hk2 & H).
  pose proof (anonymize_key_hides _ _ _ _ _ _ Hd1 Hu Hk2) as Hhide2.
  apply (anonymize_key_run _ _ _ _ _ _ Hd1) in Hk2.
  destruct Hk2 as (Hlen3 & Hold3 & d2 & Hd2 & Hsame2).
  assert (Hm2 : d2 !! "members" = None) by (rewrite Hsame2, Hsame1 by done; done).
  assert (Ht2 : d2 !! "teams" = None) by (rewrite Hsame2, Hsame1 by done; done).
  apply rbind_ok in H. destruct H as (h4 & Hmem & H).
  assert (h4 = h3) as ->.
  { unfold anonymize_members_of, py_contains in Hmem. rewrite Hd2 in Hmem.
    cbn [rbind] in Hmem. rewrite Hm2 in Hmem.
    rewrite bool_decide_eq_false_2 in Hmem by (intros [? ?]; discriminate).
    by injection Hmem. }
  unfold py_contains in H. rewrite Hd2 in H. cbn [rbind] in H. rewrite Ht2 in H.
  rewrite bool_decide_eq_false_2 in H by (intros [? ?]; discriminate).
  cbn [rbind] in H. injection H as <- <-.
  change (py_path h3 (VRef (length h)) [KStr key; KIdx i; KStr "evaluator"])
    with (match py_index h3 (VRef (length h)) (KStr key) with
          | Some v' => py_path h3 v' [KIdx i; KStr "evaluator"]
          | None => None
          end) in Hpath.
  cbn [py_index] in Hpath. rewrite Hd2 in Hpath.
  destruct (d2 !! key) as [lst|] eqn:Hlst; [|discriminate].
  destruct Hkey as [->| ->].
  - rewrite Hsame2 in Hlst by done.
    pose proof (Hhide1 d1 lst Hd1 Hlst) as Hrec.
    apply (anonymous_records_frame h2 h3) in Hrec.
    + exact (anonymous_records_path _ _ _ _ _ _ Hrec Hpath).
    + intros j Hj. apply Hold3; lia.
  - exact (anonymous_records_path _ _ _ _ _ _ (Hhide2 d2 lst Hd2 Hlst) Hpath).
Qed.

End ReportHides.

Section ReportHidesWitness.
Import Anonymity Observe Fixtures.
Local Open Scope string_scope.

(** Witness: the member dictionary of the stored team report, taken as a
    report with a list of evaluations, read by a student. *)
Lemma anonymize_report_data_hides_evaluators_witness :
  exists (r : value) (h' : heap) (s : nat),
    anonymize_report_data (VRef 3) (Some "student") team_report_heap = Ok (r, h')
    /\ py_path h' r [KStr "evaluations"; KIdx 0; KStr "evaluator"] = Some (VRef s)
    /\ h' !! s = Some (ODict sentinel).
Proof.
  eexists _, _, _. split; [vm_compute; reflexivity|].
  split; [vm_compute; reflexivity|].
  match goal with
  | |- ?h' !! ?s = _ =>
      destruct (anonymize_report_data_hides_evaluators team_report_heap 3
                  (<["evaluations" := VRef 2]> ∅) (Some "student")
                  (VRef 6) h' "evaluations" 0 (VRef s))
        as (s' & Hx & Hs);
        [reflexivity|reflexivity|reflexivity|exact student_unprivileged
        |vm_compute; reflexivity|by left|vm_compute; reflexivity
        |injection Hx as <-; exact Hs]
  end.
Defined.

End ReportHidesWitness.

(** ** The callers' role check against the filter's *)

Section CallerChecks.
Import Anonymity Callers.
Local Open Scope string_scope.

(** At the endpoints whose "anonymized" field ends in [else True]
    (evaluations.py lines 108 and 371, reports.py lines 98, 138, 242 and
    325) the field never understates: whenever the filter hides identities
    for a role, the field is True.  It can overstate: for "Instructor" the
    filter shows identities, the field says True.  The two analytics
    endpoints (reports.py lines 716 and 822) end in [else False] and are
    not covered: without a role they send the data through the filter,
    the filter hides identities, and the field says False. *)
Theorem anonymized_flag_sound (role : option string) :
  (should_anonymize_for_user role = true -> anonymized_flag role = true)
  /\ should_anonymize_for_user (Some "Instructor") = false
  /\ anonymized_flag (Some "Instructor") = true
  /\ (analytics_filters None = true
      /\ should_anonymize_for_user None = true
      /\ analytics_anonymized_flag None = false).
Proof.
  split; [|repeat split; vm_compute; reflexivity].
  unfold should_anonymize_for_user, _can_view_evaluator_identity, anonymized_flag.
  destruct role as [r|]; [|done].
  destruct (String.eqb r ""); [done|].
  intros H. apply negb_true_iff, bool_decide_eq_false in H.
  apply negb_true_iff, bool_decide_eq_false. intros Hr. apply H.
  unfold privileged_roles.
  rewrite !elem_of_cons, elem_of_nil in Hr.
  destruct Hr as [->|[->|[]]]; vm_compute; [left|right; left]; reflexivity.
Qed.

End CallerChecks.

(** ** Team reports: the members' evaluations are anonymised in place *)

Section TeamReportHides.
Import Anonymity Observe.
Local Open Scope string_scope.

Lemma anonymous_records_widen (h : heap) (lo lo' hi hi' : nat) (lst : value) :
  anonymous_records h lo hi lst -> (lo' <= lo)%nat -> (hi <= hi')%nat ->
  anonymous_records h lo' hi' lst.
Proof.
  intros (al & rs & -> & Hal & Hlist & Hrs) Hlo Hhi.
  exists al, rs. split; [done|]. split; [lia|]. split; [done|].
  intros i x Hx. destruct (Hrs i x Hx) as (b & -> & Hb & Hleak).
  exists b. split; [done|]. split; [lia|].
  intros d' Hd' y Hy. destruct (Hleak d' Hd' y Hy) as (s & -> & Hs & Hsent).
  exists s. split; [done|]. split; [lia|done].
Qed.

(** One turn of a loop over members, for any stored member: only the
    member itself can be written, lists are never written, and if the
    member then has "evaluations", these are anonymous records allocated
    by this turn. *)
Lemma anonymize_key_clean (b : nat) (key : string) (role : option string) (h h' : heap) :
  _can_view_evaluator_identity role = false ->
  anonymize_key (VRef b) key role h = Ok h' ->
  (length h <= length h')%nat
  /\ (forall i, (i < length h)%nat -> i <> b -> h' !! i = h !! i)
  /\ (forall xs, h !! b = Some (OList xs) -> h' !! b = Some (OList xs))
  /\ (forall dm lst, h' !! b = Some (ODict dm) -> dm !! key = Some lst ->
        anonymous_records h' (length h) (length h') lst).
Proof.
  intros Hcv H.
  destruct (h !! b) as [[d0|xs]|] eqn:Hb.
  - pose proof (anonymize_key_hides b d0 key role h h' Hb Hcv H) as Hhide.
    destruct (anonymize_key_run b d0 key role h h' Hb H) as (Hlen & Hold & _).
    split; [done|]. split; [done|]. split; [discriminate|exact Hhide].
  - unfold anonymize_key, py_contains in H. rewrite Hb in H. cbn [rbind] in H.
    destruct (bool_decide (VStr key ∈ xs)).
    + unfold py_getitem in H. rewrite Hb in H. discriminate.
    + injection H as <-. split; [done|]. split; [done|].
      split; [by intros ? [= <-]|]. intros dm lst Hdm. rewrite Hb in Hdm. discriminate.
  - unfold anonymize_key, py_contains in H. rewrite Hb in H. discriminate.
Qed.

Lemma anonymize_members_clean (role : option string) (lo : nat) (ms : list value) :
  _can_view_evaluator_identity role = false ->
  forall hs he : heap,
    anonymize_members ms role hs = Ok he ->
    (lo <= length hs)%nat ->
    (forall x, x ∈ ms -> exists b, x = VRef b /\ (b < lo)%nat) ->
    (length hs <= length he)%nat
    /\ (forall i, (lo <= i < length hs)%nat -> he !! i = hs !! i)
    /\ (forall i, (i < lo)%nat -> VRef i ∉ ms -> he !! i = hs !! i)
    /\ (forall i xs, (i < lo)%nat -> hs !! i = Some (OList xs) ->
          he !! i = Some (OList xs))
    /\ (forall b, (b < lo)%nat ->
          (VRef b ∈ ms
           \/ forall dm lst, hs !! b = Some (ODict dm) ->
                dm !! "evaluations" = Some lst ->
                anonymous_records hs lo (length hs) lst) ->
          forall dm lst, he !! b = Some (ODict dm) ->
            dm !! "evaluations" = Some lst ->
            anonymous_records he lo (length he) lst).
Proof.
  intros Hcv. induction ms as [|m rest IH]; intros hs he H Hlo Hall.
  { cbn in H. injection H as <-. split; [done|]. split; [done|]. split; [done|].
    split; [done|]. intros b Hb [Hin|Hclean]; [by apply elem_of_nil in Hin|exact Hclean]. }
  cbn [anonymize_members] in H.
  apply rbind_ok in H. destruct H as (h1 & Hstep & H).
  destruct (Hall m ltac:(left)) as (bm & -> & Hbm).
  destruct (anonymize_key_clean bm "evaluations" role hs h1 Hcv Hstep)
    as (Hlen1 & Hold1 & Hlist1 & Hclean1).
  destruct (IH h1 he H ltac:(lia) ltac:(intros x Hx; apply Hall; by right))
    as (Hlen2 & Hhi2 & Hother2 & Hlist2 & Hclean2).
  split; [lia|].
  split; [intros i Hi; rewrite Hhi2 by lia; apply Hold1; lia|].
  split.
  { intros i Hi Hni. rewrite not_elem_of_cons in Hni. destruct Hni as [Hne Hni].
    rewrite Hother2 by done. apply Hold1; [lia|]. intros ->. by apply Hne. }
  split.
  { intros i xs Hi Hxs. apply Hlist2; [done|].
    destruct (Nat.eq_dec i bm) as [->|Hne]; [by apply Hlist1|].
    rewrite Hold1 by (try done; lia). exact Hxs. }
  intros b Hb Hcase. apply Hclean2; [done|].
  destruct (Nat.eq_dec b bm) as [->|Hne].
  { right. intros dm lst Hdm Hlst.
    apply (anonymous_records_widen h1 (length hs) lo (length h1) (length h1));
      [by apply (Hclean1 dm lst)|lia|lia]. }
  destruct Hcase as [Hin|Hclean].
  { left. apply elem_of_cons in Hin. destruct Hin as [[= ->]|Hin]; [done|exact Hin]. }
  right. intros dm lst Hdm Hlst. rewrite Hold1 in Hdm by (try done; lia).
  apply (anonymous_records_widen h1 lo lo (length hs) (length h1)); [|lia|lia].
  apply (anonymous_records_frame hs h1); [by apply (Hclean dm lst)|].
  intros i Hi. apply Hold1; lia.
Qed.

(** A team report (a stored dictionary with a stored list of stored
    members and no "teams") read by a role that may not see identities:
    in the returned report no evaluation of any member names its
    evaluator; whatever
    [result["members"][j]["evaluations"][i]["evaluator"]] reads is the
    sentinel dictionary. *)
Theorem anonymize_report_data_hides_member_evaluators
    (h : heap) (l lm : nat) (d : gmap string value) (ms : list value)
    (role : option string) (r : value) (h' : heap) (j i : nat) (x : value) :
  h !! l = Some (ODict d) ->
  d !! "members" = Some (VRef lm) ->
  h !! lm = Some (OList ms) ->
  (forall m, m ∈ ms -> exists b, m = VRef b /\ (b < length h)%nat) ->
  d !! "teams" = None ->
  unprivileged role ->
  anonymize_report_data (VRef l) role h = Ok (r, h') ->
  py_path h' r [KStr "members"; KIdx j; KStr "evaluations"; KIdx i; KStr "evaluator"]
    = Some x ->
  exists s, x = VRef s /\ h' !! s = Some (ODict sentinel).
Proof.
  intros Hl Hm Hlm Hms Ht Hu H Hpath. apply unprivileged_cannot_view in Hu.
  unfold anonymize_report_data in H.
  apply rbind_ok in H. destruct H as ([r0 h1] & Hcopy & H).
  apply py_copy_spec in Hcopy. destruct Hcopy as (l' & o & [= <-] & Hl' & -> & ->).
  rewrite Hl in Hl'. injection Hl' as <-.
  assert (Hnew : ((h ++ [ODict d])%list) !! length h = Some (ODict d))
    by apply lookup_alloc_new.
  assert (Hlen1 : length ((h ++ [ODict d])%list) = S (length h)).
  { rewrite length_app. simpl. lia. }
  assert (Hlmlt : (lm < length h)%nat) by (apply lookup_lt_is_Some; eauto).
  set (h1 := (h ++ [ODict d])%list) in *.
  apply rbind_ok in H. destruct H as (h2 & Hk1 & H).
  apply (anonymize_key_run _ _ _ _ _ _ Hnew) in Hk1.
  destruct Hk1 as (Hlen2 & Hold2 & d1 & Hd1 & Hsame1).
  apply rbind_ok in H. destruct H as (h3 & Hk2 & H).
  apply (anonymize_key_run _ _ _ _ _ _ Hd1) in Hk2.
  destruct Hk2 as (Hlen3 & Hold3 & d2 & Hd2 & Hsame2).
  assert (Hm2 : d2 !! "members" = Some (VRef lm)) by (rewrite Hsame2, Hsame1 by done; done).
  assert (Ht2 : d2 !! "teams" = None) by (rewrite Hsame2, Hsame1 by done; done).
  assert (Hlm3 : h3 !! lm = Some (OList ms)).
  { rewrite Hold3, Hold2 by lia. unfold h1. by rewrite lookup_alloc_old. }
  apply rbind_ok in H. destruct H as (h4 & Hmem & H).
  unfold anonymize_members_of, py_contains in Hmem. rewrite Hd2 in Hmem.
  cbn [rbind] in Hmem. rewrite Hm2 in Hmem.
  rewrite bool_decide_eq_true_2 in Hmem by eauto.
  unfold py_getitem in Hmem. rewrite Hd2, Hm2 in Hmem. cbn [rbind] in Hmem.
  unfold py_iter in Hmem. rewrite Hlm3 in Hmem. cbn [rbind] in Hmem.
  destruct (anonymize_members_clean role (length h3) ms Hu h3 h4 Hmem ltac:(lia))
    as (Hlen4 & _ & Hother4 & Hlist4 & Hclean4).
  { intros m Hin. destruct (Hms m Hin) as (b & -> & Hb). exists b. split; [done|lia]. }
  assert (Hd4 : h4 !! length h = Some (ODict d2)).
  { rewrite Hother4; [done|lia|]. intros Hin.
    destruct (Hms _ Hin) as (b & [= <-] & Hb). lia. }
  unfold py_contains in H. rewrite Hd4 in H. cbn [rbind] in H. rewrite Ht2 in H.
  rewrite bool_decide_eq_false_2 in H by (intros [? ?]; discriminate).
  cbn [rbind] in H. injection H as <- <-.
  assert (Hlm4 : h4 !! lm = Some (OList ms)) by (apply Hlist4; [lia|done]).
  change (py_path h4 (VRef (length h))
            [KStr "members"; KIdx j; KStr "evaluations"; KIdx i; KStr "evaluator"])
    with (match py_index h4 (VRef (length h)) (KStr "members") with
          | Some v1 =>
              match py_index h4 v1 (KIdx j) with
              | Some v2 =>
                  match py_index h4 v2 (KStr "evaluations") with
                  | Some v3 => py_path h4 v3 [KIdx i; KStr "evaluator"]
                  | None => None
                  end
              | None => None
              end
          | None => None
          end) in Hpath.
  cbn [py_index] in Hpath. rewrite Hd4, Hm2 in Hpath.
  cbn [py_index] in Hpath. rewrite Hlm4 in Hpath.
  destruct (ms !! j) as [m|] eqn:Hmj; [|discriminate].
  assert (Hin : m ∈ ms) by (eapply list_elem_of_lookup_2; exact Hmj).
  destruct (Hms m Hin) as (b & -> & Hb). cbn [py_index] in Hpath.
  destruct (h4 !! b) as [[dm|ys]|] eqn:Hdm; [|discriminate..].
  destruct (dm !! "evaluations") as [lst|] eqn:Hlst; [|discriminate].
  apply (anonymous_records_path h4 (length h3) (length h4) lst i x); [|exact Hpath].
  apply (Hclean4 b ltac:(lia) ltac:(by left) dm lst Hdm Hlst).
Qed.

End TeamReportHides.

Section TeamReportHidesWitness.
Import Anonymity Observe Fixtures.
Local Open Scope string_scope.

(** Witness: the stored team report, read by a student. *)
Lemma anonymize_report_data_hides_member_evaluators_witness :
  exists (r : value) (h' : heap) (s : nat),
    anonymize_report_data (VRef 5) (Some "student") team_report_heap = Ok (r, h')
    /\ py_path h' r
         [KStr "members"; KIdx 0; KStr "evaluations"; KIdx 0; KStr "evaluator"]
       = Some (VRef s)
    /\ h' !! s = Some (ODict sentinel).
Proof.
  eexists _, _, _. split; [vm_compute; reflexivity|].
  split; [vm_compute; reflexivity|].
  match goal with
  | |- ?h' !! ?s = _ =>
      destruct (anonymize_report_data_hides_member_evaluators team_report_heap 5 4
                  (<["members" := VRef 4]> ∅) [VRef 3] (Some "student")
                  (VRef 6) h' 0 0 (VRef s))
        as (s' & Hx & Hs);
        [reflexivity|reflexivity|reflexivity
        |intros m Hm; apply list_elem_of_singleton in Hm; subst m;
         exists 3%nat; split; [reflexivity|vm_compute; lia]
        |reflexivity|exact student_unprivileged
        |vm_compute; reflexivity|vm_compute; reflexivity
        |injection Hx as <-; exact Hs]
  end.
Defined.

End TeamReportHidesWitness.

(** ** Project reports: the teams' members are anonymised in place *)

Section ProjectReportHides.
Import Anonymity Observe.
Local Open Scope string_scope.

Lemma stable_refl (lo : nat) (h : heap) : stable lo h h.
Proof.
  split; [done|]. split; [done|]. split; [done|].
  split; [intros i dm _ Hi; by exists dm|done].
Qed.

Lemma stable_trans (lo : nat) (h1 h2 h3 : heap) :
  stable lo h1 h2 -> stable lo h2 h3 -> stable lo h1 h3.
Proof.
  intros (Hl1 & Hr1 & Hli1 & Hd1 & Hc1) (Hl2 & Hr2 & Hli2 & Hd2 & Hc2).
  split; [lia|]. split; [intros i Hi; rewrite Hr2 by lia; by apply Hr1|].
  split; [intros i xs Hi Hxs; apply Hli2; [done|]; by apply Hli1|].
  split.
  - intros i dm Hi Hdm. destruct (Hd1 i dm Hi Hdm) as (dm' & Hdm' & Hk1).
    destruct (Hd2 i dm' Hi Hdm') as (dm'' & Hdm'' & Hk2).
    exists dm''. split; [done|]. intros k Hk. by rewrite Hk2, Hk1.
  - intros b Hb Hc. apply Hc2; [done|]. by apply Hc1.
Qed.

Lemma anonymize_key_stable (lo b : nat) (role : option string) (hs h1 : heap) :
  _can_view_evaluator_identity role = false ->
  (lo <= length hs)%nat -> (b < lo)%nat ->
  anonymize_key (VRef b) "evaluations" role hs = Ok h1 ->
  stable lo hs h1 /\ clean h1 lo b.
Proof.
  intros Hcv Hlo Hb H.
  destruct (anonymize_key_clean b "evaluations" role hs h1 Hcv H)
    as (Hlen & Hold & Hlist & Hclean).
  assert (Hcb : clean h1 lo b).
  { intros dm lst Hdm Hlst.
    apply (anonymous_records_widen h1 (length hs) lo (length h1) (length h1));
      [by apply (Hclean dm lst)|lia|lia]. }
  split; [|exact Hcb].
  split; [done|]. split; [intros i Hi; apply Hold; lia|].
  split.
  { intros i xs Hi Hxs. destruct (Nat.eq_dec i b) as [->|Hne]; [by apply Hlist|].
    rewrite Hold by (try done; lia). exact Hxs. }
  split.
  { intros i dm Hi Hdm. destruct (Nat.eq_dec i b) as [->|Hne].
    - destruct (anonymize_key_run b dm "evaluations" role hs h1 Hdm H)
        as (_ & _ & d1 & Hd1 & Hsame).
      exists d1. split; [done|exact Hsame].
    - exists dm. split; [|done]. rewrite Hold by (try done; lia). exact Hdm. }
  intros b' Hb' Hc. destruct (Nat.eq_dec b' b) as [->|Hne]; [exact Hcb|].
  intros dm lst Hdm Hlst. rewrite Hold in Hdm by (try done; lia).
  apply (anonymous_records_widen h1 lo lo (length hs) (length h1)); [|lia|lia].
  apply (anonymous_records_frame hs h1); [by apply (Hc dm lst)|].
  intros i Hi. apply Hold; lia.
Qed.

Lemma anonymize_members_stable (role : option string) (lo : nat) (ms : list value) :
  _can_view_evaluator_identity role = false ->
  forall hs he : heap,
    anonymize_members ms role hs = Ok he ->
    (lo <= length hs)%nat ->
    (forall m, m ∈ ms -> exists b, m = VRef b /\ (b < lo)%nat) ->
    stable lo hs he /\ (forall b, VRef b ∈ ms -> clean he lo b).
Proof.
  intros Hcv. induction ms as [|m rest IH]; intros hs he H Hlo Hall.
  { cbn in H. injection H as <-. split; [apply stable_refl|].
    intros b Hb. by apply elem_of_nil in Hb. }
  cbn [anonymize_members] in H.
  apply rbind_ok in H. destruct H as (h1 & Hstep & H).
  destruct (Hall m ltac:(left)) as (bm & -> & Hbm).
  destruct (anonymize_key_stable lo bm role hs h1 Hcv Hlo Hbm Hstep) as [Hst1 Hc1].
  assert (Hlo1 : (lo <= length h1)%nat) by (destruct Hst1 as [? _]; lia).
  destruct (IH h1 he H Hlo1 ltac:(intros x Hx; apply Hall; by right)) as [Hst2 Hc2].
  split; [by apply (stable_trans lo hs h1 he)|].
  intros b Hb. apply elem_of_cons in Hb. destruct Hb as [[= ->]|Hb]; [|by apply Hc2].
  destruct Hst2 as (_ & _ & _ & _ & Hkeep). by apply Hkeep.
Qed.

(** The members of the team stored at [t], as the heap [h] has them, are
    a stored list of objects stored below [lo]. *)
Lemma anonymize_members_of_stable (role : option string) (lo t : nat) (hs he : heap) :
  _can_view_evaluator_identity role = false ->
  (lo <= length hs)%nat ->
  (forall td vm, hs !! t = Some (ODict td) -> td !! "members" = Some vm ->
     exists lm ms, vm = VRef lm /\ hs !! lm = Some (OList ms)
       /\ forall m, m ∈ ms -> exists b, m = VRef b /\ (b < lo)%nat) ->
  anonymize_members_of (VRef t) role hs = Ok he ->
  stable lo hs he
  /\ (forall td lm ms b,
        hs !! t = Some (ODict td) -> td !! "members" = Some (VRef lm) ->
        hs !! lm = Some (OList ms) -> VRef b ∈ ms -> clean he lo b).
Proof.
  intros Hcv Hlo Hwf H. unfold anonymize_members_of, py_contains in H.
  destruct (hs !! t) as [[td|xs]|] eqn:Ht; [| |discriminate].
  - cbn [rbind] in H. destruct (td !! "members") as [vm|] eqn:Hvm.
    + rewrite bool_decide_eq_true_2 in H by eauto.
      unfold py_getitem in H. rewrite Ht, Hvm in H. cbn [rbind] in H.
      destruct (Hwf td vm eq_refl Hvm) as (lm & ms & -> & Hlm & Hms).
      unfold py_iter in H. rewrite Hlm in H. cbn [rbind] in H.
      destruct (anonymize_members_stable role lo ms Hcv hs he H Hlo Hms) as [Hst Hc].
      split; [exact Hst|].
      intros td' lm' ms' b [= <-] Hm' Hlm' Hb.
      rewrite Hvm in Hm'. injection Hm' as <-.
      rewrite Hlm in Hlm'. injection Hlm' as <-. by apply Hc.
    + rewrite bool_decide_eq_false_2 in H by (intros [? ?]; discriminate).
      injection H as <-. split; [apply stable_refl|].
      intros td' lm' ms' b [= <-] Hm. rewrite Hvm in Hm. discriminate.
  - cbn [rbind] in H. destruct (bool_decide (VStr "members" ∈ xs)).
    + unfold py_getitem in H. rewrite Ht in H. discriminate.
    + injection H as <-. split; [apply stable_refl|]. intros td lm ms b Hd. discriminate.
Qed.

Lemma anonymize_teams_stable (role : option string) (lo : nat) (ts : list value) :
  _can_view_evaluator_identity role = false ->
  forall hs he : heap,
    anonymize_teams ts role hs = Ok he ->
    (lo <= length hs)%nat ->
    (forall tv, tv ∈ ts ->
       exists t, tv = VRef t /\ (t < lo)%nat
         /\ forall td vm, hs !! t = Some (ODict td) -> td !! "members" = Some vm ->
              exists lm ms, vm = VRef lm /\ (lm < lo)%nat /\ hs !! lm = Some (OList ms)
                /\ forall m, m ∈ ms -> exists b, m = VRef b /\ (b < lo)%nat) ->
    stable lo hs he
    /\ (forall t td lm ms b,
          VRef t ∈ ts ->
          hs !! t = Some (ODict td) -> td !! "members" = Some (VRef lm) ->
          hs !! lm = Some (OList ms) -> VRef b ∈ ms -> clean he lo b).
Proof.
  intros Hcv. induction ts as [|tv rest IH]; intros hs he H Hlo Hall.
  { cbn in H. injection H as <-. split; [apply stable_refl|].
    intros t td lm ms b Ht. by apply elem_of_nil in Ht. }
  cbn [anonymize_teams] in H.
  apply rbind_ok in H. destruct H as (h1 & Hstep & H).
  destruct (Hall tv ltac:(left)) as (t0 & -> & Ht0 & Hwf0).
  destruct (anonymize_members_of_stable role lo t0 hs h1 Hcv Hlo) as [Hst1 Hc1];
    [|exact Hstep|].
  { intros td vm Htd Hvm. destruct (Hwf0 td vm Htd Hvm) as (lm & ms & -> & _ & Hlm & Hms).
    by exists lm, ms. }
  pose proof Hst1 as (Hlen1 & _ & Hlist1 & Hdict1 & _).
  assert (Hlo1 : (lo <= length h1)%nat) by lia.
  assert (Hback : forall t td', (t < lo)%nat -> h1 !! t = Some (ODict td') ->
            exists td, hs !! t = Some (ODict td)
                       /\ td !! "members" = td' !! "members").
  { intros t td' Ht Htd'.
    destruct (hs !! t) as [[td|xs]|] eqn:Hs.
    - destruct (Hdict1 t td Ht Hs) as (td'' & Htd'' & Hsame).
      rewrite Htd' in Htd''. injection Htd'' as <-.
      exists td. split; [done|]. symmetry. by apply Hsame.
    - rewrite (Hlist1 t xs Ht Hs) in Htd'. discriminate.
    - apply lookup_ge_None in Hs. lia. }
  destruct (IH h1 he H Hlo1) as [Hst2 Hc2].
  { intros tv Htv. destruct (Hall tv ltac:(by right)) as (t & -> & Ht & Hwf).
    exists t. split; [done|]. split; [done|].
    intros td' vm Htd' Hvm.
    destruct (Hback t td' Ht Htd') as (td & Htd & Hmem). rewrite <- Hmem in Hvm.
    destruct (Hwf td vm Htd Hvm) as (lm & ms & -> & Hlmlo & Hlm & Hms).
    exists lm, ms. split; [done|]. split; [done|].
    split; [by apply Hlist1|exact Hms]. }
  split; [by apply (stable_trans lo hs h1 he)|].
  intros t td lm ms b Ht Htd Hmem Hlm Hb.
  apply elem_of_cons in Ht. destruct Ht as [[= ->]|Ht].
  - destruct Hst2 as (_ & _ & _ & _ & Hkeep).
    assert (Hblo : (b < lo)%nat).
    { destruct (Hwf0 td (VRef lm) Htd Hmem) as (lm' & ms' & [= <-] & _ & Hlm' & Hms').
      rewrite Hlm in Hlm'. injection Hlm' as <-.
      destruct (Hms' (VRef b) Hb) as (b' & [= <-] & Hb'). done. }
    apply Hkeep; [done|]. by apply (Hc1 td lm ms b).
  - destruct (Hall (VRef t) ltac:(by right)) as (t' & [= <-] & Htlo & Hwf).
    destruct (Hwf td (VRef lm) Htd Hmem) as (lm' & ms' & [= <-] & Hlmlo & _).
    destruct (Hdict1 t td Htlo Htd) as (td' & Htd' & Hsame).
    apply (Hc2 t td' lm ms b Ht Htd'); [by rewrite Hsame|by apply Hlist1|done].
Qed.

(** A project report (a stored dictionary with a stored list "teams" of
    stored teams, each with a stored list of stored members, and no
    "members" of its own) read by a role that may not see identities: in
    the returned report no evaluation of any member of any team names its
    evaluator. *)
Theorem anonymize_report_data_hides_team_evaluators
    (h : heap) (l lt : nat) (d : gmap string value) (ts : list value)
    (role : option string) (r : value) (h' : heap) (n j i : nat) (x : value) :
  h !! l = Some (ODict d) ->
  d !! "members" = None ->
  d !! "teams" = Some (VRef lt) ->
  h !! lt = Some (OList ts) ->
  (forall tv, tv ∈ ts ->
     exists t, tv = VRef t /\ (t < length h)%nat
       /\ forall td vm, h !! t = Some (ODict td) -> td !! "members" = Some vm ->
            exists lm ms, vm = VRef lm /\ h !! lm = Some (OList ms)
              /\ forall m, m ∈ ms -> exists b, m = VRef b /\ (b < length h)%nat) ->
  unprivileged role ->
  anonymize_report_data (VRef l) role h = Ok (r, h') ->
  py_path h' r
    [KStr "teams"; KIdx n; KStr "members"; KIdx j; KStr "evaluations"; KIdx i;
     KStr "evaluator"] = Some x ->
  exists s, x = VRef s /\ h' !! s = Some (ODict sentinel).
Proof.
  intros Hl Hm Ht Hlt Hts Hu H Hpath. apply unprivileged_cannot_view in Hu.
  unfold anonymize_report_data in H.
  apply rbind_ok in H. destruct H as ([r0 h1] & Hcopy & H).
  apply py_copy_spec in Hcopy. destruct Hcopy as (l' & o & [= <-] & Hl' & -> & ->).
  rewrite Hl in Hl'. injection Hl' as <-.
  assert (Hnew : ((h ++ [ODict d])%list) !! length h = Some (ODict d))
    by apply lookup_alloc_new.
  assert (Hlen1 : length ((h ++ [ODict d])%list) = S (length h)).
  { rewrite length_app. simpl. lia. }
  assert (Hltlt : (lt < length h)%nat) by (apply lookup_lt_is_Some; eauto).
  set (h1 := (h ++ [ODict d])%list) in *.
  apply rbind_ok in H. destruct H as (h2 & Hk1 & H).
  apply (anonymize_key_run _ _ _ _ _ _ Hnew) in Hk1.
  destruct Hk1 as (Hlen2 & Hold2 & d1 & Hd1 & Hsame1).
  apply rbind_ok in H. destruct H as (h3 & Hk2 & H).
  apply (anonymize_key_run _ _ _ _ _ _ Hd1) in Hk2.
  destruct Hk2 as (Hlen3 & Hold3 & d2 & Hd2 & Hsame2).
  assert (Hm2 : d2 !! "members" = None) by (rewrite Hsame2, Hsame1 by done; done).
  assert (Ht2 : d2 !! "teams" = Some (VRef lt)) by (rewrite Hsame2, Hsame1 by done; done).
  assert (Hsame3 : forall i, (i < length h)%nat -> h3 !! i = h !! i).
  { intros i0 Hi. rewrite Hold3, Hold2 by lia. unfold h1. by rewrite lookup_alloc_old. }
  apply rbind_ok in H. destruct H as (h4 & Hmem & H).
  assert (h4 = h3) as ->.
  { unfold anonymize_members_of, py_contains in Hmem. rewrite Hd2 in Hmem.
    cbn [rbind] in Hmem. rewrite Hm2 in Hmem.
    rewrite bool_decide_eq_false_2 in Hmem by (intros [? ?]; discriminate).
    by injection Hmem. }
  unfold py_contains in H. rewrite Hd2 in H. cbn [rbind] in H. rewrite Ht2 in H.
  rewrite bool_decide_eq_true_2 in H by eauto. cbn [rbind] in H.
  apply rbind_ok in H. destruct H as (h5 & Hteams & H). injection H as <- <-.
  unfold py_getitem in Hteams. rewrite Hd2, Ht2 in Hteams. cbn [rbind] in Hteams.
  unfold py_iter in Hteams. rewrite (Hsame3 lt Hltlt), Hlt in Hteams.
  cbn [rbind] in Hteams.
  destruct (anonymize_teams_stable role (length h3) ts Hu h3 h5 Hteams ltac:(lia))
    as [Hst Hclean].
  { intros tv Htv. destruct (Hts tv Htv) as (t & -> & Htlt & Hwf).
    exists t. split; [done|]. split; [lia|].
    intros td vm Htd Hvm. rewrite Hsame3 in Htd by done.
    destruct (Hwf td vm Htd Hvm) as (lm & ms & -> & Hlm & Hms).
    assert (lm < length h)%nat by (apply lookup_lt_is_Some; eauto).
    exists lm, ms. split; [done|]. split; [lia|].
    split; [by rewrite Hsame3|].
    intros m Hin. destruct (Hms m Hin) as (b & -> & Hb). exists b. split; [done|lia]. }
  destruct Hst as (Hlen5 & _ & Hlist5 & Hdict5 & _).
  destruct (Hdict5 (length h) d2 ltac:(lia) Hd2) as (d5 & Hd5 & Hsame5).
  assert (Ht5 : d5 !! "teams" = Some (VRef lt)) by (by rewrite Hsame5).
  assert (Hlt5 : h5 !! lt = Some (OList ts)).
  { apply Hlist5; [lia|]. by rewrite Hsame3. }
  change (py_path h5 (VRef (length h))
            [KStr "teams"; KIdx n; KStr "members"; KIdx j; KStr "evaluations"; KIdx i;
             KStr "evaluator"])
    with (match py_index h5 (VRef (length h)) (KStr "teams") with
          | Some v1 =>
              match py_index h5 v1 (KIdx n) with
              | Some v2 =>
                  match py_index h5 v2 (KStr "members") with
                  | Some v3 =>
                      match py_index h5 v3 (KIdx j) with
                      | Some v4 =>
                          match py_index h5 v4 (KStr "evaluations") with
                          | Some v5 => py_path h5 v5 [KIdx i; KStr "evaluator"]
                          | None => None
                          end
                      | None => None
                      end
                  | None => None
                  end
              | None => None
              end
          | None => None
          end) in Hpath.
  cbn [py_index] in Hpath. rewrite Hd5, Ht5 in Hpath.
  cbn [py_index] in Hpath. rewrite Hlt5 in Hpath.
  destruct (ts !! n) as [tv|] eqn:Htn; [|discriminate].
  assert (Htin : tv ∈ ts) by (eapply list_elem_of_lookup_2; exact Htn).
  destruct (Hts tv Htin) as (t & -> & Htlt & Hwf). cbn [py_index] in Hpath.
  destruct (h5 !! t) as [[td5|ys]|] eqn:Htd5; [|discriminate..].
  destruct (td5 !! "members") as [vm|] eqn:Hvm; [|discriminate].
  assert (Htd3 : exists td, h3 !! t = Some (ODict td) /\ td !! "members" = Some vm).
  { destruct (h3 !! t) as [[td|xs]|] eqn:Hs.
    - destruct (Hdict5 t td ltac:(lia) Hs) as (td' & Htd' & Hsm).
      rewrite Htd5 in Htd'. injection Htd' as <-.
      exists td. split; [done|]. by rewrite <- Hsm.
    - rewrite (Hlist5 t xs ltac:(lia) Hs) in Htd5. discriminate.
    - apply lookup_ge_None in Hs. lia. }
  destruct Htd3 as (td & Htd & Hvm3).
  pose proof Htd as Htd0. rewrite Hsame3 in Htd0 by done.
  destruct (Hwf td vm Htd0 Hvm3) as (lm & ms & -> & Hlm & Hms).
  assert (Hlmlt : (lm < length h)%nat) by (apply lookup_lt_is_Some; eauto).
  assert (Hlm5 : h5 !! lm = Some (OList ms)).
  { apply Hlist5; [lia|]. by rewrite Hsame3. }
  cbn [py_index] in Hpath. rewrite Hlm5 in Hpath.
  destruct (ms !! j) as [m|] eqn:Hmj; [|discriminate].
  assert (Hin : m ∈ ms) by (eapply list_elem_of_lookup_2; exact Hmj).
  destruct (Hms m Hin) as (b & -> & Hb). cbn [py_index] in Hpath.
  destruct (h5 !! b) as [[dm|zs]|] eqn:Hdm; [|discriminate..].
  destruct (dm !! "evaluations") as [lst|] eqn:Hlst; [|discriminate].
  apply (anonymous_records_path h5 (length h3) (length h5) lst i x); [|exact Hpath].
  apply (Hclean t td lm ms b Htin Htd Hvm3 ltac:(by rewrite Hsame3) Hin dm lst Hdm Hlst).
Qed.

End ProjectReportHides.

Section ProjectReportHidesWitness.
Import Anonymity Observe Fixtures.
Local Open Scope string_scope.

(** Witness: the stored project report, read by a student. *)
Lemma anonymize_report_data_hides_team_evaluators_witness :
  exists (r : value) (h' : heap) (s : nat),
    anonymize_report_data (VRef 7) (Some "student") project_report_heap = Ok (r, h')
    /\ py_path h' r
         [KStr "teams"; KIdx 0; KStr "members"; KIdx 0; KStr "evaluations"; KIdx 0;
          KStr "evaluator"] = Some (VRef s)
    /\ h' !! s = Some (ODict sentinel).
Proof.
  eexists _, _, _. split; [vm_compute; reflexivity|].
  split; [vm_compute; reflexivity|].
  match goal with
  | |- ?h' !! ?s = _ =>
      destruct (anonymize_report_data_hides_team_evaluators project_report_heap 7 6
                  (<["teams" := VRef 6]> ∅) [VRef 5] (Some "student")
                  (VRef 8) h' 0 0 0 (VRef s))
        as (s' & Hx & Hs);
        [reflexivity|reflexivity|reflexivity|reflexivity| |exact student_unprivileged
        |vm_compute; reflexivity|vm_compute; reflexivity
        |injection Hx as <-; exact Hs]
  end.
  intros tv Htv. apply list_elem_of_singleton in Htv. subst tv.
  exists 5%nat. split; [reflexivity|]. split; [vm_compute; lia|].
  intros td vm Htd Hvm. vm_compute in Htd. injection Htd as <-.
  vm_compute in Hvm. injection Hvm as <-.
  exists 4%nat, [VRef 3]. split; [reflexivity|]. split; [reflexivity|].
  intros m Hm. apply list_elem_of_singleton in Hm. subst m.
  exists 3%nat. split; [reflexivity|vm_compute; lia].
Defined.

End ProjectReportHidesWitness.
